(** * pixelz: the entity-component-system core of [src/pixelz.cpp]

    A shallow embedding of [EntityManager], [ComponentArray<T>],
    [ComponentManager], [SystemManager] and [Coordinator], and the
    properties of the specification stated over it.

    Conventions of the embedding.
    - [Entity] ([std::uint32_t]), [ComponentType] ([std::uint8_t]),
      [size_t] and [Signature] ([std::bitset<32>]) are [N]; increments and
      decrements of the unsigned counters are written with their wrap-around.
    - [std::queue<Entity>] is a list: [front] is the head, [push] appends.
    - [std::array<X, MAX_ENTITIES>] is a finite map from an index below
      [MAX_ENTITIES] to the value last stored there; a slot never stored to
      holds the value-initialised [X].  An index at or above [MAX_ENTITIES]
      is outside the array.
    - [std::unordered_map] is a [gmap]; [operator[]] inserts the
      value-initialised mapped value for an absent key ([subscript]),
      [insert] leaves a present key alone ([emplace]).
    - [std::set<Entity>] is a [gset].
    - [typeid(T).name()] keys are strings.
    - A call either returns, throws a C++ exception, or has no defined
      result ([outcome]): its behaviour is undefined, or no instantiation
      of it compiles.  The source has no error return of its own. *)

From Stdlib Require Import NArith Lia.
From stdpp Require Import base option list gmap strings fin_maps.

Open Scope N_scope.

(** ** Scalars *)

Abbreviation Entity := N.
Abbreviation ComponentType := N.
Abbreviation Signature := N.
Abbreviation TypeName := string.

Definition MAX_ENTITIES : N := 5000.
Definition MAX_COMPONENTS : N := 32.

(** [++x] and [--x] on an unsigned integer of [w] bits. *)
Definition incr (w x : N) : N := (x + 1) mod 2 ^ w.
Definition decr (w x : N) : N := (x + (2 ^ w - 1)) mod 2 ^ w.

(** ** Outcomes of a call *)

(** What leaves a call without a defined result: what the C++ standard
    leaves undefined and the source can reach, and a template whose body
    names a member that its class does not declare. *)
Inductive ub : Type :=
| EmptyQueue        (* front()/pop() on an empty std::queue *)
| OutOfBounds       (* std::array::operator[] at or past its size *)
| NullPointer       (* call through an empty std::shared_ptr *)
| NoSuchMember.     (* call of a member the class does not declare *)

(** The one exception the source can raise: [std::bitset::set] at a
    position at or past the width. *)
Inductive exn : Type := OutOfRange.

Inductive outcome (S A : Type) : Type :=
| Val (a : A) (s : S)
| Throw (x : exn) (s : S)
| Undefined (u : ub).
Arguments Val {S A} a s.
Arguments Throw {S A} x s.
Arguments Undefined {S A} u.

Definition M (S A : Type) : Type := S -> outcome S A.

Definition ret {S A} (a : A) : M S A := fun s => Val a s.

Definition bind {S A B} (m : M S A) (k : A -> M S B) : M S B :=
  fun s =>
    match m s with
    | Val a s' => k a s'
    | Throw x s' => Throw x s'
    | Undefined u => Undefined u
    end.

Definition undefined {S A} (u : ub) : M S A := fun _ => Undefined u.
Definition throw {S A} (x : exn) : M S A := fun s => Throw x s.
Definition get {S} : M S S := fun s => Val s s.
Definition put {S} (s : S) : M S unit := fun _ => Val tt s.

(** Run a member's method inside the owner: [get_] projects the member,
    [set_] stores it back. *)
Definition zoom {S1 S2 A} (get_ : S2 -> S1) (set_ : S1 -> S2 -> S2)
    (m : M S1 A) : M S2 A :=
  fun s =>
    match m (get_ s) with
    | Val a s1 => Val a (set_ s1 s)
    | Throw x s1 => Throw x (set_ s1 s)
    | Undefined u => Undefined u
    end.

Notation "x <~ c ;; k" := (bind c (fun x => k))
  (at level 100, c at next level, right associativity).
Notation "c ;; k" := (bind c (fun _ => k))
  (at level 100, right associativity).

(** The state a call leaves behind when control comes back to the caller. *)
Definition state_after {S A} (o : outcome S A) : option S :=
  match o with
  | Val _ s => Some s
  | Throw _ s => Some s
  | Undefined _ => None
  end.

(** ** Containers *)

(** [m[k]] of [std::unordered_map]: the mapped value, and the map with the
    value-initialised entry added when [k] was absent. *)
Definition subscript `{Countable K} {V} (d : V) (m : gmap K V) (k : K)
    : V * gmap K V :=
  match m !! k with
  | Some v => (v, m)
  | None => (d, <[k := d]> m)
  end.

(** [m.insert({k, v})] of [std::unordered_map]: no effect on a present key. *)
Definition emplace `{Countable K} {V} (k : K) (v : V) (m : gmap K V)
    : gmap K V :=
  match m !! k with
  | Some _ => m
  | None => <[k := v]> m
  end.

(** Read of a [std::array] slot inside its bounds. *)
Definition slot {V} (d : V) (a : gmap N V) (i : N) : V := default d (a !! i).

(** ** std::bitset<MAX_COMPONENTS> *)

Module Bitset.
Definition empty : N := 0.

(** [b.set(pos, val)]; throws [std::out_of_range] past the width. *)
Definition set {S} (b : N) (pos : N) (val : bool) : M S N :=
  if pos <? MAX_COMPONENTS
  then ret (if val then N.lor b (N.shiftl 1 pos)
            else N.ldiff b (N.shiftl 1 pos))
  else throw OutOfRange.

Definition test (b : N) (pos : N) : bool := N.testbit b pos.

(** [(a & b) == b] *)
Definition covers (a b : N) : bool := N.land a b =? b.
End Bitset.

(** ** EntityManager *)

Module EntityManager.
Record t : Type := mk {
  available_entities_ : list Entity;
  signatures_ : gmap Entity Signature;
  living_entity_count_ : N
}.

(** The constructor's loop [for (entity; entity < MAX_ENTITIES; ++entity)
    push(entity)], the pushed ids in order; [fuel] bounds the iterations. *)
Fixpoint fill (fuel : nat) (entity : Entity) : list Entity :=
  match fuel with
  | O => []
  | S fuel' =>
      if entity <? MAX_ENTITIES
      then entity :: fill fuel' (incr 32 entity)
      else []
  end.
Arguments fill : simpl never.

Definition new : t :=
  {| available_entities_ := fill (N.to_nat MAX_ENTITIES) 0;
     signatures_ := ∅;
     living_entity_count_ := 0 |}.

Definition create_entity : M t Entity := fun em =>
  match available_entities_ em with
  | [] => Undefined EmptyQueue
  | id :: rest =>
      Val id {| available_entities_ := rest;
                signatures_ := signatures_ em;
                living_entity_count_ := incr 32 (living_entity_count_ em) |}
  end.

Definition destroy_entity (entity : Entity) : M t unit := fun em =>
  if entity <? MAX_ENTITIES
  then Val tt {| available_entities_ := available_entities_ em ++ [entity];
                 signatures_ := <[entity := Bitset.empty]> (signatures_ em);
                 living_entity_count_ := decr 32 (living_entity_count_ em) |}
  else Undefined OutOfBounds.

Definition set_signature (entity : Entity) (signature : Signature)
    : M t unit := fun em =>
  if entity <? MAX_ENTITIES
  then Val tt {| available_entities_ := available_entities_ em;
                 signatures_ := <[entity := signature]> (signatures_ em);
                 living_entity_count_ := living_entity_count_ em |}
  else Undefined OutOfBounds.

Definition get_signature (entity : Entity) : M t Signature := fun em =>
  if entity <? MAX_ENTITIES
  then Val (slot Bitset.empty (signatures_ em) entity) em
  else Undefined OutOfBounds.
End EntityManager.

(** ** ComponentArray<T> *)

(** A component type: a plain value with its value-initialised instance,
    which is what the slots of a fresh [std::array<T, MAX_ENTITIES>] hold. *)
Class Component (T : Type) : Type := value_init : T.

Module ComponentArray.
Section Array.
Context {T : Type} `{!Component T}.

Record t : Type := mk {
  component_array_ : gmap N T;
  entity_to_index_map_ : gmap Entity N;
  index_to_entity_map_ : gmap N Entity;
  size_ : N
}.

(** [std::make_shared<ComponentArray<T>>()] value-initialises the
    object: the class has no user-provided constructor, so [size_] is
    zero-initialised. *)
Definition new : t :=
  {| component_array_ := ∅;
     entity_to_index_map_ := ∅;
     index_to_entity_map_ := ∅;
     size_ := 0 |}.

Definition insert_data (entity : Entity) (component : T) : M t unit :=
  fun a =>
    let new_index := size_ a in
    let e2i := <[entity := new_index]> (entity_to_index_map_ a) in
    let i2e := <[new_index := entity]> (index_to_entity_map_ a) in
    if new_index <? MAX_ENTITIES
    then Val tt {| component_array_ :=
                     <[new_index := component]> (component_array_ a);
                   entity_to_index_map_ := e2i;
                   index_to_entity_map_ := i2e;
                   size_ := incr 64 (size_ a) |}
    else Undefined OutOfBounds.

Definition remove_data (entity : Entity) : M t unit := fun a =>
  let '(indexOfRemovedEntity, e2i) :=
    subscript 0 (entity_to_index_map_ a) entity in
  let indexOfLastElement := decr 64 (size_ a) in
  if (indexOfRemovedEntity <? MAX_ENTITIES)
     && (indexOfLastElement <? MAX_ENTITIES)
  then
    let arr :=
      <[indexOfRemovedEntity :=
          slot value_init (component_array_ a) indexOfLastElement]>
        (component_array_ a) in
    let '(entityOfLastElement, i2e) :=
      subscript 0 (index_to_entity_map_ a) indexOfLastElement in
    let e2i := <[entityOfLastElement := indexOfRemovedEntity]> e2i in
    let i2e := <[indexOfRemovedEntity := entityOfLastElement]> i2e in
    Val tt {| component_array_ := arr;
              entity_to_index_map_ := delete entity e2i;
              index_to_entity_map_ := delete indexOfLastElement i2e;
              size_ := decr 64 (size_ a) |}
  else Undefined OutOfBounds.

(** The returned reference is read at once by every caller in the
    source; the embedding returns the value it designates. *)
Definition get_data (entity : Entity) : M t T := fun a =>
  let '(index, e2i) := subscript 0 (entity_to_index_map_ a) entity in
  if index <? MAX_ENTITIES
  then Val (slot value_init (component_array_ a) index)
           {| component_array_ := component_array_ a;
              entity_to_index_map_ := e2i;
              index_to_entity_map_ := index_to_entity_map_ a;
              size_ := size_ a |}
  else Undefined OutOfBounds.

Definition entity_destroyed (entity : Entity) : M t unit := fun a =>
  match entity_to_index_map_ a !! entity with
  | Some _ => remove_data entity a
  | None => Val tt a
  end.
End Array.
Arguments t T : clear implicits.
End ComponentArray.

(** ** ComponentManager *)

(** The arrays of all registered types are held behind one interface in
    the source; here they share one payload type [T], the sum of the
    component structs. *)
Module ComponentManager.
Section Manager.
Context {T : Type} `{!Component T}.

Record t : Type := mk {
  component_types_ : gmap TypeName ComponentType;
  component_arrays_ : gmap TypeName (ComponentArray.t T);
  next_component_type : ComponentType
}.

Definition new : t :=
  {| component_types_ := ∅;
     component_arrays_ := ∅;
     next_component_type := 0 |}.

Definition set_arrays (arrs : gmap TypeName (ComponentArray.t T))
    (cm : t) : t :=
  {| component_types_ := component_types_ cm;
     component_arrays_ := arrs;
     next_component_type := next_component_type cm |}.

Definition register_component (type_name : TypeName) : M t unit :=
  fun cm =>
    Val tt
      {| component_types_ :=
           emplace type_name (next_component_type cm)
             (component_types_ cm);
         component_arrays_ :=
           emplace type_name ComponentArray.new (component_arrays_ cm);
         next_component_type := incr 8 (next_component_type cm) |}.

Definition get_component_type (type_name : TypeName)
    : M t ComponentType := fun cm =>
  let '(ty, types) := subscript 0 (component_types_ cm) type_name in
  Val ty {| component_types_ := types;
            component_arrays_ := component_arrays_ cm;
            next_component_type := next_component_type cm |}.

(** A method run on the array stored under [type_name], the array
    updated in place. *)
Definition on_array {A} (type_name : TypeName)
    (component : ComponentArray.t T)
    (method : M (ComponentArray.t T) A) : M t A :=
  zoom (fun _ => component)
       (fun a cm => set_arrays (<[type_name := a]> (component_arrays_ cm))
                               cm)
       method.

(** [get_component_array<T>()->method(...)]: [component_arrays_[name]]
    yields an empty pointer for an unregistered type, and every caller
    calls [method] through the pointer at once. *)
Definition get_component_array {A} (type_name : TypeName)
    (method : M (ComponentArray.t T) A) : M t A := fun cm =>
  match component_arrays_ cm !! type_name with
  | None => Undefined NullPointer
  | Some a => on_array type_name a method cm
  end.

Definition add_component (type_name : TypeName) (entity : Entity)
    (component : T) : M t unit :=
  get_component_array type_name
    (ComponentArray.insert_data entity component).

(** [get_component_array<T>()->RemoveData(entity)]: [ComponentArray<T>]
    declares [remove_data] and no [RemoveData], so no instantiation of
    this template compiles and a call of it has no result, whatever the
    type and the entity. *)
Definition remove_component (type_name : TypeName) (entity : Entity)
    : M t unit :=
  undefined NoSuchMember.

Definition get_component (type_name : TypeName) (entity : Entity)
    : M t T :=
  get_component_array type_name (ComponentArray.get_data entity).

(** Body of the loop of [entity_destroyed], at the entry [type_name]:
    the array is told, and updated in place. *)
Definition tell (entity : Entity) (type_name : TypeName)
    (component : ComponentArray.t T) (acc : M t unit) : M t unit :=
  acc ;;
  on_array type_name component (ComponentArray.entity_destroyed entity).

Definition entity_destroyed (entity : Entity) : M t unit := fun cm =>
  map_fold (tell entity) (ret tt) (component_arrays_ cm) cm.
End Manager.
Arguments t T : clear implicits.
End ComponentManager.

(** ** System and SystemManager *)

Module System.
Record t : Type := mk { entities_ : gset Entity }.
Definition new : t := {| entities_ := ∅ |}.
Definition insert (entity : Entity) (s : t) : t :=
  {| entities_ := {[entity]} ∪ entities_ s |}.
Definition erase (entity : Entity) (s : t) : t :=
  {| entities_ := entities_ s ∖ {[entity]} |}.
End System.

Module SystemManager.
Record t : Type := mk {
  signatures_ : gmap TypeName Signature;
  systems_ : gmap TypeName System.t
}.

Definition new : t := {| signatures_ := ∅; systems_ := ∅ |}.

(** Returns the system just made; it is the one stored unless the type
    was registered before. *)
Definition register_system (type_name : TypeName) : M t System.t :=
  fun sm =>
    let system := System.new in
    Val system {| signatures_ := signatures_ sm;
                  systems_ := emplace type_name system (systems_ sm) |}.

Definition set_signature (type_name : TypeName) (signature : Signature)
    : M t unit := fun sm =>
  Val tt {| signatures_ := emplace type_name signature (signatures_ sm);
            systems_ := systems_ sm |}.

(** Body of the loop of [entity_destroyed], at the entry [type]. *)
Definition purge (entity : Entity) (type : TypeName) (system : System.t)
    (acc : t) : t :=
  {| signatures_ := signatures_ acc;
     systems_ := <[type := System.erase entity system]> (systems_ acc) |}.

Definition entity_destroyed (entity : Entity) : M t unit := fun sm =>
  Val tt (map_fold (purge entity) sm (systems_ sm)).

(** Body of the loop of [entity_signature_changed], at the entry [type]. *)
Definition notify (entity : Entity) (entity_signature : Signature)
    (type : TypeName) (system : System.t) (acc : t) : t :=
  let '(system_signature, sigs) :=
    subscript Bitset.empty (signatures_ acc) type in
  {| signatures_ := sigs;
     systems_ :=
       <[type := if Bitset.covers entity_signature system_signature
                 then System.insert entity system
                 else System.erase entity system]> (systems_ acc) |}.

Definition entity_signature_changed (entity : Entity)
    (entity_signature : Signature) : M t unit := fun sm =>
  Val tt (map_fold (notify entity entity_signature) sm (systems_ sm)).
End SystemManager.

(** ** Coordinator *)

Module Coordinator.
Section Facade.
Context {T : Type} `{!Component T}.

Record t : Type := mk {
  component_manager_ : ComponentManager.t T;
  entity_manager_ : EntityManager.t;
  system_manager_ : SystemManager.t
}.

Definition init : t :=
  {| component_manager_ := ComponentManager.new;
     entity_manager_ := EntityManager.new;
     system_manager_ := SystemManager.new |}.

Definition component_manager {A} : M (ComponentManager.t T) A -> M t A :=
  zoom component_manager_
       (fun cm c => {| component_manager_ := cm;
                       entity_manager_ := entity_manager_ c;
                       system_manager_ := system_manager_ c |}).

Definition entity_manager {A} : M EntityManager.t A -> M t A :=
  zoom entity_manager_
       (fun em c => {| component_manager_ := component_manager_ c;
                       entity_manager_ := em;
                       system_manager_ := system_manager_ c |}).

Definition system_manager {A} : M SystemManager.t A -> M t A :=
  zoom system_manager_
       (fun sm c => {| component_manager_ := component_manager_ c;
                       entity_manager_ := entity_manager_ c;
                       system_manager_ := sm |}).

Definition create_entity : M t Entity :=
  entity_manager EntityManager.create_entity.

Definition destroy_entity (entity : Entity) : M t unit :=
  entity_manager (EntityManager.destroy_entity entity) ;;
  component_manager (ComponentManager.entity_destroyed entity) ;;
  system_manager (SystemManager.entity_destroyed entity).

Definition register_component (type_name : TypeName) : M t unit :=
  component_manager (ComponentManager.register_component type_name).

Definition add_component (type_name : TypeName) (entity : Entity)
    (component : T) : M t unit :=
  component_manager
    (ComponentManager.add_component type_name entity component) ;;
  signature <~ entity_manager (EntityManager.get_signature entity) ;;
  ty <~ component_manager
          (ComponentManager.get_component_type type_name) ;;
  signature <~ Bitset.set signature ty true ;;
  entity_manager (EntityManager.set_signature entity signature) ;;
  system_manager
    (SystemManager.entity_signature_changed entity signature).

Definition remove_component (type_name : TypeName) (entity : Entity)
    : M t unit :=
  component_manager
    (ComponentManager.remove_component type_name entity) ;;
  signature <~ entity_manager (EntityManager.get_signature entity) ;;
  ty <~ component_manager
          (ComponentManager.get_component_type type_name) ;;
  signature <~ Bitset.set signature ty false ;;
  entity_manager (EntityManager.set_signature entity signature) ;;
  system_manager
    (SystemManager.entity_signature_changed entity signature).

Definition get_component (type_name : TypeName) (entity : Entity)
    : M t T :=
  component_manager (ComponentManager.get_component type_name entity).

Definition get_component_type (type_name : TypeName)
    : M t ComponentType :=
  component_manager (ComponentManager.get_component_type type_name).

Definition register_system (type_name : TypeName) : M t System.t :=
  system_manager (SystemManager.register_system type_name).

Definition set_system_signature (type_name : TypeName)
    (signature : Signature) : M t unit :=
  system_manager (SystemManager.set_signature type_name signature).
End Facade.
Arguments t T : clear implicits.
End Coordinator.

(** * Vocabulary of the properties *)

(** ** Reading the state *)

(** The signature a system is matched against: [signatures_[type]]. *)
Definition required (sm : SystemManager.t) (type : TypeName) : Signature :=
  default Bitset.empty (SystemManager.signatures_ sm !! type).

(** The signature stored for an entity: [signatures_[entity]]. *)
Definition signature_of (em : EntityManager.t) (entity : Entity) : Signature :=
  slot Bitset.empty (EntityManager.signatures_ em) entity.

(** The component type of a type name: [component_types_[type_name]]. *)
Definition type_of {T : Type} (cm : ComponentManager.t T)
    (type_name : TypeName) : ComponentType :=
  default 0 (ComponentManager.component_types_ cm !! type_name).

(** A call reports an error when it throws: the source has no other way
    to hand an error to its caller. *)
Definition reports_error {S A} (o : outcome S A) : Prop :=
  ∃ x s, o = Throw x s.

(** ** What the calls leave behind *)

(** [b] with bit [pos] written to [val]. *)
Definition with_bit (b pos : N) (val : bool) : N :=
  if val then N.lor b (N.shiftl 1 pos) else N.ldiff b (N.shiftl 1 pos).

(** What [entity_signature_changed] does to one system. *)
Definition rematch (entity : Entity)
    (entity_signature system_signature : Signature) (system : System.t)
    : System.t :=
  if Bitset.covers entity_signature system_signature
  then System.insert entity system
  else System.erase entity system.

(** The common tail of [Coordinator::add_component] ([val] true) and
    [Coordinator::remove_component] ([val] false): the entity's signature is
    read, bit [get_component_type<T>()] is written, the signature stored and
    the systems told. *)
Definition resign {T : Type} `{!Component T} (type_name : TypeName)
    (entity : Entity) (val : bool) : M (Coordinator.t T) unit :=
  signature <~ Coordinator.entity_manager
                 (EntityManager.get_signature entity) ;;
  ty <~ Coordinator.component_manager
          (ComponentManager.get_component_type type_name) ;;
  signature <~ Bitset.set signature ty val ;;
  Coordinator.entity_manager
    (EntityManager.set_signature entity signature) ;;
  Coordinator.system_manager
    (SystemManager.entity_signature_changed entity signature).

(** [get_component_type] leaves the manager with the type name entered. *)
Definition types_entered {T : Type} (type_name : TypeName)
    (cm : ComponentManager.t T) : ComponentManager.t T :=
  {| ComponentManager.component_types_ :=
       (subscript 0 (ComponentManager.component_types_ cm) type_name).2;
     ComponentManager.component_arrays_ :=
       ComponentManager.component_arrays_ cm;
     ComponentManager.next_component_type :=
       ComponentManager.next_component_type cm |}.

(** The entity manager with one signature stored. *)
Definition signature_stored (entity : Entity) (signature : Signature)
    (em : EntityManager.t) : EntityManager.t :=
  {| EntityManager.available_entities_ := EntityManager.available_entities_ em;
     EntityManager.signatures_ :=
       <[entity := signature]> (EntityManager.signatures_ em);
     EntityManager.living_entity_count_ :=
       EntityManager.living_entity_count_ em |}.

(** The system manager after every system has been told of a signature. *)
Definition systems_told (entity : Entity) (signature : Signature)
    (sm : SystemManager.t) : SystemManager.t :=
  map_fold (SystemManager.notify entity signature) sm
    (SystemManager.systems_ sm).

(** The array left by a [remove_data] that finds the entity at slot [i],
    with [last] the last packed slot and [eL] the entity stored there. *)
Definition swapped_out {T : Type} `{!Component T} (e : Entity) (i last : N)
    (eL : Entity) (a : ComponentArray.t T) : ComponentArray.t T :=
  {| ComponentArray.component_array_ :=
       <[i := slot value_init (ComponentArray.component_array_ a) last]>
         (ComponentArray.component_array_ a);
     ComponentArray.entity_to_index_map_ :=
       delete e (<[eL := i]> (ComponentArray.entity_to_index_map_ a));
     ComponentArray.index_to_entity_map_ :=
       delete last (<[i := eL]> (ComponentArray.index_to_entity_map_ a));
     ComponentArray.size_ := last |}.

(** The array left by [ComponentArray::entity_destroyed], when it returns. *)
Definition purged {T : Type} `{!Component T} (entity : Entity)
    (a : ComponentArray.t T) : option (ComponentArray.t T) :=
  state_after (ComponentArray.entity_destroyed entity a).

(** ** The packed-array invariant *)

(** The two index maps of a [ComponentArray] are inverse to each other and
    cover exactly the slots below [size_]. *)
Record dense {T : Type} (a : ComponentArray.t T) : Prop := mk_dense {
  dense_size : ComponentArray.size_ a <= MAX_ENTITIES;
  dense_index : ∀ e i,
    ComponentArray.entity_to_index_map_ a !! e = Some i ->
    ComponentArray.index_to_entity_map_ a !! i = Some e;
  dense_entity : ∀ i e,
    ComponentArray.index_to_entity_map_ a !! i = Some e ->
    ComponentArray.entity_to_index_map_ a !! e = Some i ∧
    i < ComponentArray.size_ a;
  dense_packed : ∀ i,
    i < ComponentArray.size_ a ->
    is_Some (ComponentArray.index_to_entity_map_ a !! i)
}.

(** The invariant, as a check that evaluates. *)
Definition dense_check {T : Type} (a : ComponentArray.t T) : bool :=
  bool_decide
    (ComponentArray.size_ a <= MAX_ENTITIES ∧
     map_Forall
       (λ e i, ComponentArray.index_to_entity_map_ a !! i = Some e)
       (ComponentArray.entity_to_index_map_ a) ∧
     map_Forall
       (λ i e, ComponentArray.entity_to_index_map_ a !! e = Some i ∧
               i < ComponentArray.size_ a)
       (ComponentArray.index_to_entity_map_ a) ∧
     Forall
       (λ n, is_Some (ComponentArray.index_to_entity_map_ a !! N.of_nat n))
       (seq 0 (N.to_nat (ComponentArray.size_ a)))).

(** Every array of the manager is dense. *)
Definition all_dense {T : Type} (cm : ComponentManager.t T) : Prop :=
  ∀ name a, ComponentManager.component_arrays_ cm !! name = Some a -> dense a.

Definition all_dense_check {T : Type} (cm : ComponentManager.t T) : bool :=
  bool_decide
    (map_Forall (λ _ a, dense_check a = true)
       (ComponentManager.component_arrays_ cm)).

(** ** Sequences of calls on the entity pool *)

(** [n] successive [create_entity] calls, the ids in the order returned. *)
Fixpoint create_many (n : nat) : M EntityManager.t (list Entity) :=
  match n with
  | O => ret []
  | S n' =>
      id <~ EntityManager.create_entity ;;
      ids <~ create_many n' ;;
      ret (id :: ids)
  end.

Inductive pool_call : Type :=
| Create
| Destroy (entity : Entity).

(** The list without the first occurrence of [e]. *)
Fixpoint remove_first (e : Entity) (l : list Entity) : list Entity :=
  match l with
  | [] => []
  | x :: l' => if x =? e then l' else x :: remove_first e l'
  end.

(** The calls made in order.  [live] are the ids the caller holds: those
    returned by [create_entity] and not passed to [destroy_entity] since,
    an id held twice being listed twice. *)
Fixpoint play (ks : list pool_call) (live : list Entity)
    : M EntityManager.t (list Entity) :=
  match ks with
  | [] => ret live
  | Create :: ks' =>
      id <~ EntityManager.create_entity ;;
      play ks' (id :: live)
  | Destroy e :: ks' =>
      EntityManager.destroy_entity e ;;
      play ks' (remove_first e live)
  end.

(** The caller's side of the contract: [create_entity] only while fewer
    than MAX_ENTITIES entities live, [destroy_entity] only on an id held.
    Nothing is asked of what follows a call that does not return. *)
Fixpoint respects (ks : list pool_call) (live : list Entity)
    (em : EntityManager.t) : bool :=
  match ks with
  | [] => true
  | Create :: ks' =>
      (EntityManager.living_entity_count_ em <? MAX_ENTITIES)
      && match EntityManager.create_entity em with
         | Val id em' => respects ks' (id :: live) em'
         | _ => true
         end
  | Destroy e :: ks' =>
      bool_decide (e ∈ live)
      && match EntityManager.destroy_entity e em with
         | Val _ em' => respects ks' (remove_first e live) em'
         | _ => true
         end
  end.

(** The pool and the ids held together are the ids the constructor made. *)
Definition pool_inv (em : EntityManager.t) (live : list Entity) : Prop :=
  live ++ EntityManager.available_entities_ em
    ≡ₚ EntityManager.available_entities_ EntityManager.new ∧
  EntityManager.living_entity_count_ em = N.of_nat (length live).

(** ** Sequences of calls on the system manager *)

Inductive system_call : Type :=
| RegisterSystem (type_name : TypeName)
| SetSignature (type_name : TypeName) (signature : Signature)
| EntityDestroyed (entity : Entity)
| EntitySignatureChanged (entity : Entity) (entity_signature : Signature).

Definition system_perform (k : system_call) : M SystemManager.t unit :=
  match k with
  | RegisterSystem type_name =>
      SystemManager.register_system type_name ;; ret tt
  | SetSignature type_name signature =>
      SystemManager.set_signature type_name signature
  | EntityDestroyed entity => SystemManager.entity_destroyed entity
  | EntitySignatureChanged entity entity_signature =>
      SystemManager.entity_signature_changed entity entity_signature
  end.

(** The calls made in order. *)
Fixpoint system_run (ks : list system_call) : M SystemManager.t unit :=
  match ks with
  | [] => ret tt
  | k :: ks' => system_perform k ;; system_run ks'
  end.

(** No call of the sequence is [set_signature] for [type_name]. *)
Definition never_set (type_name : TypeName) (ks : list system_call)
    : bool :=
  forallb
    (λ k, match k with
          | SetSignature n _ => negb (bool_decide (n = type_name))
          | _ => true
          end)
    ks.

(** ** Sequences of calls on the coordinator *)

Inductive call (T : Type) : Type :=
| CreateEntity
| DestroyEntity (entity : Entity)
| RegisterComponent (type_name : TypeName)
| AddComponent (type_name : TypeName) (entity : Entity) (component : T)
| RemoveComponent (type_name : TypeName) (entity : Entity)
| GetComponent (type_name : TypeName) (entity : Entity).
Arguments CreateEntity {T}.
Arguments DestroyEntity {T} entity.
Arguments RegisterComponent {T} type_name.
Arguments AddComponent {T} type_name entity component.
Arguments RemoveComponent {T} type_name entity.
Arguments GetComponent {T} type_name entity.

Definition perform {T : Type} `{!Component T} (k : call T)
    : M (Coordinator.t T) unit :=
  match k with
  | CreateEntity => Coordinator.create_entity ;; ret tt
  | DestroyEntity e => Coordinator.destroy_entity e
  | RegisterComponent name => Coordinator.register_component name
  | AddComponent name e v => Coordinator.add_component name e v
  | RemoveComponent name e => Coordinator.remove_component name e
  | GetComponent name e => Coordinator.get_component name e ;; ret tt
  end.

(** The state the caller observes after the calls, made in order.  A call
    that throws leaves its state behind and the caller goes on from it;
    nothing is observed after a call without a defined result. *)
Fixpoint observe {T : Type} `{!Component T} (ks : list (call T))
    (c : Coordinator.t T) : option (Coordinator.t T) :=
  match ks with
  | [] => Some c
  | k :: ks' =>
      match state_after (perform k c) with
      | Some c' => observe ks' c'
      | None => None
      end
  end.

(** Every system's set holds exactly the entities whose stored signature
    covers the system's. *)
Definition in_sync {T : Type} (c : Coordinator.t T) : Prop :=
  ∀ name system,
    SystemManager.systems_ (Coordinator.system_manager_ c) !! name
      = Some system ->
    ∀ e, e ∈ System.entities_ system
         ↔ Bitset.covers (signature_of (Coordinator.entity_manager_ c) e)
             (required (Coordinator.system_manager_ c) name) = true.

(** No registered system is matched against the empty signature. *)
Definition demanding {T : Type} (c : Coordinator.t T) : Prop :=
  ∀ name system,
    SystemManager.systems_ (Coordinator.system_manager_ c) !! name
      = Some system ->
    required (Coordinator.system_manager_ c) name ≠ Bitset.empty.

(** The coordinator as the setup leaves it: no entity has a signature bit
    yet, and every registered system has an empty set and a stored
    signature, which is non-empty when [nonempty] asks for it. *)
Definition set_up {T : Type} (nonempty : bool) (c : Coordinator.t T)
    : Prop :=
  map_Forall (λ _ signature, signature = Bitset.empty)
    (EntityManager.signatures_ (Coordinator.entity_manager_ c)) ∧
  map_Forall
    (λ name system,
       System.entities_ system = ∅ ∧
       is_Some (SystemManager.signatures_ (Coordinator.system_manager_ c)
                  !! name) ∧
       (nonempty = true ->
        required (Coordinator.system_manager_ c) name ≠ Bitset.empty))
    (SystemManager.systems_ (Coordinator.system_manager_ c)).

(** The system [name] as its setup leaves it: registered, with an empty
    set and the non-empty [signature] stored for it, while no entity has
    a signature bit yet.  Nothing is asked of the other systems. *)
Definition set_up_for {T : Type} (name : TypeName) (signature : Signature)
    (c : Coordinator.t T) : Prop :=
  map_Forall (λ _ s, s = Bitset.empty)
    (EntityManager.signatures_ (Coordinator.entity_manager_ c)) ∧
  (∃ system,
     SystemManager.systems_ (Coordinator.system_manager_ c) !! name
       = Some system ∧
     System.entities_ system = ∅) ∧
  SystemManager.signatures_ (Coordinator.system_manager_ c) !! name
    = Some signature ∧
  signature ≠ Bitset.empty.

(** The system [name] is matched against [signature], and its set holds
    exactly the entities whose stored signature covers it. *)
Definition in_sync_with {T : Type} (name : TypeName) (signature : Signature)
    (c : Coordinator.t T) : Prop :=
  SystemManager.signatures_ (Coordinator.system_manager_ c) !! name
    = Some signature ∧
  ∃ system,
    SystemManager.systems_ (Coordinator.system_manager_ c) !! name
      = Some system ∧
    ∀ e, e ∈ System.entities_ system
         ↔ Bitset.covers (signature_of (Coordinator.entity_manager_ c) e)
             signature = true.

(** ** Concrete scenarios *)

(** A component type for the concrete scenarios: one number. *)
#[global] Instance Sample : Component N := 0.

(** The state a program ends in; the start state if it does not end. *)
Definition final {S A} (program : M S A) (s : S) : S :=
  default s (state_after (program s)).

(** One system, [Physics], whose signature is set once. *)
Definition physics_setup : M SystemManager.t unit :=
  SystemManager.register_system "Physics" ;;
  SystemManager.set_signature "Physics" 7.
Definition physics_manager : SystemManager.t :=
  final physics_setup SystemManager.new.

(** One system, [Render], whose signature is never set. *)
Definition render_setup : M SystemManager.t System.t :=
  SystemManager.register_system "Render".
Definition render_manager : SystemManager.t :=
  final render_setup SystemManager.new.

(** One component type, [Gravity], and one entity. *)
Definition gravity_setup : M (Coordinator.t N) Entity :=
  Coordinator.register_component "Gravity" ;;
  Coordinator.create_entity.
Definition gravity_world : Coordinator.t N :=
  final gravity_setup Coordinator.init.

(** Entity 0 holds a [Gravity] component. *)
Definition falling_setup : M (Coordinator.t N) unit :=
  gravity_setup ;;
  Coordinator.add_component "Gravity" 0 42.
Definition falling_world : Coordinator.t N :=
  final falling_setup Coordinator.init.


(** Two component types and the two systems of the program, each with its
    signature set before any entity exists. *)
Definition pixel_setup : M (Coordinator.t N) unit :=
  Coordinator.register_component "Gravity" ;;
  Coordinator.register_component "Pixel" ;;
  Coordinator.register_system "Physics" ;;
  Coordinator.set_system_signature "Physics" 1 ;;
  Coordinator.register_system "Render" ;;
  Coordinator.set_system_signature "Render" 2.
Definition pixel_world : Coordinator.t N :=
  final pixel_setup Coordinator.init.

(** [pixel_world] where entity 0 holds a [Gravity] component and belongs
    to [Physics]. *)
Definition two_system_setup : M (Coordinator.t N) unit :=
  pixel_setup ;;
  Coordinator.create_entity ;;
  Coordinator.add_component "Gravity" 0 42.
Definition two_system_world : Coordinator.t N :=
  final two_system_setup Coordinator.init.

(** One component type and one system, [All], whose signature is set to
    the empty bitset. *)
Definition all_setup : M (Coordinator.t N) unit :=
  Coordinator.register_component "Gravity" ;;
  Coordinator.register_system "All" ;;
  Coordinator.set_system_signature "All" Bitset.empty.
Definition all_world : Coordinator.t N :=
  final all_setup Coordinator.init.

(** [pixel_world] with two entities: both hold a [Gravity] component,
    entity 1 a [Pixel] as well. *)
Definition pair_setup : M (Coordinator.t N) unit :=
  pixel_setup ;;
  Coordinator.create_entity ;;
  Coordinator.create_entity ;;
  Coordinator.add_component "Gravity" 0 42 ;;
  Coordinator.add_component "Gravity" 1 43 ;;
  Coordinator.add_component "Pixel" 1 7.
Definition pair_world : Coordinator.t N :=
  final pair_setup Coordinator.init.

(** The [Gravity] array of [pair_world]. *)
Definition pair_array : ComponentArray.t N :=
  default ComponentArray.new
    (ComponentManager.component_arrays_
       (Coordinator.component_manager_ pair_world) !! "Gravity").

(** Two component types and two systems: [Physics], whose signature is
    set before any entity exists, and [All], whose signature is never
    set. *)
Definition mixed_setup : M (Coordinator.t N) unit :=
  Coordinator.register_component "Gravity" ;;
  Coordinator.register_component "Pixel" ;;
  Coordinator.register_system "Physics" ;;
  Coordinator.set_system_signature "Physics" 1 ;;
  Coordinator.register_system "All" ;;
  ret tt.
Definition mixed_world : Coordinator.t N :=
  final mixed_setup Coordinator.init.

(** An array holding data for the entities 7, 3 and 9, in this order. *)
Definition three_setup : M (ComponentArray.t N) unit :=
  ComponentArray.insert_data 7 10 ;;
  ComponentArray.insert_data 3 20 ;;
  ComponentArray.insert_data 9 30.
Definition three_array : ComponentArray.t N :=
  final three_setup ComponentArray.new.

(** ** Registration sequences *)

(** [register_component] called for each name in turn. *)
Fixpoint register_all {T : Type} `{!Component T} (names : list TypeName)
    : M (ComponentManager.t T) unit :=
  match names with
  | [] => ret tt
  | name :: rest =>
      ComponentManager.register_component name ;;
      register_all rest
  end.

(** The position of the first occurrence of [name] in [names]. *)
Fixpoint first_index (name : TypeName) (names : list TypeName)
    : option nat :=
  match names with
  | [] => None
  | x :: rest =>
      if decide (x = name) then Some O else S <$> first_index name rest
  end.

(** A coordinator where [Gravity] was registered 32 times over and
    [Pixel] once after that, and one entity exists. *)
Definition crowded_setup : M (Coordinator.t N) Entity :=
  Coordinator.component_manager
    (register_all (replicate 32 "Gravity" ++ ["Pixel"])) ;;
  Coordinator.create_entity.
Definition crowded_world : Coordinator.t N :=
  final crowded_setup Coordinator.init.

(** ** Signatures and storage *)

(** The entity has an entry in the array of the type. *)
Definition holds {T : Type} (name : TypeName) (e : Entity)
    (c : Coordinator.t T) : bool :=
  match ComponentManager.component_arrays_ (Coordinator.component_manager_ c)
          !! name with
  | Some a =>
      bool_decide (is_Some (ComponentArray.entity_to_index_map_ a !! e))
  | None => false
  end.

(** The caller's side of the contract for one call: a component type is
    registered only while the next type id fits the signature, a
    component is added only to a registered type and an entity that does
    not hold it, and removed or read only where the entity holds it. *)
Definition well_used {T : Type} (k : call T) (c : Coordinator.t T) : bool :=
  match k with
  | CreateEntity => true
  | DestroyEntity _ => true
  | RegisterComponent _ =>
      ComponentManager.next_component_type (Coordinator.component_manager_ c)
      <? MAX_COMPONENTS
  | AddComponent name e _ =>
      bool_decide
        (is_Some (ComponentManager.component_arrays_
                    (Coordinator.component_manager_ c) !! name))
      && negb (holds name e c)
  | RemoveComponent name e => holds name e c
  | GetComponent name e => holds name e c
  end.

(** The contract along a sequence of calls.  Nothing is asked of what
    follows a call that does not hand control back. *)
Fixpoint well_used_all {T : Type} `{!Component T} (ks : list (call T))
    (c : Coordinator.t T) : bool :=
  match ks with
  | [] => true
  | k :: ks' =>
      well_used k c
      && match state_after (perform k c) with
         | Some c' => well_used_all ks' c'
         | None => true
         end
  end.

(** Signatures and storage agree: the arrays are dense, every registered
    type has an id of its own that fits the signature, and an entity has
    an entry in a type's array exactly when the type's bit is set in its
    signature. *)
Record tagged {T : Type} (c : Coordinator.t T) : Prop := mk_tagged {
  tagged_dense : all_dense (Coordinator.component_manager_ c);
  tagged_typed : ∀ name,
    is_Some (ComponentManager.component_arrays_
               (Coordinator.component_manager_ c) !! name) ->
    ∃ ty,
      ComponentManager.component_types_ (Coordinator.component_manager_ c)
        !! name = Some ty ∧
      ty < MAX_COMPONENTS;
  tagged_below : ∀ name ty,
    ComponentManager.component_types_ (Coordinator.component_manager_ c)
      !! name = Some ty ->
    ty < ComponentManager.next_component_type
           (Coordinator.component_manager_ c) ∧
    is_Some (ComponentManager.component_arrays_
               (Coordinator.component_manager_ c) !! name);
  tagged_distinct : ∀ n1 n2 ty,
    ComponentManager.component_types_ (Coordinator.component_manager_ c)
      !! n1 = Some ty ->
    ComponentManager.component_types_ (Coordinator.component_manager_ c)
      !! n2 = Some ty ->
    n1 = n2;
  tagged_bits : ∀ name a e,
    ComponentManager.component_arrays_ (Coordinator.component_manager_ c)
      !! name = Some a ->
    is_Some (ComponentArray.entity_to_index_map_ a !! e)
    ↔ Bitset.test (signature_of (Coordinator.entity_manager_ c) e)
        (type_of (Coordinator.component_manager_ c) name) = true;
  tagged_owned : ∀ e ty,
    Bitset.test (signature_of (Coordinator.entity_manager_ c) e) ty = true ->
    ∃ name,
      ComponentManager.component_types_ (Coordinator.component_manager_ c)
        !! name = Some ty
}.

(** ** main: setup and population *)

(** The calls of [main] up to the loop: the four component types, the two
    systems, and the two signatures built from the component types. *)
Definition main_setup {T : Type} `{!Component T} : M (Coordinator.t T) unit :=
  Coordinator.register_component "Gravity" ;;
  Coordinator.register_component "RigidBody" ;;
  Coordinator.register_component "Transform" ;;
  Coordinator.register_component "Pixel" ;;
  Coordinator.register_system "PhysicsSystem" ;;
  Coordinator.register_system "RenderSystem" ;;
  (g <~ Coordinator.get_component_type "Gravity" ;;
   signature <~ Bitset.set Bitset.empty g true ;;
   r <~ Coordinator.get_component_type "RigidBody" ;;
   signature <~ Bitset.set signature r true ;;
   t <~ Coordinator.get_component_type "Transform" ;;
   signature <~ Bitset.set signature t true ;;
   Coordinator.set_system_signature "PhysicsSystem" signature) ;;
  (t <~ Coordinator.get_component_type "Transform" ;;
   signature <~ Bitset.set Bitset.empty t true ;;
   p <~ Coordinator.get_component_type "Pixel" ;;
   signature <~ Bitset.set signature p true ;;
   Coordinator.set_system_signature "RenderSystem" signature).

(** The four components drawn at random for one entity. *)
Record components (T : Type) : Type := mk_components {
  gravity : T;
  rigid_body : T;
  transform : T;
  pixel : T
}.
Arguments mk_components {T} gravity rigid_body transform pixel.
Arguments gravity {T} c.
Arguments rigid_body {T} c.
Arguments transform {T} c.
Arguments pixel {T} c.

(** The body of the loop of [main], for the components drawn. *)
Definition spawn {T : Type} `{!Component T} (d : components T)
    : M (Coordinator.t T) Entity :=
  entity <~ Coordinator.create_entity ;;
  Coordinator.add_component "Gravity" entity (gravity d) ;;
  Coordinator.add_component "RigidBody" entity (rigid_body d) ;;
  Coordinator.add_component "Transform" entity (transform d) ;;
  Coordinator.add_component "Pixel" entity (pixel d) ;;
  ret entity.

(** The loop of [main] over [entities], one draw per iteration; the
    entities in the order stored. *)
Fixpoint populate {T : Type} `{!Component T} (ds : list (components T))
    : M (Coordinator.t T) (list Entity) :=
  match ds with
  | [] => ret []
  | d :: ds' =>
      entity <~ spawn d ;;
      entities <~ populate ds' ;;
      ret (entity :: entities)
  end.

(** The component a draw holds for a type name. *)
Definition drawn {T : Type} `{!Component T} (name : TypeName)
    (d : components T) : T :=
  if decide (name = "Gravity") then gravity d
  else if decide (name = "RigidBody") then rigid_body d
  else if decide (name = "Transform") then transform d
  else if decide (name = "Pixel") then pixel d
  else value_init.

(** The component types of [main] with the ids [main_setup] gives them. *)
Definition kinds : list (TypeName * ComponentType) :=
  [("Gravity", 0); ("RigidBody", 1); ("Transform", 2); ("Pixel", 3)].

(** An array filled by the loop: entity [i] sits at slot [i] with the
    [i]-th value of [l], and no other entity has an entry. *)
Record filled {T : Type} (l : list T) (a : ComponentArray.t T) : Prop :=
  mk_filled {
  filled_size : ComponentArray.size_ a = N.of_nat (length l);
  filled_entry : ∀ i v,
    l !! i = Some v ->
    ComponentArray.entity_to_index_map_ a !! N.of_nat i
      = Some (N.of_nat i) ∧
    ComponentArray.component_array_ a !! N.of_nat i = Some v;
  filled_rest : ∀ e,
    N.of_nat (length l) <= e ->
    ComponentArray.entity_to_index_map_ a !! e = None
}.

(** The coordinator inside the loop of [main]: the systems in step with
    the signatures [sigs], the two signatures of the setup, the free
    queue [q], and each of the four arrays filled with its column. *)
Record layout {T : Type} (cols : TypeName -> list T)
    (sigs : Entity -> Signature) (q : list Entity) (c : Coordinator.t T)
    : Prop := mk_layout {
  layout_sync : demanding c ∧ in_sync c;
  layout_physics :
    required (Coordinator.system_manager_ c) "PhysicsSystem" = 7 ∧
    is_Some (SystemManager.systems_ (Coordinator.system_manager_ c)
               !! "PhysicsSystem");
  layout_render :
    required (Coordinator.system_manager_ c) "RenderSystem" = 12 ∧
    is_Some (SystemManager.systems_ (Coordinator.system_manager_ c)
               !! "RenderSystem");
  layout_pool :
    EntityManager.available_entities_ (Coordinator.entity_manager_ c) = q;
  layout_kinds : ∀ name ty,
    (name, ty) ∈ kinds ->
    ComponentManager.component_types_ (Coordinator.component_manager_ c)
      !! name = Some ty ∧
    ∃ a,
      ComponentManager.component_arrays_ (Coordinator.component_manager_ c)
        !! name = Some a ∧
      filled (cols name) a;
  layout_sigs : ∀ e,
    signature_of (Coordinator.entity_manager_ c) e = sigs e
}.

(** The columns after [v] is appended to the column of [name]. *)
Definition grown {T : Type} (cols : TypeName -> list T) (name : TypeName)
    (v : T) : TypeName -> list T :=
  λ n, if decide (n = name) then cols n ++ [v] else cols n.

(** The signatures after bit [ty] of [entity] is set. *)
Definition marked (sigs : Entity -> Signature) (entity : Entity)
    (ty : ComponentType) : Entity -> Signature :=
  λ e, if decide (e = entity) then with_bit (sigs entity) ty true else sigs e.

(** The coordinator after the loop of [main] has run for the draws [ds]:
    entity [i] holds the components of the [i]-th draw, its signature has
    the four bits, and the queue has lost its first [length ds] ids. *)
Definition populated {T : Type} `{!Component T} (ds : list (components T))
    (c : Coordinator.t T) : Prop :=
  layout (λ name, drawn name <$> ds)
    (λ e, if e <? N.of_nat (length ds) then 15 else 0)
    (drop (length ds)
       (EntityManager.available_entities_ EntityManager.new))
    c.

(** * Properties *)

(** ** The scenarios run *)

Lemma physics_manager_reached :
  physics_setup SystemManager.new = Val tt physics_manager.
Proof. vm_compute. reflexivity. Qed.

Lemma render_manager_reached :
  render_setup SystemManager.new = Val System.new render_manager.
Proof. vm_compute. reflexivity. Qed.

Lemma gravity_world_reached :
  gravity_setup Coordinator.init = Val 0 gravity_world.
Proof. vm_compute. reflexivity. Qed.

Lemma falling_world_reached :
  falling_setup Coordinator.init = Val tt falling_world ∧
  Coordinator.add_component "Gravity" 0 42 gravity_world
    = Val tt falling_world.
Proof. split; vm_compute; reflexivity. Qed.

Lemma pixel_world_reached :
  pixel_setup Coordinator.init = Val tt pixel_world.
Proof. vm_compute. reflexivity. Qed.

Lemma two_system_world_reached :
  two_system_setup Coordinator.init = Val tt two_system_world ∧
  ∃ physics render,
    SystemManager.systems_ (Coordinator.system_manager_ two_system_world)
      !! "Physics" = Some physics ∧
    SystemManager.systems_ (Coordinator.system_manager_ two_system_world)
      !! "Render" = Some render ∧
    System.entities_ physics = {[0]} ∧
    System.entities_ render = ∅.
Proof.
  split; [vm_compute; reflexivity|].
  do 2 eexists. split; [vm_compute; reflexivity|].
  split; [vm_compute; reflexivity|]. split; vm_compute; reflexivity.
Qed.

Lemma pair_world_reached :
  pair_setup Coordinator.init = Val tt pair_world.
Proof. vm_compute. reflexivity. Qed.

Lemma mixed_world_reached :
  mixed_setup Coordinator.init = Val tt mixed_world.
Proof. vm_compute. reflexivity. Qed.

Lemma all_world_reached :
  all_setup Coordinator.init = Val tt all_world.
Proof. vm_compute. reflexivity. Qed.

(** ** Containers *)

Lemma subscript_fst `{Countable K} {V} (d : V) (m : gmap K V) k :
  (subscript d m k).1 = default d (m !! k).
Proof. unfold subscript. by destruct (m !! k). Qed.

Lemma subscript_snd_lookup `{Countable K} {V} (d : V) (m : gmap K V) k j :
  (subscript d m k).2 !! j =
  match m !! j with
  | Some v => Some v
  | None => if decide (k = j) then Some d else None
  end.
Proof.
  unfold subscript. destruct (m !! k) eqn:E; simpl.
  - destruct (m !! j) eqn:Ej; [done|]. case_decide; congruence.
  - rewrite lookup_insert. case_decide; subst; [by rewrite E|].
    by destruct (m !! j).
Qed.

Lemma subscript_present `{Countable K} {V} (d : V) (m : gmap K V) k v :
  m !! k = Some v -> subscript d m k = (v, m).
Proof. unfold subscript. by intros ->. Qed.

Lemma emplace_present `{Countable K} {V} (k : K) (v w : V) (m : gmap K V) :
  m !! k = Some w -> emplace k v m = m.
Proof. unfold emplace. by intros ->. Qed.

(** ** SystemManager: the two loops, entry by entry *)

Lemma notify_fold e esig (b : SystemManager.t) (m : gmap TypeName System.t) :
  let r := map_fold (SystemManager.notify e esig) b m in
  (∀ k, SystemManager.systems_ r !! k =
        match m !! k with
        | Some s => Some (rematch e esig (required b k) s)
        | None => SystemManager.systems_ b !! k
        end) ∧
  (∀ k, SystemManager.signatures_ r !! k =
        match SystemManager.signatures_ b !! k with
        | Some x => Some x
        | None => if m !! k is Some _ then Some Bitset.empty else None
        end).
Proof.
  cbv zeta.
  apply (map_fold_weak_ind (fun r (m : gmap TypeName System.t) =>
    (∀ k, SystemManager.systems_ r !! k =
        match m !! k with
        | Some s => Some (rematch e esig (required b k) s)
        | None => SystemManager.systems_ b !! k
        end) ∧
    (∀ k, SystemManager.signatures_ r !! k =
        match SystemManager.signatures_ b !! k with
        | Some x => Some x
        | None => if m !! k is Some _ then Some Bitset.empty else None
        end))).
  - split; intros k; rewrite ?lookup_empty; [done|]. by destruct (_ !! k).
  - intros i x m' r Hi [IH1 IH2]. unfold SystemManager.notify.
    pose proof (subscript_fst Bitset.empty (SystemManager.signatures_ r) i)
      as Hf.
    pose proof (subscript_snd_lookup Bitset.empty
                  (SystemManager.signatures_ r) i) as Hs.
    destruct (subscript _ _ i) as [ss sigs]; simpl in *. split; intros k.
    + rewrite !lookup_insert. case_decide as Hk; [rewrite <- Hk|].
      * f_equal. unfold rematch, required. rewrite Hf, IH2, Hi.
        by destruct (SystemManager.signatures_ b !! i).
      * apply IH1.
    + rewrite Hs, IH2, lookup_insert.
      destruct (SystemManager.signatures_ b !! k); [done|].
      case_decide as Hk; [rewrite <- Hk; by rewrite Hi|].
      by destruct (m' !! k).
Qed.

Lemma entity_signature_changed_spec e esig sm :
  ∃ sm', SystemManager.entity_signature_changed e esig sm = Val tt sm' ∧
    (∀ k, SystemManager.systems_ sm' !! k =
          rematch e esig (required sm k) <$> SystemManager.systems_ sm !! k) ∧
    (∀ k, required sm' k = required sm k) ∧
    (∀ k, SystemManager.signatures_ sm' !! k =
          match SystemManager.signatures_ sm !! k with
          | Some x => Some x
          | None => if SystemManager.systems_ sm !! k is Some _
                    then Some Bitset.empty else None
          end).
Proof.
  eexists. split; [reflexivity|].
  destruct (notify_fold e esig sm (SystemManager.systems_ sm)) as [H1 H2].
  split; [|split]; intros k.
  - rewrite H1. by destruct (_ !! k).
  - unfold required. rewrite H2.
    destruct (SystemManager.signatures_ sm !! k); [done|].
    by destruct (SystemManager.systems_ sm !! k).
  - apply H2.
Qed.

Lemma purge_fold e (b : SystemManager.t) (m : gmap TypeName System.t) :
  let r := map_fold (SystemManager.purge e) b m in
  SystemManager.signatures_ r = SystemManager.signatures_ b ∧
  ∀ k, SystemManager.systems_ r !! k =
       match m !! k with
       | Some s => Some (System.erase e s)
       | None => SystemManager.systems_ b !! k
       end.
Proof.
  cbv zeta.
  apply (map_fold_weak_ind (fun r (m : gmap TypeName System.t) =>
    SystemManager.signatures_ r = SystemManager.signatures_ b ∧
    ∀ k, SystemManager.systems_ r !! k =
         match m !! k with
         | Some s => Some (System.erase e s)
         | None => SystemManager.systems_ b !! k
         end)).
  - split; [done|]. intros k. by rewrite lookup_empty.
  - intros i x m' r Hi [IH1 IH2]. split; [done|]. intros k. simpl.
    rewrite !lookup_insert. case_decide; [done|]. apply IH2.
Qed.

Lemma system_entity_destroyed_spec e sm :
  ∃ sm', SystemManager.entity_destroyed e sm = Val tt sm' ∧
    SystemManager.signatures_ sm' = SystemManager.signatures_ sm ∧
    ∀ k, SystemManager.systems_ sm' !! k =
         System.erase e <$> SystemManager.systems_ sm !! k.
Proof.
  eexists. split; [reflexivity|].
  destruct (purge_fold e sm (SystemManager.systems_ sm)) as [H1 H2].
  split; [done|]. intros k. rewrite H2. by destruct (_ !! k).
Qed.

(** ** set_signature and the default signature *)

(** C9: once a signature [sig1] is stored for a system type, a later
    [set_signature] with [sig2] returns leaving the manager as it was, the
    stored signature still [sig1], and [entity_signature_changed] goes on
    matching the system against [sig1]. *)
Theorem set_signature_twice_ignored (type_name : TypeName)
    (sig1 sig2 : Signature) (sm : SystemManager.t) :
  SystemManager.signatures_ sm !! type_name = Some sig1 ->
  SystemManager.set_signature type_name sig2 sm = Val tt sm ∧
  ∀ sm', SystemManager.set_signature type_name sig2 sm = Val tt sm' ->
    SystemManager.signatures_ sm' !! type_name = Some sig1 ∧
    ∀ entity entity_signature system,
      SystemManager.systems_ sm' !! type_name = Some system ->
      ∃ sm'',
        SystemManager.entity_signature_changed entity entity_signature sm'
          = Val tt sm'' ∧
        SystemManager.systems_ sm'' !! type_name
          = Some (rematch entity entity_signature sig1 system) ∧
        SystemManager.signatures_ sm'' !! type_name = Some sig1.
Proof.
  intros Hsig.
  assert (Hset : SystemManager.set_signature type_name sig2 sm = Val tt sm).
  { unfold SystemManager.set_signature.
    rewrite (emplace_present _ _ _ _ Hsig). by destruct sm. }
  split; [done|]. intros sm' Hsm'. rewrite Hset in Hsm'.
  injection Hsm' as <-. split; [done|].
  intros entity esig system Hsys.
  destruct (entity_signature_changed_spec entity esig sm)
    as (sm'' & Hrun & Hsystems & _ & Hsigs).
  exists sm''. split; [done|]. split.
  - rewrite Hsystems, Hsys. simpl. unfold required. by rewrite Hsig.
  - by rewrite Hsigs, Hsig.
Qed.

(** A call other than [set_signature] for the type returns and leaves the
    signature the type is matched against as it was. *)
Lemma system_perform_required (type_name : TypeName) (k : system_call)
    (sm : SystemManager.t) :
  never_set type_name [k] = true ->
  ∃ sm', system_perform k sm = Val tt sm' ∧
         required sm' type_name = required sm type_name.
Proof.
  intros Hk. destruct k as [n|n s|e|e s]; cbn [system_perform].
  - eexists. split; [reflexivity|]. done.
  - eexists. split; [reflexivity|]. unfold required. simpl.
    simpl in Hk. rewrite andb_true_r in Hk.
    apply negb_true_iff, bool_decide_eq_false in Hk.
    unfold emplace. destruct (SystemManager.signatures_ sm !! n); [done|].
    by rewrite lookup_insert_ne.
  - destruct (system_entity_destroyed_spec e sm) as (sm' & Hrun & Hsigs & _).
    exists sm'. split; [done|]. unfold required. by rewrite Hsigs.
  - destruct (entity_signature_changed_spec e s sm)
      as (sm' & Hrun & _ & Hreq & _).
    exists sm'. split; [done|]. apply Hreq.
Qed.

Lemma system_run_required (type_name : TypeName) (ks : list system_call) :
  ∀ sm,
    never_set type_name ks = true ->
    ∃ sm', system_run ks sm = Val tt sm' ∧
           required sm' type_name = required sm type_name.
Proof.
  induction ks as [|k ks IH]; intros sm Hks.
  - by exists sm.
  - simpl in Hks. apply andb_true_iff in Hks as [Hk Hks].
    destruct (system_perform_required type_name k sm) as (sm1 & H1 & Hr1).
    { simpl. by rewrite Hk. }
    destruct (IH sm1 Hks) as (sm2 & H2 & Hr2).
    exists sm2. split; [|congruence].
    cbn [system_run]. unfold bind. by rewrite H1.
Qed.

(** C10: a system whose signature has never been set stays matched
    against the empty bitset.  From a manager that stores no signature
    for the type, after any sequence of [register_system],
    [set_signature], [entity_destroyed] and [entity_signature_changed]
    calls none of which is a [set_signature] for that type, every call
    has returned and the type's required signature is the empty bitset,
    which every signature covers: if the system is registered,
    [entity_signature_changed] inserts the entity into its set, whatever
    the entity and its signature, and stores the empty bitset for the
    type. *)
Theorem unset_signature_matches_all (type_name : TypeName)
    (ks : list system_call) (sm0 : SystemManager.t) :
  SystemManager.signatures_ sm0 !! type_name = None ->
  never_set type_name ks = true ->
  ∃ sm,
    system_run ks sm0 = Val tt sm ∧
    required sm type_name = Bitset.empty ∧
    ∀ (system : System.t) (entity : Entity) (entity_signature : Signature),
      SystemManager.systems_ sm !! type_name = Some system ->
      Bitset.covers entity_signature Bitset.empty = true ∧
      ∃ sm',
        SystemManager.entity_signature_changed entity entity_signature sm
          = Val tt sm' ∧
        SystemManager.systems_ sm' !! type_name
          = Some (System.insert entity system) ∧
        (∀ system', SystemManager.systems_ sm' !! type_name = Some system' ->
                    entity ∈ System.entities_ system') ∧
        SystemManager.signatures_ sm' !! type_name = Some Bitset.empty.
Proof.
  intros Hsig Hks.
  destruct (system_run_required type_name ks sm0 Hks) as (sm & Hrun & Hreq0).
  assert (Hreq : required sm type_name = Bitset.empty).
  { rewrite Hreq0. unfold required. by rewrite Hsig. }
  exists sm. split; [done|]. split; [done|].
  intros system entity entity_signature Hsys.
  assert (Hcov : Bitset.covers entity_signature Bitset.empty = true).
  { unfold Bitset.covers, Bitset.empty. rewrite N.land_0_r. done. }
  split; [done|].
  destruct (entity_signature_changed_spec entity entity_signature sm)
    as (sm' & Hch & Hsystems & _ & Hsigs).
  exists sm'. split; [done|].
  assert (Hnew : SystemManager.systems_ sm' !! type_name
                 = Some (System.insert entity system)).
  { rewrite Hsystems, Hsys. simpl. unfold rematch. by rewrite Hreq, Hcov. }
  split; [done|]. split.
  - intros system' Hs'. rewrite Hnew in Hs'. injection Hs' as <-.
    simpl. rewrite elem_of_union, elem_of_singleton. by left.
  - rewrite Hsigs, Hsys. unfold required in Hreq.
    destruct (SystemManager.signatures_ sm !! type_name) as [x|]; [|done].
    simpl in Hreq. by rewrite Hreq.
Qed.

Lemma set_signature_twice_ignored_witness :
  SystemManager.signatures_ physics_manager !! "Physics" = Some 7 ∧
  SystemManager.set_signature "Physics" 3 physics_manager
    = Val tt physics_manager.
Proof.
  assert (H : SystemManager.signatures_ physics_manager !! "Physics" = Some 7)
    by (vm_compute; reflexivity).
  split; [exact H|].
  exact (proj1 (set_signature_twice_ignored "Physics" 7 3 physics_manager H)).
Defined.

Lemma unset_signature_matches_all_witness :
  SystemManager.signatures_ render_manager !! "Render" = None ∧
  never_set "Render"
    [EntitySignatureChanged 4 0; RegisterSystem "Physics";
     SetSignature "Physics" 7; EntitySignatureChanged 5 1;
     EntityDestroyed 4] = true ∧
  ∃ sm,
    system_run
      [EntitySignatureChanged 4 0; RegisterSystem "Physics";
       SetSignature "Physics" 7; EntitySignatureChanged 5 1;
       EntityDestroyed 4] render_manager = Val tt sm ∧
    SystemManager.signatures_ sm !! "Render" = Some Bitset.empty ∧
    required sm "Render" = Bitset.empty.
Proof.
  assert (H1 : SystemManager.signatures_ render_manager !! "Render" = None)
    by (vm_compute; reflexivity).
  assert (H2 : never_set "Render"
                 [EntitySignatureChanged 4 0; RegisterSystem "Physics";
                  SetSignature "Physics" 7; EntitySignatureChanged 5 1;
                  EntityDestroyed 4] = true) by (vm_compute; reflexivity).
  split; [exact H1|]. split; [exact H2|].
  destruct (unset_signature_matches_all "Render" _ render_manager H1 H2)
    as (sm & Hrun & Hreq & _).
  exists sm. split; [exact Hrun|]. split; [|exact Hreq].
  vm_compute in Hrun. injection Hrun as <-. vm_compute. reflexivity.
Defined.

(** ** EntityManager: capacity and double destruction *)

(** C5, as stated, fails: after MAX_ENTITIES creations on a fresh manager
    the next [create_entity] reports no error. *)
Lemma create_entity_exhausted_counterexample :
  ¬ reports_error
      ((create_many (N.to_nat MAX_ENTITIES) ;;
        EntityManager.create_entity) EntityManager.new).
Proof.
  assert (E : (create_many (N.to_nat MAX_ENTITIES) ;;
               EntityManager.create_entity) EntityManager.new
              = Undefined EmptyQueue) by (vm_compute; reflexivity).
  intros (x & s & H). rewrite E in H. discriminate.
Qed.

(** C5, amended: MAX_ENTITIES creations on a fresh manager all return, with
    the ids 0 .. MAX_ENTITIES - 1 in order and no id twice; they leave the
    queue empty and the living count at MAX_ENTITIES; the next
    [create_entity], also through the coordinator, takes the front of an
    empty queue, which is undefined behaviour and not an error value. *)
Theorem create_entity_exhausted_undefined :
  ∃ ids em,
    create_many (N.to_nat MAX_ENTITIES) EntityManager.new = Val ids em ∧
    ids = EntityManager.available_entities_ EntityManager.new ∧
    ids = N.of_nat <$> seq 0 (N.to_nat MAX_ENTITIES) ∧
    NoDup ids ∧
    EntityManager.available_entities_ em = [] ∧
    EntityManager.living_entity_count_ em = MAX_ENTITIES ∧
    EntityManager.create_entity em = Undefined EmptyQueue ∧
    ∀ c : Coordinator.t N,
      Coordinator.entity_manager_ c = em ->
      Coordinator.create_entity c = Undefined EmptyQueue.
Proof.
  assert (Hseq : EntityManager.available_entities_ EntityManager.new
                 = N.of_nat <$> seq 0 (N.to_nat MAX_ENTITIES))
    by (vm_compute; reflexivity).
  assert (E : ∃ em, create_many (N.to_nat MAX_ENTITIES) EntityManager.new
                    = Val (EntityManager.available_entities_
                             EntityManager.new) em ∧
                    EntityManager.available_entities_ em = [] ∧
                    EntityManager.living_entity_count_ em = MAX_ENTITIES).
  { eexists. split; [vm_compute; reflexivity|]. split; reflexivity. }
  destruct E as (em & Hrun & Hq & Hn).
  exists (EntityManager.available_entities_ EntityManager.new), em.
  split; [exact Hrun|]. split; [reflexivity|]. split; [exact Hseq|]. split.
  { rewrite Hseq.
    apply NoDup_fmap_2; [intros ??; apply Nat2N.inj | apply NoDup_seq]. }
  split; [done|]. split; [done|].
  assert (Hc : EntityManager.create_entity em = Undefined EmptyQueue).
  { unfold EntityManager.create_entity. by rewrite Hq. }
  split; [done|]. intros c <-.
  unfold Coordinator.create_entity, Coordinator.entity_manager, zoom.
  by rewrite Hc.
Qed.

Lemma create_entity_exhausted_undefined_witness :
  ∃ em,
    EntityManager.available_entities_ em = [] ∧
    Coordinator.create_entity
      {| Coordinator.component_manager_ := ComponentManager.new (T := N);
         Coordinator.entity_manager_ := em;
         Coordinator.system_manager_ := SystemManager.new |}
    = Undefined EmptyQueue.
Proof.
  destruct create_entity_exhausted_undefined
    as (ids & em & _ & _ & _ & _ & Hq & _ & _ & Hc).
  exists em. split; [exact Hq|]. apply Hc. reflexivity.
Defined.

(** C6, as stated, fails: the second [destroy_entity] of entity 0 returns
    like the first; the id is then twice in the free queue and the living
    count has wrapped around.  Through the coordinator the second call
    returns as well. *)
Lemma destroy_entity_twice_counterexample :
  ∃ em1 em2 em3,
    EntityManager.create_entity EntityManager.new = Val 0 em1 ∧
    EntityManager.destroy_entity 0 em1 = Val tt em2 ∧
    EntityManager.destroy_entity 0 em2 = Val tt em3 ∧
    ¬ reports_error (EntityManager.destroy_entity 0 em2) ∧
    EntityManager.available_entities_ em3
      = tail (EntityManager.available_entities_ EntityManager.new)
        ++ [0; 0] ∧
    EntityManager.living_entity_count_ em3 = 2 ^ 32 - 1 ∧
    ∃ c1 c2,
      Coordinator.destroy_entity 0 two_system_world = Val tt c1 ∧
      Coordinator.destroy_entity 0 c1 = Val tt c2.
Proof.
  do 3 eexists. split; [reflexivity|]. split; [reflexivity|].
  split; [reflexivity|]. split.
  { intros (x & s & H). discriminate. }
  split; [vm_compute; reflexivity|]. split; [vm_compute; reflexivity|].
  do 2 eexists. split; vm_compute; reflexivity.
Qed.

(** C6, amended: a second [destroy_entity] of an id in range, with no
    [create_entity] in between, returns: the signature is reset again, the
    id is pushed onto the free queue a second time and the living count is
    decremented again, modulo 2^32. *)
Theorem destroy_entity_twice_returns (entity : Entity)
    (em : EntityManager.t) :
  entity < MAX_ENTITIES ->
  ∃ em1 em2,
    EntityManager.destroy_entity entity em = Val tt em1 ∧
    EntityManager.destroy_entity entity em1 = Val tt em2 ∧
    EntityManager.available_entities_ em2
      = EntityManager.available_entities_ em ++ [entity; entity] ∧
    EntityManager.signatures_ em2 !! entity = Some Bitset.empty ∧
    EntityManager.living_entity_count_ em2
      = decr 32 (decr 32 (EntityManager.living_entity_count_ em)).
Proof.
  intros Hlt. apply N.ltb_lt in Hlt.
  unfold EntityManager.destroy_entity. rewrite Hlt.
  do 2 eexists. split; [reflexivity|]. split; [reflexivity|]. simpl.
  split; [by rewrite <- app_assoc|]. split; [|done].
  by rewrite lookup_insert_eq.
Qed.

Lemma destroy_entity_twice_returns_witness :
  3 < MAX_ENTITIES ∧
  ∃ em1 em2,
    EntityManager.destroy_entity 3 EntityManager.new = Val tt em1 ∧
    EntityManager.destroy_entity 3 em1 = Val tt em2 ∧
    EntityManager.available_entities_ em2
      = EntityManager.available_entities_ EntityManager.new ++ [3; 3] ∧
    EntityManager.signatures_ em2 !! 3 = Some Bitset.empty ∧
    EntityManager.living_entity_count_ em2
      = decr 32 (decr 32 (EntityManager.living_entity_count_
                            EntityManager.new)).
Proof.
  assert (H : 3 < MAX_ENTITIES) by (unfold MAX_ENTITIES; lia).
  split; [exact H|].
  exact (destroy_entity_twice_returns 3 EntityManager.new H).
Defined.

(** ** ComponentArray *)

Section ArrayFacts.
Context {T : Type} `{!Component T}.
Implicit Types (a : ComponentArray.t T) (e : Entity) (v : T).

Lemma array_eta a :
  {| ComponentArray.component_array_ := ComponentArray.component_array_ a;
     ComponentArray.entity_to_index_map_ :=
       ComponentArray.entity_to_index_map_ a;
     ComponentArray.index_to_entity_map_ :=
       ComponentArray.index_to_entity_map_ a;
     ComponentArray.size_ := ComponentArray.size_ a |} = a.
Proof. by destruct a. Qed.

Lemma get_data_present e (i : N) a :
  ComponentArray.entity_to_index_map_ a !! e = Some i ->
  i < MAX_ENTITIES ->
  ComponentArray.get_data e a
  = Val (slot value_init (ComponentArray.component_array_ a) i) a.
Proof.
  intros He Hi. unfold ComponentArray.get_data.
  rewrite (subscript_present _ _ _ _ He).
  apply N.ltb_lt in Hi. rewrite Hi. by rewrite array_eta.
Qed.

Lemma insert_data_inv e v a a' :
  ComponentArray.insert_data e v a = Val tt a' ->
  ComponentArray.size_ a < MAX_ENTITIES ∧
  a' = {| ComponentArray.component_array_ :=
            <[ComponentArray.size_ a := v]>
              (ComponentArray.component_array_ a);
          ComponentArray.entity_to_index_map_ :=
            <[e := ComponentArray.size_ a]>
              (ComponentArray.entity_to_index_map_ a);
          ComponentArray.index_to_entity_map_ :=
            <[ComponentArray.size_ a := e]>
              (ComponentArray.index_to_entity_map_ a);
          ComponentArray.size_ := incr 64 (ComponentArray.size_ a) |}.
Proof.
  unfold ComponentArray.insert_data. destruct (_ <? _) eqn:E; [|done].
  intros [= <-]. by apply N.ltb_lt in E.
Qed.

Lemma insert_data_returns e v a :
  ComponentArray.size_ a < MAX_ENTITIES ->
  ∃ a', ComponentArray.insert_data e v a = Val tt a'.
Proof.
  intros Hlt. apply N.ltb_lt in Hlt. unfold ComponentArray.insert_data.
  rewrite Hlt. by eexists.
Qed.

Lemma insert_then_get e v a a' :
  ComponentArray.insert_data e v a = Val tt a' ->
  ComponentArray.get_data e a' = Val v a'.
Proof.
  intros H. apply insert_data_inv in H as [Hlt ->].
  erewrite get_data_present; [|by apply lookup_insert_eq|done].
  simpl. unfold slot. by rewrite lookup_insert_eq.
Qed.

(** C7, amended: a second insert for an entity that already has data at
    slot [i] reports nothing and returns whenever the array is not full:
    the value goes to the next free slot, the entity's index entry is
    re-pointed there, so [get_data] now yields the new value, and the size
    grows by one; the old slot keeps the old value and stays mapped to the
    entity. *)
Theorem insert_data_again_overrides e v (i : N) a :
  ComponentArray.entity_to_index_map_ a !! e = Some i ->
  ComponentArray.size_ a < MAX_ENTITIES ->
  ∃ a',
    ComponentArray.insert_data e v a = Val tt a' ∧
    ¬ reports_error (ComponentArray.insert_data e v a) ∧
    ComponentArray.get_data e a' = Val v a' ∧
    ComponentArray.entity_to_index_map_ a' !! e
      = Some (ComponentArray.size_ a) ∧
    ComponentArray.size_ a' = incr 64 (ComponentArray.size_ a) ∧
    (i ≠ ComponentArray.size_ a ->
     ComponentArray.component_array_ a' !! i
       = ComponentArray.component_array_ a !! i ∧
     ComponentArray.index_to_entity_map_ a' !! i
       = ComponentArray.index_to_entity_map_ a !! i).
Proof.
  intros He Hlt. destruct (insert_data_returns e v a Hlt) as [a' Hins].
  exists a'. split; [done|]. split.
  { rewrite Hins. intros (x & s & H). discriminate. }
  split; [by eapply insert_then_get|].
  apply insert_data_inv in Hins as [_ ->]. simpl.
  split; [by rewrite lookup_insert_eq|]. split; [done|].
  intros Hne. by rewrite !lookup_insert_ne.
Qed.
End ArrayFacts.

Lemma insert_data_again_overrides_witness :
  ∃ a1 : ComponentArray.t N,
    ComponentArray.insert_data 7 10 ComponentArray.new = Val tt a1 ∧
    ComponentArray.entity_to_index_map_ a1 !! 7 = Some 0 ∧
    ComponentArray.size_ a1 < MAX_ENTITIES ∧
    ∃ a2,
      ComponentArray.insert_data 7 20 a1 = Val tt a2 ∧
      ComponentArray.get_data 7 a2 = Val 20 a2.
Proof.
  eexists. split; [reflexivity|].
  match goal with |- ?A ∧ ?B ∧ _ =>
    assert (H1 : A) by (vm_compute; reflexivity);
    assert (H2 : B) by (vm_compute; reflexivity)
  end.
  split; [exact H1|]. split; [exact H2|].
  destruct (insert_data_again_overrides 7 20 0 _ H1 H2)
    as (a2 & Hins & _ & Hget & _).
  exists a2. split; [exact Hins | exact Hget].
Defined.

(** C7, as stated, fails: inserting twice for entity 7 reports no error,
    on the array and through the coordinator alike, and the entity's
    component then reads as the second value. *)
Lemma insert_data_twice_counterexample :
  (∃ a1 a2 : ComponentArray.t N,
     ComponentArray.insert_data 7 10 ComponentArray.new = Val tt a1 ∧
     ComponentArray.get_data 7 a1 = Val 10 a1 ∧
     ComponentArray.insert_data 7 20 a1 = Val tt a2 ∧
     ¬ reports_error (ComponentArray.insert_data 7 20 a1) ∧
     ComponentArray.get_data 7 a2 = Val 20 a2) ∧
  (∃ c1 c2 : Coordinator.t N,
     Coordinator.add_component "Gravity" 0 10 gravity_world = Val tt c1 ∧
     Coordinator.get_component "Gravity" 0 c1 = Val 10 c1 ∧
     Coordinator.add_component "Gravity" 0 20 c1 = Val tt c2 ∧
     ¬ reports_error (Coordinator.add_component "Gravity" 0 20 c1) ∧
     Coordinator.get_component "Gravity" 0 c2 = Val 20 c2).
Proof.
  split.
  - do 2 eexists. split; [reflexivity|]. split; [vm_compute; reflexivity|].
    split; [reflexivity|]. split; [|vm_compute; reflexivity].
    intros (x & s & H). discriminate.
  - do 2 eexists. split; [vm_compute; reflexivity|].
    split; [vm_compute; reflexivity|].
    split; [vm_compute; reflexivity|]. split; [|vm_compute; reflexivity].
    intros (x & s & H). vm_compute in H. discriminate.
Qed.

(** ** ComponentManager and Coordinator: add, then get *)

Section CoordinatorFacts.
Context {T : Type} `{!Component T}.
Implicit Types (a : ComponentArray.t T) (cm : ComponentManager.t T)
  (c : Coordinator.t T) (e : Entity) (v : T) (name : TypeName).

Lemma get_component_array_val {A} name (m : M (ComponentArray.t T) A)
    cm (x : A) cm' :
  ComponentManager.get_component_array name m cm = Val x cm' ->
  ∃ a a', ComponentManager.component_arrays_ cm !! name = Some a ∧
          m a = Val x a' ∧
          cm' = ComponentManager.set_arrays
                  (<[name := a']> (ComponentManager.component_arrays_ cm)) cm.
Proof.
  unfold ComponentManager.get_component_array, ComponentManager.on_array,
    zoom.
  destruct (_ !! name) as [a|]; [|done].
  destruct (m a) as [y a'| |] eqn:E; [|done..].
  intros [= <- <-]. by exists a, a'.
Qed.

Lemma get_component_array_run {A} name (m : M (ComponentArray.t T) A)
    cm a (x : A) a' :
  ComponentManager.component_arrays_ cm !! name = Some a ->
  m a = Val x a' ->
  ComponentManager.get_component_array name m cm
  = Val x (ComponentManager.set_arrays
             (<[name := a']> (ComponentManager.component_arrays_ cm)) cm).
Proof.
  intros Ha Hm.
  unfold ComponentManager.get_component_array, ComponentManager.on_array,
    zoom.
  by rewrite Ha, Hm.
Qed.

Lemma set_arrays_same name cm a :
  ComponentManager.component_arrays_ cm !! name = Some a ->
  ComponentManager.set_arrays
    (<[name := a]> (ComponentManager.component_arrays_ cm)) cm = cm.
Proof.
  intros Ha. unfold ComponentManager.set_arrays. rewrite (insert_id _ _ _ Ha).
  by destruct cm.
Qed.

Lemma add_component_unfold name e v :
  Coordinator.add_component name e v
  = (Coordinator.component_manager
       (ComponentManager.add_component name e v) ;;
     resign name e true).
Proof. reflexivity. Qed.

(** No call of [remove_component] hands control back. *)
Lemma remove_component_no_result name e c :
  Coordinator.remove_component (T := T) name e c = Undefined NoSuchMember.
Proof. reflexivity. Qed.

Lemma resign_eq name e (val : bool) c :
  resign name e val c =
  if e <? MAX_ENTITIES then
    let ty := type_of (Coordinator.component_manager_ c) name in
    let cm' := types_entered name (Coordinator.component_manager_ c) in
    if ty <? MAX_COMPONENTS then
      let signature :=
        with_bit (signature_of (Coordinator.entity_manager_ c) e) ty val in
      Val tt
        {| Coordinator.component_manager_ := cm';
           Coordinator.entity_manager_ :=
             signature_stored e signature (Coordinator.entity_manager_ c);
           Coordinator.system_manager_ :=
             systems_told e signature (Coordinator.system_manager_ c) |}
    else
      Throw OutOfRange
        {| Coordinator.component_manager_ := cm';
           Coordinator.entity_manager_ := Coordinator.entity_manager_ c;
           Coordinator.system_manager_ := Coordinator.system_manager_ c |}
  else Undefined OutOfBounds.
Proof.
  destruct c as [cm em sm].
  unfold resign, bind, Coordinator.entity_manager,
    Coordinator.component_manager, Coordinator.system_manager, zoom,
    EntityManager.get_signature, EntityManager.set_signature,
    ComponentManager.get_component_type, Bitset.set,
    SystemManager.entity_signature_changed, type_of, types_entered.
  simpl. destruct (e <? MAX_ENTITIES) eqn:He; [|done]. simpl.
  rewrite <- subscript_fst.
  destruct (subscript 0 _ name) as [ty types]. simpl.
  destruct (ty <? MAX_COMPONENTS); simpl; [|done].
  reflexivity.
Qed.
End CoordinatorFacts.

Section AddGet.
Context {T : Type} `{!Component T}.
Implicit Types (a : ComponentArray.t T) (cm : ComponentManager.t T)
  (c : Coordinator.t T) (e : Entity) (v : T) (name : TypeName).

Lemma component_manager_val {A} (m : M (ComponentManager.t T) A) c (x : A) c' :
  Coordinator.component_manager m c = Val x c' ->
  ∃ cm', m (Coordinator.component_manager_ c) = Val x cm' ∧
         c' = {| Coordinator.component_manager_ := cm';
                 Coordinator.entity_manager_ := Coordinator.entity_manager_ c;
                 Coordinator.system_manager_ := Coordinator.system_manager_ c |}.
Proof.
  unfold Coordinator.component_manager, zoom.
  destruct (m _) as [y cm'| |]; [|done..]. intros [= <- <-]. by exists cm'.
Qed.

Lemma types_entered_lookup name cm :
  ComponentManager.component_types_ (types_entered name cm) !! name
  = Some (type_of cm name).
Proof.
  unfold types_entered, type_of. simpl. rewrite subscript_snd_lookup.
  destruct (_ !! name); [done|]. by rewrite decide_True.
Qed.

Lemma get_component_type_entered name cm ty :
  ComponentManager.component_types_ cm !! name = Some ty ->
  ComponentManager.get_component_type name cm = Val ty cm.
Proof.
  intros Hty. unfold ComponentManager.get_component_type.
  rewrite (subscript_present _ _ _ _ Hty). by destruct cm.
Qed.

Lemma with_bit_test (b pos : N) (val : bool) :
  Bitset.test (with_bit b pos val) pos = val.
Proof.
  unfold Bitset.test, with_bit. rewrite N.shiftl_1_l. destruct val.
  - by rewrite N.lor_spec, N.pow2_bits_true, orb_true_r.
  - by rewrite N.ldiff_spec, N.pow2_bits_true, andb_false_r.
Qed.

Lemma with_bit_test_other (b pos i : N) (val : bool) :
  i ≠ pos -> Bitset.test (with_bit b pos val) i = Bitset.test b i.
Proof.
  intros Hne. unfold Bitset.test, with_bit. rewrite N.shiftl_1_l.
  destruct val.
  - rewrite N.lor_spec, N.pow2_bits_false by done. by rewrite orb_false_r.
  - rewrite N.ldiff_spec, N.pow2_bits_false by done. by rewrite andb_true_r.
Qed.

(** What a returning [add_component] has done. *)
Lemma add_component_val name e v c c' :
  Coordinator.add_component name e v c = Val tt c' ->
  ∃ a a',
    ComponentManager.component_arrays_ (Coordinator.component_manager_ c)
      !! name = Some a ∧
    ComponentArray.insert_data e v a = Val tt a' ∧
    e < MAX_ENTITIES ∧
    type_of (Coordinator.component_manager_ c) name < MAX_COMPONENTS ∧
    c' = {| Coordinator.component_manager_ :=
              types_entered name
                (ComponentManager.set_arrays
                   (<[name := a']>
                      (ComponentManager.component_arrays_
                         (Coordinator.component_manager_ c)))
                   (Coordinator.component_manager_ c));
            Coordinator.entity_manager_ :=
              signature_stored e
                (with_bit (signature_of (Coordinator.entity_manager_ c) e)
                   (type_of (Coordinator.component_manager_ c) name) true)
                (Coordinator.entity_manager_ c);
            Coordinator.system_manager_ :=
              systems_told e
                (with_bit (signature_of (Coordinator.entity_manager_ c) e)
                   (type_of (Coordinator.component_manager_ c) name) true)
                (Coordinator.system_manager_ c) |}.
Proof.
  rewrite add_component_unfold. unfold bind.
  destruct (Coordinator.component_manager _ c) as [[] c1| |] eqn:E; [|done..].
  apply component_manager_val in E as (cm' & Hadd & ->).
  apply get_component_array_val in Hadd as (a & a' & Ha & Hins & ->).
  rewrite resign_eq. simpl.
  destruct (e <? MAX_ENTITIES) eqn:He; [|done].
  change (type_of (ComponentManager.set_arrays _ ?cm) name)
    with (type_of cm name).
  destruct (_ <? MAX_COMPONENTS) eqn:Hty; [|done].
  intros [= <-]. exists a, a'.
  apply N.ltb_lt in He, Hty. done.
Qed.

(** [add_component] returns for a registered type whose array is not full
    and whose id fits the signature, and an entity id in range. *)
Lemma add_component_returns name e v c a :
  ComponentManager.component_arrays_ (Coordinator.component_manager_ c)
    !! name = Some a ->
  ComponentArray.size_ a < MAX_ENTITIES ->
  e < MAX_ENTITIES ->
  type_of (Coordinator.component_manager_ c) name < MAX_COMPONENTS ->
  ∃ c', Coordinator.add_component name e v c = Val tt c'.
Proof.
  intros Ha Hsz He Hty.
  destruct (insert_data_returns e v a Hsz) as [a' Hins].
  rewrite add_component_unfold. unfold bind.
  unfold Coordinator.component_manager at 1. unfold zoom.
  unfold ComponentManager.add_component.
  rewrite (get_component_array_run name _ _ a _ _ Ha Hins).
  rewrite resign_eq.
  cbn [Coordinator.component_manager_ Coordinator.entity_manager_
       Coordinator.system_manager_].
  change (type_of (ComponentManager.set_arrays _ ?cm) name)
    with (type_of cm name).
  apply N.ltb_lt in He, Hty. rewrite He, Hty. by eexists.
Qed.

(** C2: when [add_component<T>(e, v)] returns, [get_component<T>(e)]
    returns [v], leaving the coordinator as it is, and the bit of T's
    component type is set in the signature stored for [e]. *)
Theorem add_component_then_get name e v c c' :
  Coordinator.add_component name e v c = Val tt c' ->
  Coordinator.get_component name e c' = Val v c' ∧
  ∃ ty signature,
    Coordinator.get_component_type name c' = Val ty c' ∧
    EntityManager.get_signature e (Coordinator.entity_manager_ c')
      = Val signature (Coordinator.entity_manager_ c') ∧
    Bitset.test signature ty = true.
Proof.
  intros H.
  apply add_component_val in H as (a & a' & Ha & Hins & He & Hty & ->).
  split.
  - unfold Coordinator.get_component, Coordinator.component_manager, zoom,
      ComponentManager.get_component.
    cbn [Coordinator.component_manager_ Coordinator.entity_manager_
         Coordinator.system_manager_].
    match goal with
    | |- context [ComponentManager.get_component_array _ _ ?cm1] =>
        assert (Hlook : ComponentManager.component_arrays_ cm1 !! name
                        = Some a') by (simpl; apply lookup_insert_eq);
        rewrite (get_component_array_run name _ cm1 a' v a' Hlook
                   (insert_then_get e v a a' Hins))
    end.
    unfold ComponentManager.set_arrays, types_entered. simpl.
    by rewrite insert_insert_eq.
  - exists (type_of (Coordinator.component_manager_ c) name).
    eexists. split; [|split].
    + unfold Coordinator.get_component_type, Coordinator.component_manager,
        zoom.
      cbn [Coordinator.component_manager_ Coordinator.entity_manager_
           Coordinator.system_manager_].
      by rewrite (get_component_type_entered _ _ _
                    (types_entered_lookup name _)).
    + unfold EntityManager.get_signature. simpl.
      apply N.ltb_lt in He. rewrite He. reflexivity.
    + unfold slot. simpl. rewrite lookup_insert_eq.
      apply (with_bit_test _ _ true).
Qed.
End AddGet.

Lemma add_component_then_get_witness :
  ∃ c',
    Coordinator.add_component "Gravity" 0 42 gravity_world = Val tt c' ∧
    Coordinator.get_component "Gravity" 0 c' = Val 42 c'.
Proof.
  eexists.
  match goal with |- ?A ∧ _ =>
    assert (H : A) by (vm_compute; reflexivity)
  end.
  split; [exact H|].
  exact (proj1 (add_component_then_get "Gravity" 0 42 gravity_world _ H)).
Defined.

(** ** The packed-array invariant and swap-remove *)

Lemma decr_pred (w x : N) : 0 < x -> x < 2 ^ w -> decr w x = x - 1.
Proof.
  intros H0 Hw. unfold decr.
  replace (x + (2 ^ w - 1)) with (x - 1 + 1 * 2 ^ w) by lia.
  rewrite N.Div0.mod_add. apply N.mod_small. lia.
Qed.

Lemma incr_succ (w x : N) : x + 1 < 2 ^ w -> incr w x = x + 1.
Proof. intros H. unfold incr. by apply N.mod_small. Qed.

Lemma MAX_ENTITIES_small : MAX_ENTITIES + 1 < 2 ^ 32 ∧ MAX_ENTITIES + 1 < 2 ^ 64.
Proof. by vm_compute. Qed.

Section Dense.
Context {T : Type} `{!Component T}.
Implicit Types (a : ComponentArray.t T) (e : Entity) (v : T).

Lemma dense_check_sound a : dense_check a = true -> dense a.
Proof.
  unfold dense_check. intros H. apply bool_decide_eq_true in H.
  destruct H as (H1 & H2 & H3 & H4). split; [done|..].
  - intros e i He. by apply (H2 e i).
  - intros i e Hi. by apply (H3 i e).
  - intros i Hi. rewrite Forall_forall in H4.
    rewrite <- (N2Nat.id i). apply H4. apply elem_of_seq. lia.
Qed.

Lemma all_dense_check_sound (cm : ComponentManager.t T) :
  all_dense_check cm = true -> all_dense cm.
Proof.
  unfold all_dense_check. intros H. apply bool_decide_eq_true in H.
  intros name a Ha. apply dense_check_sound. by apply (H name a).
Qed.

Lemma dense_new : dense (ComponentArray.new (T := T)).
Proof.
  split; simpl.
  - unfold MAX_ENTITIES. lia.
  - intros e i. by rewrite lookup_empty.
  - intros i e. by rewrite lookup_empty.
  - intros i. lia.
Qed.

Lemma dense_index_lt a e i :
  dense a -> ComponentArray.entity_to_index_map_ a !! e = Some i ->
  i < ComponentArray.size_ a.
Proof.
  intros D He. apply (dense_index a D) in He.
  by apply (dense_entity a D) in He as [_ ?].
Qed.

(** [remove_data] on a dense array holding data for [e]. *)
Lemma remove_data_dense e i a :
  dense a ->
  ComponentArray.entity_to_index_map_ a !! e = Some i ->
  ∃ last eL,
    ComponentArray.size_ a = last + 1 ∧
    ComponentArray.index_to_entity_map_ a !! last = Some eL ∧
    ComponentArray.remove_data e a = Val tt (swapped_out e i last eL a).
Proof.
  intros D He. pose proof (dense_index_lt a e i D He) as Hi.
  pose proof (dense_size a D) as Hsz.
  pose proof MAX_ENTITIES_small as [_ H64].
  assert (Hlast : decr 64 (ComponentArray.size_ a)
                  = ComponentArray.size_ a - 1)
    by (apply decr_pred; lia).
  destruct (dense_packed a D (ComponentArray.size_ a - 1)) as [eL HeL];
    [lia|].
  exists (ComponentArray.size_ a - 1), eL.
  split; [lia|]. split; [done|].
  unfold ComponentArray.remove_data.
  rewrite (subscript_present _ _ _ _ He), Hlast.
  rewrite (subscript_present _ _ _ _ HeL).
  assert (H1 : (i <? MAX_ENTITIES) = true) by (apply N.ltb_lt; lia).
  assert (H2 : (ComponentArray.size_ a - 1 <? MAX_ENTITIES) = true)
    by (apply N.ltb_lt; lia).
  by rewrite H1, H2.
Qed.

Lemma swapped_out_dense e i last eL a :
  dense a ->
  ComponentArray.entity_to_index_map_ a !! e = Some i ->
  ComponentArray.size_ a = last + 1 ->
  ComponentArray.index_to_entity_map_ a !! last = Some eL ->
  dense (swapped_out e i last eL a).
Proof.
  intros D He Hsz HeL.
  pose proof (dense_index a D e i He) as Hie.
  pose proof (dense_entity a D last eL HeL) as [HeLi _].
  pose proof (dense_index_lt a e i D He) as Hi.
  split; simpl.
  - pose proof (dense_size a D). lia.
  - intros e' i'. rewrite lookup_delete. case_decide as Hee; [done|].
    rewrite lookup_insert. case_decide as HeL'.
    + intros [= <-]. subst e'.
      rewrite lookup_delete. case_decide as Hli.
      { subst i. congruence. }
      by rewrite lookup_insert_eq.
    + intros He'. pose proof (dense_index a D e' i' He') as Hi'.
      rewrite lookup_delete. case_decide as Hli; [congruence|].
      rewrite lookup_insert. case_decide; [congruence|done].
  - intros i' e'. rewrite lookup_delete. case_decide as Hli; [done|].
    rewrite lookup_insert. case_decide as Hii.
    + intros [= <-]. subst i'.
      rewrite lookup_delete. case_decide as Hee.
      { subst eL. congruence. }
      rewrite lookup_insert_eq. split; [done|lia].
    + intros Hi'. pose proof (dense_entity a D i' e' Hi') as [He' Hlt].
      rewrite lookup_delete. case_decide as Hee; [congruence|].
      rewrite lookup_insert. case_decide; [congruence|]. split; [done|lia].
  - intros i' Hi'. rewrite lookup_delete. case_decide as Hli; [lia|].
    rewrite lookup_insert. case_decide; [done|].
    apply (dense_packed a D). lia.
Qed.

Lemma swapped_out_gone e i last eL a :
  ComponentArray.entity_to_index_map_ (swapped_out e i last eL a) !! e = None.
Proof. simpl. apply lookup_delete_eq. Qed.

(** Swap-remove keeps the data of every other entity. *)
Lemma swapped_out_others e i last eL a e' i' :
  dense a ->
  ComponentArray.entity_to_index_map_ a !! e = Some i ->
  ComponentArray.index_to_entity_map_ a !! last = Some eL ->
  e' ≠ e ->
  ComponentArray.entity_to_index_map_ a !! e' = Some i' ->
  ∃ j,
    ComponentArray.entity_to_index_map_ (swapped_out e i last eL a) !! e'
      = Some j ∧
    slot value_init
      (ComponentArray.component_array_ (swapped_out e i last eL a)) j
    = slot value_init (ComponentArray.component_array_ a) i'.
Proof.
  intros D He HeL Hne He'.
  pose proof (dense_entity a D last eL HeL) as [HeLi _].
  simpl. rewrite lookup_delete_ne by done.
  destruct (decide (eL = e')) as [->|HneL].
  - exists i. rewrite lookup_insert_eq. split; [done|].
    unfold slot. rewrite lookup_insert_eq. simpl. congruence.
  - exists i'. rewrite lookup_insert_ne by done. split; [done|].
    unfold slot. rewrite lookup_insert_ne; [done|].
    intros ->. pose proof (dense_index a D e i' He).
    pose proof (dense_index a D e' i' He'). congruence.
Qed.

Lemma insert_data_dense e v a a' :
  dense a ->
  ComponentArray.entity_to_index_map_ a !! e = None ->
  ComponentArray.insert_data e v a = Val tt a' ->
  dense a'.
Proof.
  intros D He H. apply insert_data_inv in H as [Hlt ->].
  pose proof MAX_ENTITIES_small as [_ H64].
  assert (Hinc : incr 64 (ComponentArray.size_ a) = ComponentArray.size_ a + 1)
    by (apply incr_succ; lia).
  split; simpl; rewrite ?Hinc.
  - lia.
  - intros e' i'. rewrite lookup_insert. case_decide as Hee.
    + intros [= <-]. subst e'. by rewrite lookup_insert_eq.
    + intros He'. pose proof (dense_index_lt a e' i' D He').
      rewrite lookup_insert_ne by lia. by apply (dense_index a D).
  - intros i' e'. rewrite lookup_insert. case_decide as Hii.
    + intros [= <-]. subst i'. rewrite lookup_insert_eq. split; [done|lia].
    + intros Hi'. pose proof (dense_entity a D i' e' Hi') as [He' Hlt'].
      rewrite lookup_insert_ne by congruence. split; [done|lia].
  - intros i' Hi'. rewrite lookup_insert. case_decide; [done|].
    apply (dense_packed a D). lia.
Qed.
End Dense.

(** ** Removal from an array, then get *)

Section RemoveGet.
Context {T : Type} `{!Component T}.
Implicit Types (a : ComponentArray.t T) (cm : ComponentManager.t T)
  (c : Coordinator.t T) (e : Entity) (v : T) (name : TypeName).

Lemma coordinator_eta c :
  {| Coordinator.component_manager_ := Coordinator.component_manager_ c;
     Coordinator.entity_manager_ := Coordinator.entity_manager_ c;
     Coordinator.system_manager_ := Coordinator.system_manager_ c |} = c.
Proof. by destruct c. Qed.

Lemma get_component_present name e i c a :
  ComponentManager.component_arrays_ (Coordinator.component_manager_ c)
    !! name = Some a ->
  ComponentArray.entity_to_index_map_ a !! e = Some i ->
  i < MAX_ENTITIES ->
  Coordinator.get_component name e c
  = Val (slot value_init (ComponentArray.component_array_ a) i) c.
Proof.
  intros Ha He Hi.
  unfold Coordinator.get_component, Coordinator.component_manager, zoom,
    ComponentManager.get_component.
  rewrite (get_component_array_run name _ _ a _ a Ha
             (get_data_present e i a He Hi)).
  by rewrite (set_arrays_same name _ a Ha), coordinator_eta.
Qed.


End RemoveGet.



(** ** destroy_entity *)

Section Destroy.
Context {T : Type} `{!Component T}.
Implicit Types (a : ComponentArray.t T) (cm : ComponentManager.t T)
  (c : Coordinator.t T) (e : Entity) (name : TypeName).

Lemma array_entity_destroyed_no_throw e a x a' :
  ComponentArray.entity_destroyed e a ≠ Throw x a'.
Proof.
  unfold ComponentArray.entity_destroyed, ComponentArray.remove_data.
  destruct (_ !! e); [|done].
  destruct (subscript 0 _ e). destruct (_ && _); [|done].
  by destruct (subscript 0 _ _).
Qed.

Lemma array_entity_destroyed_absent e a :
  ComponentArray.entity_to_index_map_ a !! e = None ->
  ComponentArray.entity_destroyed e a = Val tt a.
Proof. unfold ComponentArray.entity_destroyed. by intros ->. Qed.

Lemma array_entity_destroyed_dense e a :
  dense a ->
  ∃ a', ComponentArray.entity_destroyed e a = Val tt a' ∧
        ComponentArray.entity_to_index_map_ a' !! e = None ∧
        dense a'.
Proof.
  intros D. unfold ComponentArray.entity_destroyed.
  destruct (_ !! e) as [i|] eqn:He; [|by exists a].
  destruct (remove_data_dense e i a D He) as (last & eL & Hsz & HeL & Hrm).
  exists (swapped_out e i last eL a). split; [done|].
  split; [apply swapped_out_gone|by apply swapped_out_dense].
Qed.

(** The loop of [ComponentManager::entity_destroyed] over a map [m] of
    arrays: it returns when every array's [entity_destroyed] does, with
    each visited array replaced by what its [entity_destroyed] leaves. *)
Lemma tell_fold e (m : gmap TypeName (ComponentArray.t T)) cm0 :
  match map_fold (ComponentManager.tell e) (ret tt) m cm0 with
  | Val _ cm' =>
      ComponentManager.component_types_ cm'
        = ComponentManager.component_types_ cm0 ∧
      ComponentManager.next_component_type cm'
        = ComponentManager.next_component_type cm0 ∧
      ∀ k, ComponentManager.component_arrays_ cm' !! k =
           match m !! k with
           | Some a => purged e a
           | None => ComponentManager.component_arrays_ cm0 !! k
           end
  | Throw _ _ => False
  | Undefined _ => ∃ k a, m !! k = Some a ∧ purged e a = None
  end.
Proof.
  apply (map_fold_weak_ind
    (fun (r : M (ComponentManager.t T) unit)
         (m : gmap TypeName (ComponentArray.t T)) =>
       match r cm0 with
       | Val _ cm' =>
           ComponentManager.component_types_ cm'
             = ComponentManager.component_types_ cm0 ∧
           ComponentManager.next_component_type cm'
             = ComponentManager.next_component_type cm0 ∧
           ∀ k, ComponentManager.component_arrays_ cm' !! k =
                match m !! k with
                | Some a => purged e a
                | None => ComponentManager.component_arrays_ cm0 !! k
                end
       | Throw _ _ => False
       | Undefined _ => ∃ k a, m !! k = Some a ∧ purged e a = None
       end)).
  - simpl. split; [done|]. split; [done|]. intros k. by rewrite lookup_empty.
  - intros i x m' r Hi IH.
    unfold ComponentManager.tell, bind, ComponentManager.on_array, zoom.
    destruct (r cm0) as [[] cm1| |] eqn:Hr; [|done|].
    + destruct IH as (Ht & Hn & Harr).
      pose proof (array_entity_destroyed_no_throw e x) as Hnt.
      destruct (ComponentArray.entity_destroyed e x) as [[] x'|y x'|u] eqn:Hx.
      * simpl. split; [done|]. split; [done|]. intros k.
        rewrite !lookup_insert. case_decide; [|apply Harr].
        unfold purged. by rewrite Hx.
      * by destruct (Hnt y x').
      * exists i, x. rewrite lookup_insert_eq. split; [done|].
        unfold purged. by rewrite Hx.
    + destruct IH as (k & a & Hk & Ha). exists k, a. split; [|done].
      rewrite lookup_insert_ne; [done|]. intros ->. congruence.
Qed.

Lemma manager_entity_destroyed_dense e cm :
  all_dense cm ->
  ∃ cm', ComponentManager.entity_destroyed e cm = Val tt cm' ∧
    ComponentManager.component_types_ cm'
      = ComponentManager.component_types_ cm ∧
    (∀ k, ComponentManager.component_arrays_ cm' !! k =
          ComponentManager.component_arrays_ cm !! k ≫= purged e) ∧
    all_dense cm'.
Proof.
  intros AD. unfold ComponentManager.entity_destroyed.
  pose proof (tell_fold e (ComponentManager.component_arrays_ cm) cm) as H.
  destruct (map_fold (ComponentManager.tell e) (ret tt)
              (ComponentManager.component_arrays_ cm) cm)
    as [[] cm'| |]; [|done|].
  - destruct H as (Ht & _ & Harr). exists cm'. split; [done|].
    split; [done|].
    assert (Harr' : ∀ k, ComponentManager.component_arrays_ cm' !! k =
              ComponentManager.component_arrays_ cm !! k ≫= purged e).
    { intros k. rewrite Harr. by destruct (_ !! k). }
    split; [done|]. intros k a' Ha'. rewrite Harr' in Ha'.
    destruct (ComponentManager.component_arrays_ cm !! k) as [a|] eqn:Ha;
      [|done].
    simpl in Ha'. destruct (array_entity_destroyed_dense e a (AD k a Ha))
      as (a'' & Hrun & _ & D'').
    unfold purged in Ha'. rewrite Hrun in Ha'. simpl in Ha'. congruence.
  - destruct H as (k & a & Hk & Ha).
    destruct (array_entity_destroyed_dense e a (AD k a Hk)) as (a' & Hrun & _).
    unfold purged in Ha. by rewrite Hrun in Ha.
Qed.
End Destroy.

Section DestroyEntity.
Context {T : Type} `{!Component T}.
Implicit Types (a : ComponentArray.t T) (cm : ComponentManager.t T)
  (c : Coordinator.t T) (e : Entity) (name : TypeName).

(** What [ComponentArray::entity_destroyed] leaves of an array that is
    dense if it holds data for the entity. *)
Lemma purged_holding e a :
  (is_Some (ComponentArray.entity_to_index_map_ a !! e) -> dense a) ->
  match ComponentArray.entity_to_index_map_ a !! e with
  | None => purged e a = Some a
  | Some i =>
      ∃ last eL,
        ComponentArray.size_ a = last + 1 ∧
        ComponentArray.index_to_entity_map_ a !! last = Some eL ∧
        purged e a = Some (swapped_out e i last eL a)
  end.
Proof.
  intros HD. unfold purged, ComponentArray.entity_destroyed.
  destruct (ComponentArray.entity_to_index_map_ a !! e) as [i|] eqn:He;
    [|done].
  destruct (remove_data_dense e i a (HD ltac:(by eexists)) He)
    as (last & eL & Hsz & HeL & Hrm).
  exists last, eL. by rewrite Hrm.
Qed.

(** The loop of [ComponentManager::entity_destroyed] returns when the
    arrays holding data for the entity are dense. *)
Lemma manager_entity_destroyed_holding e cm :
  (∀ name a,
     ComponentManager.component_arrays_ cm !! name = Some a ->
     is_Some (ComponentArray.entity_to_index_map_ a !! e) -> dense a) ->
  ∃ cm', ComponentManager.entity_destroyed e cm = Val tt cm' ∧
    ∀ k, ComponentManager.component_arrays_ cm' !! k =
         ComponentManager.component_arrays_ cm !! k ≫= purged e.
Proof.
  intros HD. unfold ComponentManager.entity_destroyed.
  pose proof (tell_fold e (ComponentManager.component_arrays_ cm) cm) as H.
  destruct (map_fold (ComponentManager.tell e) (ret tt)
              (ComponentManager.component_arrays_ cm) cm)
    as [[] cm'| |]; [|done|].
  - destruct H as (_ & _ & Harr). exists cm'. split; [done|].
    intros k. rewrite Harr. by destruct (_ !! k).
  - destruct H as (k & a & Hk & Ha).
    pose proof (purged_holding e a (HD k a Hk)) as Hp.
    destruct (ComponentArray.entity_to_index_map_ a !! e);
      [destruct Hp as (? & ? & _ & _ & Hp)|]; congruence.
Qed.

(** C4, amended: for an entity id in range, when every component array
    that holds data for the entity is dense, [destroy_entity] returns.
    Afterwards the entity's signature is empty and every other signature
    is as before, the id is at the back of the free queue, no registered
    system's set contains it, and the registered arrays are the same
    ones.  An array that held data for the entity is the array its
    swap-remove leaves: one entry smaller, dense, without the entity in
    either index map, every other entity reading from it the data it
    read before.  An array that held no data for it is exactly as
    before.  If all arrays were dense, they all still are. *)
Theorem destroy_entity_cleans e c :
  e < MAX_ENTITIES ->
  (∀ name a,
     ComponentManager.component_arrays_ (Coordinator.component_manager_ c)
       !! name = Some a ->
     is_Some (ComponentArray.entity_to_index_map_ a !! e) -> dense a) ->
  ∃ c',
    Coordinator.destroy_entity e c = Val tt c' ∧
    signature_of (Coordinator.entity_manager_ c') e = Bitset.empty ∧
    (∀ e', e' ≠ e ->
       signature_of (Coordinator.entity_manager_ c') e'
       = signature_of (Coordinator.entity_manager_ c) e') ∧
    EntityManager.available_entities_ (Coordinator.entity_manager_ c')
      = EntityManager.available_entities_ (Coordinator.entity_manager_ c)
        ++ [e] ∧
    (∀ name,
       SystemManager.systems_ (Coordinator.system_manager_ c') !! name
       = System.erase e
           <$> SystemManager.systems_ (Coordinator.system_manager_ c)
               !! name) ∧
    (∀ name system,
       SystemManager.systems_ (Coordinator.system_manager_ c') !! name
         = Some system ->
       e ∉ System.entities_ system) ∧
    (∀ name,
       is_Some (ComponentManager.component_arrays_
                  (Coordinator.component_manager_ c') !! name)
       ↔ is_Some (ComponentManager.component_arrays_
                    (Coordinator.component_manager_ c) !! name)) ∧
    (∀ name a',
       ComponentManager.component_arrays_
         (Coordinator.component_manager_ c') !! name = Some a' ->
       ComponentArray.entity_to_index_map_ a' !! e = None) ∧
    (∀ name a i,
       ComponentManager.component_arrays_
         (Coordinator.component_manager_ c) !! name = Some a ->
       ComponentArray.entity_to_index_map_ a !! e = Some i ->
       ∃ last eL,
         ComponentArray.size_ a = last + 1 ∧
         ComponentArray.index_to_entity_map_ a !! last = Some eL ∧
         ComponentManager.component_arrays_
           (Coordinator.component_manager_ c') !! name
           = Some (swapped_out e i last eL a) ∧
         dense (swapped_out e i last eL a) ∧
         (∀ j, ComponentArray.index_to_entity_map_
                 (swapped_out e i last eL a) !! j ≠ Some e) ∧
         ∀ e' i',
           e' ≠ e ->
           ComponentArray.entity_to_index_map_ a !! e' = Some i' ->
           Coordinator.get_component name e' c'
           = Val (slot value_init (ComponentArray.component_array_ a) i')
               c') ∧
    (∀ name a,
       ComponentManager.component_arrays_
         (Coordinator.component_manager_ c) !! name = Some a ->
       ComponentArray.entity_to_index_map_ a !! e = None ->
       ComponentManager.component_arrays_
         (Coordinator.component_manager_ c') !! name = Some a) ∧
    (all_dense (Coordinator.component_manager_ c) ->
     all_dense (Coordinator.component_manager_ c')).
Proof.
  intros Hlt HD. destruct c as [cm em sm]. simpl in HD.
  destruct (manager_entity_destroyed_holding e cm HD) as (cm' & Hcm & Harr).
  destruct (system_entity_destroyed_spec e sm) as (sm' & Hsm & _ & Hsys).
  eexists. split.
  { unfold Coordinator.destroy_entity, bind, Coordinator.entity_manager,
      Coordinator.component_manager, Coordinator.system_manager, zoom,
      EntityManager.destroy_entity.
    simpl. apply N.ltb_lt in Hlt. rewrite Hlt. simpl.
    rewrite Hcm. simpl. unfold SystemManager.entity_destroyed in Hsm.
    injection Hsm as Hsm. rewrite Hsm. reflexivity. }
  cbn [Coordinator.component_manager_ Coordinator.entity_manager_
       Coordinator.system_manager_ EntityManager.available_entities_].
  assert (Hheld : ∀ name a i,
            ComponentManager.component_arrays_ cm !! name = Some a ->
            ComponentArray.entity_to_index_map_ a !! e = Some i ->
            ∃ last eL,
              ComponentArray.size_ a = last + 1 ∧
              ComponentArray.index_to_entity_map_ a !! last = Some eL ∧
              ComponentManager.component_arrays_ cm' !! name
                = Some (swapped_out e i last eL a) ∧
              dense (swapped_out e i last eL a)).
  { intros name a i Ha He.
    pose proof (purged_holding e a (HD name a Ha)) as Hp.
    rewrite He in Hp. destruct Hp as (last & eL & Hsz & HeL & Hp).
    exists last, eL. split; [done|]. split; [done|].
    split; [by rewrite Harr, Ha|].
    apply swapped_out_dense; try done. apply (HD name a Ha). by eexists. }
  assert (Hkept : ∀ name a,
            ComponentManager.component_arrays_ cm !! name = Some a ->
            ComponentArray.entity_to_index_map_ a !! e = None ->
            ComponentManager.component_arrays_ cm' !! name = Some a).
  { intros name a Ha He.
    pose proof (purged_holding e a (HD name a Ha)) as Hp.
    rewrite He in Hp. by rewrite Harr, Ha. }
  split.
  { unfold signature_of, slot. simpl. by rewrite lookup_insert_eq. }
  split.
  { intros e' Hne. unfold signature_of, slot. simpl.
    by rewrite lookup_insert_ne. }
  split; [done|]. split; [exact Hsys|]. split.
  { intros name system. rewrite Hsys.
    destruct (SystemManager.systems_ sm !! name) as [s|]; [|done].
    simpl. intros Heq. injection Heq as <-. simpl.
    rewrite elem_of_difference, elem_of_singleton. tauto. }
  split.
  { intros name.
    destruct (ComponentManager.component_arrays_ cm !! name) as [a|] eqn:Ha.
    - destruct (ComponentArray.entity_to_index_map_ a !! e) as [i|] eqn:He.
      + destruct (Hheld name a i Ha He) as (last & eL & _ & _ & -> & _).
        split; eauto.
      + rewrite (Hkept name a Ha He). split; eauto.
    - rewrite Harr, Ha. simpl. split; intros [? ?]; done. }
  split.
  { intros name a' Ha'.
    destruct (ComponentManager.component_arrays_ cm !! name) as [a|] eqn:Ha.
    - destruct (ComponentArray.entity_to_index_map_ a !! e) as [i|] eqn:He.
      + destruct (Hheld name a i Ha He) as (last & eL & _ & _ & Hnew & _).
        rewrite Hnew in Ha'. injection Ha' as <-. apply swapped_out_gone.
      + rewrite (Hkept name a Ha He) in Ha'. by injection Ha' as <-.
    - by rewrite Harr, Ha in Ha'. }
  split.
  { intros name a i Ha He.
    destruct (Hheld name a i Ha He) as (last & eL & Hsz & HeL & Hnew & D').
    pose proof (HD name a Ha ltac:(by eexists)) as D.
    exists last, eL. split; [done|]. split; [done|]. split; [done|].
    split; [done|]. split.
    - intros j Hj. apply (dense_entity _ D') in Hj as [Hj _].
      by rewrite swapped_out_gone in Hj.
    - intros e' i' Hne He'.
      destruct (swapped_out_others e i last eL a e' i' D He HeL Hne He')
        as (j & Hj & Hslot).
      rewrite <- Hslot.
      apply get_component_present with (i := j); [exact Hnew|exact Hj|].
      pose proof (dense_index_lt _ e' j D' Hj).
      pose proof (dense_size _ D'). lia. }
  split; [exact Hkept|].
  intros AD name a'. rewrite Harr.
  destruct (ComponentManager.component_arrays_ cm !! name) as [a|] eqn:Ha;
    [|done].
  simpl. destruct (array_entity_destroyed_dense e a (AD name a Ha))
    as (a'' & Hrun & _ & D'').
  unfold purged. rewrite Hrun. simpl. by intros [= <-].
Qed.
End DestroyEntity.

Lemma destroy_entity_cleans_witness :
  0 < MAX_ENTITIES ∧
  (∀ name a,
     ComponentManager.component_arrays_
       (Coordinator.component_manager_ pair_world) !! name = Some a ->
     is_Some (ComponentArray.entity_to_index_map_ a !! 0) -> dense a) ∧
  ∃ c',
    Coordinator.destroy_entity 0 pair_world = Val tt c' ∧
    signature_of (Coordinator.entity_manager_ c') 0 = Bitset.empty ∧
    Coordinator.get_component "Gravity" 1 c' = Val 43 c'.
Proof.
  assert (H1 : 0 < MAX_ENTITIES) by (vm_compute; reflexivity).
  assert (H2 : all_dense (Coordinator.component_manager_ pair_world))
    by (apply all_dense_check_sound; vm_compute; reflexivity).
  assert (H3 : ∀ name a,
            ComponentManager.component_arrays_
              (Coordinator.component_manager_ pair_world) !! name = Some a ->
            is_Some (ComponentArray.entity_to_index_map_ a !! 0) -> dense a)
    by (intros name a Ha _; exact (H2 name a Ha)).
  assert (H4 : ComponentManager.component_arrays_
                 (Coordinator.component_manager_ pair_world) !! "Gravity"
               = Some pair_array) by (vm_compute; reflexivity).
  assert (H5 : ComponentArray.entity_to_index_map_ pair_array !! 0 = Some 0)
    by (vm_compute; reflexivity).
  assert (H6 : ComponentArray.entity_to_index_map_ pair_array !! 1 = Some 1)
    by (vm_compute; reflexivity).
  split; [exact H1|]. split; [exact H3|].
  destruct (destroy_entity_cleans 0 pair_world H1 H3)
    as (c' & Hrun & Hsig & _ & _ & _ & _ & _ & _ & Hheld & _).
  exists c'. split; [exact Hrun|]. split; [exact Hsig|].
  destruct (Hheld "Gravity" pair_array 0 H4 H5)
    as (last & eL & _ & _ & _ & _ & _ & Hread).
  exact (Hread 1 1 ltac:(discriminate) H6).
Defined.

(** C4, as stated, fails: entity 0 is live and holds no [Gravity]
    component; after [get_component<Gravity>(0)], which returns and
    enters the entity at index 0 of the empty array, [destroy_entity(0)]
    reads the array out of bounds instead of cleaning up. *)
Lemma destroy_entity_cleans_counterexample :
  ∃ c1,
    Coordinator.get_component "Gravity" 0 gravity_world = Val 0 c1 ∧
    (0 ∉ EntityManager.available_entities_ (Coordinator.entity_manager_ c1)) ∧
    EntityManager.living_entity_count_ (Coordinator.entity_manager_ c1) = 1 ∧
    Coordinator.destroy_entity 0 c1 = Undefined OutOfBounds.
Proof.
  eexists. split; [vm_compute; reflexivity|].
  split; [refine (bool_decide_unpack _ _); vm_compute; exact I|].
  split; vm_compute; reflexivity.
Qed.

(** ** The packed-array invariant along contract-respecting use *)

Section DenseReach.
Context {T : Type} `{!Component T}.
Implicit Types (a : ComponentArray.t T) (cm : ComponentManager.t T)
  (c : Coordinator.t T) (e : Entity) (v : T) (name : TypeName).

Lemma all_dense_init :
  all_dense (Coordinator.component_manager_ (Coordinator.init (T := T))).
Proof. intros name a. simpl. by rewrite lookup_empty. Qed.

Lemma register_component_dense name c c' :
  Coordinator.register_component name c = Val tt c' ->
  all_dense (Coordinator.component_manager_ c) ->
  all_dense (Coordinator.component_manager_ c').
Proof.
  unfold Coordinator.register_component, Coordinator.component_manager, zoom.
  simpl. intros [= <-] AD n a. simpl. unfold emplace.
  destruct (ComponentManager.component_arrays_ _ !! name) eqn:E;
    [apply AD|].
  rewrite lookup_insert. case_decide; [|apply AD].
  intros [= <-]. apply dense_new.
Qed.

(** Adding a component the entity does not hold yet keeps the arrays
    dense. *)
Lemma add_component_dense name e v c c' a :
  ComponentManager.component_arrays_ (Coordinator.component_manager_ c)
    !! name = Some a ->
  ComponentArray.entity_to_index_map_ a !! e = None ->
  Coordinator.add_component name e v c = Val tt c' ->
  all_dense (Coordinator.component_manager_ c) ->
  all_dense (Coordinator.component_manager_ c').
Proof.
  intros Ha He Hadd AD.
  apply add_component_val in Hadd as (a0 & a' & Ha0 & Hins & _ & _ & ->).
  assert (a0 = a) as -> by congruence.
  intros n b. simpl. rewrite lookup_insert. case_decide; [|apply AD].
  intros [= <-]. by apply (insert_data_dense e v a a' (AD name a Ha)).
Qed.
End DenseReach.

(** ** The entity pool over sequences of calls *)

Lemma new_pool_seq :
  EntityManager.available_entities_ EntityManager.new
  = N.of_nat <$> seq 0 (N.to_nat MAX_ENTITIES).
Proof. vm_compute. reflexivity. Qed.

Lemma new_pool_NoDup :
  NoDup (EntityManager.available_entities_ EntityManager.new).
Proof.
  rewrite new_pool_seq.
  apply NoDup_fmap_2; [intros ??; apply Nat2N.inj | apply NoDup_seq].
Qed.

Lemma new_pool_elem (e : Entity) :
  e ∈ EntityManager.available_entities_ EntityManager.new
  ↔ e < MAX_ENTITIES.
Proof.
  rewrite new_pool_seq, list_elem_of_fmap. split.
  - intros (n & -> & Hn). apply elem_of_seq in Hn. lia.
  - intros He. exists (N.to_nat e). rewrite N2Nat.id. split; [done|].
    apply elem_of_seq. lia.
Qed.

Lemma new_pool_length :
  length (EntityManager.available_entities_ EntityManager.new)
  = N.to_nat MAX_ENTITIES.
Proof. rewrite new_pool_seq, length_fmap. apply length_seq. Qed.

Lemma remove_first_perm (e : Entity) (l : list Entity) :
  e ∈ l -> l ≡ₚ e :: remove_first e l.
Proof.
  induction l as [|x l IH]; [by intros ?%elem_of_nil|].
  intros Hin. simpl. destruct (x =? e) eqn:E.
  - apply N.eqb_eq in E. by subst.
  - apply N.eqb_neq in E. apply elem_of_cons in Hin as [->|Hin]; [done|].
    rewrite (IH Hin) at 1. apply Permutation_swap.
Qed.

Lemma pool_inv_new : pool_inv EntityManager.new [].
Proof. split; reflexivity. Qed.

Lemma pool_inv_facts em live :
  pool_inv em live ->
  NoDup live ∧
  NoDup (EntityManager.available_entities_ em) ∧
  (∀ e, e ∈ live -> e ∉ EntityManager.available_entities_ em) ∧
  (∀ e, e ∈ live -> e < MAX_ENTITIES) ∧
  (∀ e, e < MAX_ENTITIES -> (e ∉ live) ->
        e ∈ EntityManager.available_entities_ em) ∧
  (length live + length (EntityManager.available_entities_ em)
   = N.to_nat MAX_ENTITIES)%nat.
Proof.
  intros [Hperm _].
  assert (Hnd : NoDup (live ++ EntityManager.available_entities_ em))
    by (rewrite Hperm; apply new_pool_NoDup).
  apply NoDup_app in Hnd as (Hl & Hdisj & Ha).
  split; [done|]. split; [done|]. split; [done|]. split; [|split].
  - intros e He. apply new_pool_elem. rewrite <- Hperm.
    apply elem_of_app. by left.
  - intros e He Hnl. apply new_pool_elem in He. rewrite <- Hperm in He.
    apply elem_of_app in He as [?|?]; done.
  - rewrite <- new_pool_length, <- Hperm. by rewrite length_app.
Qed.

Lemma create_entity_inv em live :
  pool_inv em live ->
  EntityManager.living_entity_count_ em < MAX_ENTITIES ->
  ∃ id em',
    EntityManager.create_entity em = Val id em' ∧
    (id ∉ live) ∧
    pool_inv em' (id :: live).
Proof.
  intros Inv Hcount.
  destruct (pool_inv_facts em live Inv) as (_ & _ & Hdisj & _ & _ & Hlen).
  destruct Inv as [Hperm Hn].
  unfold EntityManager.create_entity.
  destruct (EntityManager.available_entities_ em) as [|id rest] eqn:Hq.
  { simpl in Hlen. lia. }
  do 2 eexists. split; [done|]. split.
  { intros Hin. apply (Hdisj id Hin). by left. }
  split; simpl.
  - rewrite <- Hperm. by rewrite Permutation_middle.
  - rewrite Hn. pose proof MAX_ENTITIES_small as [H32 _].
    rewrite incr_succ by lia. lia.
Qed.

Lemma destroy_entity_inv em live e :
  pool_inv em live ->
  e ∈ live ->
  ∃ em',
    EntityManager.destroy_entity e em = Val tt em' ∧
    (e ∉ remove_first e live) ∧
    e ∈ EntityManager.available_entities_ em' ∧
    pool_inv em' (remove_first e live).
Proof.
  intros Inv Hin.
  destruct (pool_inv_facts em live Inv) as (Hnd & _ & _ & Hlt & _ & Hlen).
  destruct Inv as [Hperm Hn].
  pose proof (remove_first_perm e live Hin) as Hrm.
  unfold EntityManager.destroy_entity.
  pose proof (Hlt e Hin) as He. apply N.ltb_lt in He. rewrite He.
  eexists. split; [done|]. split.
  { rewrite Hrm in Hnd. by apply NoDup_cons in Hnd as [? _]. }
  split; [simpl; apply elem_of_app; right; by left|].
  split; simpl.
  - rewrite <- Hperm.
    etransitivity; [|apply Permutation_app_tail; symmetry; exact Hrm].
    simpl. rewrite app_assoc. symmetry. apply Permutation_cons_append.
  - rewrite Hn. pose proof MAX_ENTITIES_small as [H32 _].
    assert (Hl : length live = S (length (remove_first e live)))
      by (by rewrite Hrm at 1).
    rewrite decr_pred; [lia|lia|]. apply N.ltb_lt in He. lia.
Qed.

Lemma play_respects ks : ∀ live em,
  pool_inv em live ->
  respects ks live em = true ->
  ∃ live' em',
    play ks live em = Val live' em' ∧
    pool_inv em' live' ∧
    ∀ ks0 e, ks = ks0 ++ [Destroy e] ->
      (e ∉ live') ∧ e ∈ EntityManager.available_entities_ em'.
Proof.
  induction ks as [|k ks IH]; intros live em Inv Hres.
  - exists live, em. split; [done|]. split; [done|].
    intros ks0 e Hks. by destruct ks0.
  - destruct k as [|e]; simpl in Hres; apply andb_true_iff in Hres as [H1 H2].
    + apply N.ltb_lt in H1.
      destruct (create_entity_inv em live Inv H1) as (id & em1 & Hc & _ & Inv1).
      rewrite Hc in H2.
      destruct (IH (id :: live) em1 Inv1 H2) as (live' & em' & Hp & Inv' & Hl).
      exists live', em'. split; [|split; [done|]].
      { simpl. unfold bind. by rewrite Hc. }
      intros ks0 e Hks. destruct ks0 as [|k0 ks0]; [by destruct ks|].
      injection Hks as _ Hks. by apply (Hl ks0).
    + apply bool_decide_eq_true in H1.
      destruct (destroy_entity_inv em live e Inv H1)
        as (em1 & Hd & Hnl & Hav & Inv1).
      rewrite Hd in H2.
      destruct (IH (remove_first e live) em1 Inv1 H2)
        as (live' & em' & Hp & Inv' & Hl).
      exists live', em'. split; [|split; [done|]].
      { simpl. unfold bind. by rewrite Hd. }
      intros ks0 e0 Hks. destruct ks0 as [|k0 ks0].
      * destruct ks; [|by destruct ks]. injection Hks as ->.
        simpl in Hp. injection Hp as <- <-. done.
      * injection Hks as _ Hks. by apply (Hl ks0).
Qed.

(** C8: any sequence of [create_entity] and [destroy_entity] calls on a
    fresh manager that creates only below the capacity and destroys only
    ids it holds runs to the end; then no id is held twice, no held id is
    in the free queue, no id is in the free queue twice, every id in range
    that is not held is in the free queue, and an id just destroyed is no
    longer held and is in the free queue (hence exactly once). *)
Theorem pool_ids_unique (ks : list pool_call) :
  respects ks [] EntityManager.new = true ->
  ∃ live em,
    play ks [] EntityManager.new = Val live em ∧
    NoDup live ∧
    NoDup (EntityManager.available_entities_ em) ∧
    (∀ e, e ∈ live -> e ∉ EntityManager.available_entities_ em) ∧
    (∀ e, e < MAX_ENTITIES -> (e ∉ live) ->
          e ∈ EntityManager.available_entities_ em) ∧
    (∀ ks0 e, ks = ks0 ++ [Destroy e] ->
       (e ∉ live) ∧ e ∈ EntityManager.available_entities_ em) ∧
    EntityManager.living_entity_count_ em = N.of_nat (length live).
Proof.
  intros Hres.
  destruct (play_respects ks [] EntityManager.new pool_inv_new Hres)
    as (live & em & Hp & Inv & Hl).
  destruct (pool_inv_facts em live Inv) as (H1 & H2 & H3 & _ & H5 & _).
  exists live, em. destruct Inv as [_ Hn]. done.
Qed.

Lemma pool_ids_unique_witness :
  respects [Create; Create; Destroy 0; Create; Destroy 1] []
    EntityManager.new = true ∧
  ∃ live em,
    play [Create; Create; Destroy 0; Create; Destroy 1] []
      EntityManager.new = Val live em ∧
    NoDup live.
Proof.
  assert (H : respects [Create; Create; Destroy 0; Create; Destroy 1] []
                EntityManager.new = true) by (vm_compute; reflexivity).
  split; [exact H|].
  destruct (pool_ids_unique _ H) as (live & em & Hp & Hnd & _).
  exists live, em. split; [exact Hp | exact Hnd].
Defined.

(** ** System membership over sequences of calls *)

Section Sync.
Context {T : Type} `{!Component T}.
Implicit Types (cm : ComponentManager.t T) (c : Coordinator.t T)
  (e : Entity) (name : TypeName).

Lemma covers_empty (s : Signature) :
  s ≠ Bitset.empty -> Bitset.covers Bitset.empty s = false.
Proof.
  intros Hs. unfold Bitset.covers, Bitset.empty in *. rewrite N.land_0_l.
  apply N.eqb_neq. congruence.
Qed.

Lemma signature_of_unset (em : EntityManager.t) e :
  map_Forall (λ _ signature, signature = Bitset.empty)
    (EntityManager.signatures_ em) ->
  signature_of em e = Bitset.empty.
Proof.
  intros H. unfold signature_of, slot.
  destruct (EntityManager.signatures_ em !! e) as [s|] eqn:E; [|done].
  simpl. by apply (H e s).
Qed.

Lemma set_up_in_sync c :
  set_up true c -> demanding c ∧ in_sync c.
Proof.
  intros [Hsig Hsys]. split.
  - intros name system Hs. by apply (Hsys name system Hs).
  - intros name system Hs e.
    destruct (Hsys name system Hs) as (Hempty & _ & Hreq).
    rewrite Hempty, (signature_of_unset _ e Hsig),
      (covers_empty _ (Hreq eq_refl)).
    split; [by intros ?%elem_of_empty|done].
Qed.

(** The invariant reads only the stored signatures and the system
    manager. *)
Lemma in_sync_same c c' :
  EntityManager.signatures_ (Coordinator.entity_manager_ c')
    = EntityManager.signatures_ (Coordinator.entity_manager_ c) ->
  Coordinator.system_manager_ c' = Coordinator.system_manager_ c ->
  demanding c ∧ in_sync c -> demanding c' ∧ in_sync c'.
Proof.
  unfold demanding, in_sync, signature_of. by intros -> ->.
Qed.

Lemma in_sync_told e (signature : Signature) c c' :
  Coordinator.entity_manager_ c'
    = signature_stored e signature (Coordinator.entity_manager_ c) ->
  Coordinator.system_manager_ c'
    = systems_told e signature (Coordinator.system_manager_ c) ->
  demanding c ∧ in_sync c -> demanding c' ∧ in_sync c'.
Proof.
  intros Hem Hsm [Hd Hs].
  destruct (entity_signature_changed_spec e signature
              (Coordinator.system_manager_ c))
    as (sm' & Hrun & Hsys & Hreq & _).
  unfold SystemManager.entity_signature_changed in Hrun.
  injection Hrun as Hrun. fold (systems_told e signature
    (Coordinator.system_manager_ c)) in Hrun. rewrite <- Hrun, <- Hsm in *.
  split.
  - intros name system'. rewrite Hsys, Hreq.
    destruct (SystemManager.systems_ _ !! name) as [system|] eqn:E; [|done].
    intros _. by apply (Hd name system).
  - intros name system'. rewrite Hsys, Hreq.
    destruct (SystemManager.systems_ _ !! name) as [system|] eqn:E; [|done].
    simpl. intros Heq. injection Heq as <-. intros e'.
    rewrite Hem. unfold signature_of, signature_stored, slot. simpl.
    destruct (decide (e' = e)) as [->|Hne].
    + rewrite lookup_insert_eq. simpl. unfold rematch.
      destruct (Bitset.covers signature _); simpl.
      * rewrite elem_of_union, elem_of_singleton. tauto.
      * rewrite elem_of_difference, elem_of_singleton. split; [tauto|done].
    + rewrite lookup_insert_ne by done.
      specialize (Hs name system E e').
      unfold signature_of, slot in Hs. rewrite <- Hs. unfold rematch.
      destruct (Bitset.covers signature _); simpl.
      * rewrite elem_of_union, elem_of_singleton. tauto.
      * rewrite elem_of_difference, elem_of_singleton. tauto.
Qed.

Lemma in_sync_destroyed e c c' :
  EntityManager.signatures_ (Coordinator.entity_manager_ c')
    = <[e := Bitset.empty]>
        (EntityManager.signatures_ (Coordinator.entity_manager_ c)) ->
  SystemManager.entity_destroyed e (Coordinator.system_manager_ c)
    = Val tt (Coordinator.system_manager_ c') ->
  demanding c ∧ in_sync c -> demanding c' ∧ in_sync c'.
Proof.
  intros Hem Hrun [Hd Hs].
  destruct (system_entity_destroyed_spec e (Coordinator.system_manager_ c))
    as (sm' & Hrun' & Hsigs & Hsys).
  rewrite Hrun in Hrun'. injection Hrun' as <-.
  assert (Hreq : ∀ name, required (Coordinator.system_manager_ c') name
                         = required (Coordinator.system_manager_ c) name).
  { intros name. unfold required. by rewrite Hsigs. }
  split.
  - intros name system'. rewrite Hsys, Hreq.
    destruct (SystemManager.systems_ _ !! name) as [system|] eqn:E; [|done].
    intros _. by apply (Hd name system).
  - intros name system'. rewrite Hsys, Hreq.
    destruct (SystemManager.systems_ _ !! name) as [system|] eqn:E; [|done].
    simpl. intros Heq. injection Heq as <-. intros e'.
    unfold signature_of, slot. rewrite Hem. simpl.
    rewrite elem_of_difference, elem_of_singleton.
    destruct (decide (e' = e)) as [->|Hne].
    + rewrite lookup_insert_eq. simpl.
      rewrite (covers_empty _ (Hd name system E)). split; [tauto|done].
    + rewrite lookup_insert_ne by done.
      specialize (Hs name system E e').
      unfold signature_of, slot in Hs. rewrite <- Hs. tauto.
Qed.

(** What a call that hands control back has done to the signatures and
    the systems. *)
Lemma resigned name e (val : bool) (m : M (ComponentManager.t T) unit)
    c c' :
  (∀ cm x cm', m cm ≠ Throw x cm') ->
  state_after ((Coordinator.component_manager m ;; resign name e val) c)
    = Some c' ->
  (EntityManager.signatures_ (Coordinator.entity_manager_ c')
     = EntityManager.signatures_ (Coordinator.entity_manager_ c) ∧
   Coordinator.system_manager_ c' = Coordinator.system_manager_ c) ∨
  ∃ signature,
    Coordinator.entity_manager_ c'
      = signature_stored e signature (Coordinator.entity_manager_ c) ∧
    Coordinator.system_manager_ c'
      = systems_told e signature (Coordinator.system_manager_ c).
Proof.
  intros Hnt. unfold bind. unfold Coordinator.component_manager at 1.
  unfold zoom. destruct (m _) as [[] cm1|x cm1|] eqn:Hm; [| |done].
  - rewrite resign_eq.
    cbn [Coordinator.component_manager_ Coordinator.entity_manager_
         Coordinator.system_manager_].
    destruct (e <? MAX_ENTITIES); [|done].
    destruct (_ <? MAX_COMPONENTS); simpl; intros [= <-].
    + right. by eexists.
    + by left.
  - by destruct (Hnt _ _ _ Hm).
Qed.

Lemma get_component_array_no_throw {A} name
    (m : M (ComponentArray.t T) A) :
  (∀ a x a', m a ≠ Throw x a') ->
  ∀ cm x cm', ComponentManager.get_component_array name m cm ≠ Throw x cm'.
Proof.
  intros Hnt cm x cm'.
  unfold ComponentManager.get_component_array, ComponentManager.on_array,
    zoom.
  destruct (_ !! name) as [a|]; [|done].
  pose proof (Hnt a) as Ha. destruct (m a) as [| y a' |]; [done| |done].
  by destruct (Ha y a').
Qed.

Lemma insert_data_no_throw e (v : T) (a : ComponentArray.t T) x a' :
  ComponentArray.insert_data e v a ≠ Throw x a'.
Proof. unfold ComponentArray.insert_data. by destruct (_ <? _). Qed.

Lemma destroy_entity_states e c c' :
  state_after (Coordinator.destroy_entity e c) = Some c' ->
  EntityManager.signatures_ (Coordinator.entity_manager_ c')
    = <[e := Bitset.empty]>
        (EntityManager.signatures_ (Coordinator.entity_manager_ c)) ∧
  SystemManager.entity_destroyed e (Coordinator.system_manager_ c)
    = Val tt (Coordinator.system_manager_ c').
Proof.
  destruct c as [cm em sm].
  unfold Coordinator.destroy_entity, bind, Coordinator.entity_manager,
    Coordinator.component_manager, Coordinator.system_manager, zoom,
    EntityManager.destroy_entity, ComponentManager.entity_destroyed.
  cbn [Coordinator.component_manager_ Coordinator.entity_manager_
       Coordinator.system_manager_].
  destruct (e <? MAX_ENTITIES); [|done].
  cbn [Coordinator.component_manager_ Coordinator.entity_manager_
       Coordinator.system_manager_].
  pose proof (tell_fold e (ComponentManager.component_arrays_ cm) cm) as H.
  destruct (map_fold (ComponentManager.tell e) (ret tt)
              (ComponentManager.component_arrays_ cm) cm)
    as [[] cm'| |]; [|done..].
  unfold SystemManager.entity_destroyed. simpl. by intros [= <-].
Qed.

Lemma perform_in_sync (k : call T) c c' :
  state_after (perform k c) = Some c' ->
  demanding c ∧ in_sync c -> demanding c' ∧ in_sync c'.
Proof.
  destruct k as [|e|name|name e v|name e|name e]; simpl.
  - unfold bind, Coordinator.create_entity, Coordinator.entity_manager, zoom,
      EntityManager.create_entity.
    destruct (EntityManager.available_entities_ _); [done|].
    simpl. intros [= <-]. by apply in_sync_same.
  - intros H. apply destroy_entity_states in H as [Hem Hsm].
    by apply (in_sync_destroyed e).
  - unfold Coordinator.register_component, Coordinator.component_manager,
      zoom. simpl. intros [= <-]. by apply in_sync_same.
  - rewrite add_component_unfold. intros H.
    apply resigned in H as [[Hem Hsm]|(signature & Hem & Hsm)].
    + by apply in_sync_same.
    + by apply (in_sync_told e signature).
    + apply get_component_array_no_throw. intros a x a'.
      apply insert_data_no_throw.
  - done.
  - unfold bind, Coordinator.get_component, Coordinator.component_manager,
      zoom.
    destruct (ComponentManager.get_component name e _) as [v cm'|x cm'|];
      simpl; [| |done]; intros [= <-]; by apply in_sync_same.
Qed.

(** What a call that hands control back has done to the stored
    signatures and the system manager: nothing, or one entity's signature
    stored and the systems told of it, or one entity's signature reset
    and the entity purged from the systems. *)
Lemma perform_effect (k : call T) c c' :
  state_after (perform k c) = Some c' ->
  (EntityManager.signatures_ (Coordinator.entity_manager_ c')
     = EntityManager.signatures_ (Coordinator.entity_manager_ c) ∧
   Coordinator.system_manager_ c' = Coordinator.system_manager_ c) ∨
  (∃ e signature,
     Coordinator.entity_manager_ c'
       = signature_stored e signature (Coordinator.entity_manager_ c) ∧
     Coordinator.system_manager_ c'
       = systems_told e signature (Coordinator.system_manager_ c)) ∨
  (∃ e,
     EntityManager.signatures_ (Coordinator.entity_manager_ c')
       = <[e := Bitset.empty]>
           (EntityManager.signatures_ (Coordinator.entity_manager_ c)) ∧
     SystemManager.entity_destroyed e (Coordinator.system_manager_ c)
       = Val tt (Coordinator.system_manager_ c')).
Proof.
  destruct k as [|e|name|name e v|name e|name e]; simpl.
  - unfold bind, Coordinator.create_entity, Coordinator.entity_manager, zoom,
      EntityManager.create_entity.
    destruct (EntityManager.available_entities_ _); [done|].
    simpl. intros [= <-]. by left.
  - intros H. apply destroy_entity_states in H. right. right. by exists e.
  - unfold Coordinator.register_component, Coordinator.component_manager,
      zoom. simpl. intros [= <-]. by left.
  - rewrite add_component_unfold. intros H.
    apply resigned in H as [[Hem Hsm]|(signature & Hem & Hsm)].
    + by left.
    + right. left. by exists e, signature.
    + apply get_component_array_no_throw. intros a x a'.
      apply insert_data_no_throw.
  - done.
  - unfold bind, Coordinator.get_component, Coordinator.component_manager,
      zoom.
    destruct (ComponentManager.get_component name e _) as [v cm'|x cm'|];
      simpl; [| |done]; intros [= <-]; by left.
Qed.

Lemma in_sync_with_told name signature e (s : Signature) c c' :
  Coordinator.entity_manager_ c'
    = signature_stored e s (Coordinator.entity_manager_ c) ->
  Coordinator.system_manager_ c'
    = systems_told e s (Coordinator.system_manager_ c) ->
  in_sync_with name signature c -> in_sync_with name signature c'.
Proof.
  intros Hem Hsm (Hsig & system & Hsys & Hin).
  destruct (entity_signature_changed_spec e s
              (Coordinator.system_manager_ c))
    as (sm' & Hrun & Hsystems & _ & Hsigs).
  unfold SystemManager.entity_signature_changed in Hrun.
  injection Hrun as Hrun.
  fold (systems_told e s (Coordinator.system_manager_ c)) in Hrun.
  rewrite <- Hrun, <- Hsm in *.
  assert (Hreq : required (Coordinator.system_manager_ c) name = signature)
    by (unfold required; by rewrite Hsig).
  split; [by rewrite Hsigs, Hsig|].
  exists (rematch e s signature system).
  split; [by rewrite Hsystems, Hsys, Hreq|].
  intros e'. rewrite Hem. unfold signature_of, signature_stored, slot.
  simpl. destruct (decide (e' = e)) as [->|Hne].
  - rewrite lookup_insert_eq. simpl. unfold rematch.
    destruct (Bitset.covers s signature); simpl.
    + rewrite elem_of_union, elem_of_singleton. tauto.
    + rewrite elem_of_difference, elem_of_singleton. split; [tauto|done].
  - rewrite lookup_insert_ne by done.
    specialize (Hin e'). unfold signature_of, slot in Hin.
    rewrite <- Hin. unfold rematch.
    destruct (Bitset.covers s signature); simpl.
    + rewrite elem_of_union, elem_of_singleton. tauto.
    + rewrite elem_of_difference, elem_of_singleton. tauto.
Qed.

Lemma in_sync_with_destroyed name signature e c c' :
  signature ≠ Bitset.empty ->
  EntityManager.signatures_ (Coordinator.entity_manager_ c')
    = <[e := Bitset.empty]>
        (EntityManager.signatures_ (Coordinator.entity_manager_ c)) ->
  SystemManager.entity_destroyed e (Coordinator.system_manager_ c)
    = Val tt (Coordinator.system_manager_ c') ->
  in_sync_with name signature c -> in_sync_with name signature c'.
Proof.
  intros Hne Hem Hrun (Hsig & system & Hsys & Hin).
  destruct (system_entity_destroyed_spec e (Coordinator.system_manager_ c))
    as (sm' & Hrun' & Hsigs & Hsystems).
  rewrite Hrun in Hrun'. injection Hrun' as <-.
  split; [by rewrite Hsigs|].
  exists (System.erase e system). split; [by rewrite Hsystems, Hsys|].
  intros e'. unfold signature_of, slot. rewrite Hem. simpl.
  rewrite elem_of_difference, elem_of_singleton.
  destruct (decide (e' = e)) as [->|Hee].
  - rewrite lookup_insert_eq. simpl.
    rewrite (covers_empty _ Hne). split; [tauto|done].
  - rewrite lookup_insert_ne by done.
    specialize (Hin e'). unfold signature_of, slot in Hin.
    rewrite <- Hin. tauto.
Qed.

Lemma perform_in_sync_with name signature (k : call T) c c' :
  signature ≠ Bitset.empty ->
  state_after (perform k c) = Some c' ->
  in_sync_with name signature c -> in_sync_with name signature c'.
Proof.
  intros Hne Hk J.
  destruct (perform_effect k c c' Hk)
    as [[Hem Hsm]|[(e & s & Hem & Hsm)|(e & Hem & Hsm)]].
  - unfold in_sync_with, signature_of in *. by rewrite Hem, Hsm.
  - by apply (in_sync_with_told name signature e s c).
  - by apply (in_sync_with_destroyed name signature e c).
Qed.

(** C1, amended: for a registered system S whose signature was set to a
    non-empty bitset while S's set was empty and no entity had a
    signature bit, whatever the other systems and their signatures are:
    after any sequence of [create_entity], [destroy_entity],
    [register_component], [add_component] and [get_component] calls that
    hand control back, S is still registered and matched against the same
    signature, and an entity is in S's set if and only if its stored
    signature covers that signature. *)
Theorem systems_stay_in_sync (ks : list (call T)) name signature c0 c :
  set_up_for name signature c0 ->
  observe ks c0 = Some c ->
  SystemManager.signatures_ (Coordinator.system_manager_ c) !! name
    = Some signature ∧
  ∃ system,
    SystemManager.systems_ (Coordinator.system_manager_ c) !! name
      = Some system ∧
    ∀ e, e ∈ System.entities_ system
         ↔ Bitset.covers (signature_of (Coordinator.entity_manager_ c) e)
             signature = true.
Proof.
  intros (Hunset & (system0 & Hsys0 & Hempty) & Hsig & Hne) Hobs.
  assert (J : in_sync_with name signature c0).
  { split; [done|]. exists system0. split; [done|]. intros e.
    rewrite Hempty, (signature_of_unset _ e Hunset), (covers_empty _ Hne).
    split; [by intros ?%elem_of_empty|done]. }
  clear Hunset Hsys0 Hempty Hsig system0.
  revert c0 J Hobs. induction ks as [|k ks IH]; intros c0 J.
  - simpl. by intros [= <-].
  - simpl. destruct (state_after (perform k c0)) as [c1|] eqn:Hk; [|done].
    apply IH. by apply (perform_in_sync_with name signature k c0 c1).
Qed.
End Sync.

Lemma systems_stay_in_sync_witness :
  set_up_for "Physics" 1 mixed_world ∧
  required (Coordinator.system_manager_ mixed_world) "All" = Bitset.empty ∧
  ∃ c system,
    observe [CreateEntity; AddComponent "Gravity" 0 42;
             AddComponent "Pixel" 0 7; CreateEntity;
             GetComponent "Gravity" 0; AddComponent "Gravity" 1 43;
             DestroyEntity 0] mixed_world = Some c ∧
    SystemManager.systems_ (Coordinator.system_manager_ c) !! "Physics"
      = Some system ∧
    ∀ e, e ∈ System.entities_ system
         ↔ Bitset.covers (signature_of (Coordinator.entity_manager_ c) e) 1
           = true.
Proof.
  assert (H1 : set_up_for "Physics" 1 mixed_world).
  { split; [refine (bool_decide_unpack _ _); vm_compute; exact I|].
    split; [exists System.new; split; vm_compute; reflexivity|].
    split; [vm_compute; reflexivity|done]. }
  split; [exact H1|]. split; [vm_compute; reflexivity|].
  eexists.
  match goal with |- ∃ system, ?A ∧ _ =>
    assert (H2 : A) by (vm_compute; reflexivity)
  end.
  destruct (systems_stay_in_sync _ "Physics" 1 mixed_world _ H1 H2)
    as (_ & system & Hsys & Hin).
  exists system. split; [exact H2|]. split; [exact Hsys | exact Hin].
Defined.

(** C1, as stated, fails for a system whose signature is set to the empty
    bitset: after two entities are created and a component is added to
    entity 0, entity 1 is live with the empty signature, which covers the
    system's, and yet is not in the system's set. *)
Lemma systems_in_sync_counterexample :
  set_up false all_world ∧
  SystemManager.signatures_ (Coordinator.system_manager_ all_world) !! "All"
    = Some Bitset.empty ∧
  ∃ c system,
    observe [CreateEntity; CreateEntity; AddComponent "Gravity" 0 42]
      all_world = Some c ∧
    SystemManager.systems_ (Coordinator.system_manager_ c) !! "All"
      = Some system ∧
    Bitset.covers (signature_of (Coordinator.entity_manager_ c) 1)
      (required (Coordinator.system_manager_ c) "All") = true ∧
    (1 ∉ System.entities_ system) ∧
    ¬ in_sync c.
Proof.
  split; [unfold set_up; refine (bool_decide_unpack _ _); vm_compute; exact I|].
  split; [vm_compute; reflexivity|].
  do 2 eexists. split; [vm_compute; reflexivity|].
  match goal with |- ?A ∧ ?B ∧ ?C ∧ _ =>
    assert (H1 : A) by (vm_compute; reflexivity);
    assert (H2 : B) by (vm_compute; reflexivity);
    assert (H3 : C) by (refine (bool_decide_unpack _ _); vm_compute; exact I)
  end.
  split; [exact H1|]. split; [exact H2|]. split; [exact H3|].
  intros Hsync. apply H3. by apply (Hsync "All" _ H1 1).
Qed.

(** * The rest of the managers *)

(** ** Bitset: the membership test *)

(** X1: the test [(a & b) == b] of [entity_signature_changed] holds exactly
    when every bit set in [b] is set in [a]: a system takes the entities
    whose signature is a superset of its own. *)
Theorem covers_iff_superset (a b : Signature) :
  Bitset.covers a b = true
  ↔ ∀ i, Bitset.test b i = true -> Bitset.test a i = true.
Proof.
  unfold Bitset.covers, Bitset.test. rewrite N.eqb_eq. split.
  - intros H i Hb. rewrite <- H, N.land_spec in Hb.
    by apply andb_true_iff in Hb as [? _].
  - intros H. apply N.bits_inj. intros i. rewrite N.land_spec.
    destruct (N.testbit b i) eqn:Hb; [|by rewrite andb_false_r].
    by rewrite (H i Hb).
Qed.

(** ** EntityManager: signatures and recycling *)

(** X2: for an entity id in range, [get_signature] after [set_signature]
    returns the signature stored, no other entity's signature changes, and
    the pool is as before.  At an id past the range all three accessors
    index the signature array out of bounds. *)
Theorem set_signature_then_get (e : Entity) (s : Signature)
    (em : EntityManager.t) :
  e < MAX_ENTITIES ->
  ∃ em',
    EntityManager.set_signature e s em = Val tt em' ∧
    EntityManager.get_signature e em' = Val s em' ∧
    (∀ e', e' ≠ e -> signature_of em' e' = signature_of em e') ∧
    EntityManager.available_entities_ em'
      = EntityManager.available_entities_ em ∧
    EntityManager.living_entity_count_ em'
      = EntityManager.living_entity_count_ em ∧
    ∀ e', MAX_ENTITIES <= e' ->
      EntityManager.set_signature e' s em' = Undefined OutOfBounds ∧
      EntityManager.get_signature e' em' = Undefined OutOfBounds ∧
      EntityManager.destroy_entity e' em' = Undefined OutOfBounds.
Proof.
  intros He. apply N.ltb_lt in He.
  unfold EntityManager.set_signature, EntityManager.get_signature,
    EntityManager.destroy_entity.
  rewrite He. eexists. split; [reflexivity|]. simpl.
  split; [unfold slot; by rewrite lookup_insert_eq|].
  split.
  { intros e' Hne. unfold signature_of, slot. simpl.
    by rewrite lookup_insert_ne. }
  split; [done|]. split; [done|].
  intros e' He'. apply N.ltb_ge in He'. by rewrite He'.
Qed.

Lemma set_signature_then_get_witness :
  4 < MAX_ENTITIES ∧
  ∃ em',
    EntityManager.set_signature 4 5 EntityManager.new = Val tt em' ∧
    EntityManager.get_signature 4 em' = Val 5 em'.
Proof.
  assert (H : 4 < MAX_ENTITIES) by (vm_compute; reflexivity).
  split; [exact H|].
  destruct (set_signature_then_get 4 5 EntityManager.new H)
    as (em' & H1 & H2 & _).
  exists em'. split; [exact H1 | exact H2].
Defined.

Lemma create_many_prefix (q1 q2 : list Entity) : ∀ em,
  EntityManager.available_entities_ em = q1 ++ q2 ->
  ∃ em',
    create_many (length q1) em = Val q1 em' ∧
    EntityManager.available_entities_ em' = q2 ∧
    EntityManager.signatures_ em' = EntityManager.signatures_ em.
Proof.
  induction q1 as [|x q1 IH]; intros em Hq.
  - exists em. by split.
  - simpl. unfold bind at 1. unfold EntityManager.create_entity at 1.
    rewrite Hq. simpl.
    match goal with
    | |- context [bind (create_many _) _ ?em1] =>
        destruct (IH em1 eq_refl) as (em' & Hrun & Hq' & Hs)
    end.
    exists em'. unfold bind, ret. rewrite Hrun. done.
Qed.

(** X3: the free pool is first in, first out.  After [destroy_entity(e)],
    the next creations hand out every id that was free before, in their
    old order, and only the creation after those returns [e] again. *)
Theorem destroyed_id_recycled_last (e : Entity) (em : EntityManager.t) :
  e < MAX_ENTITIES ->
  ∃ em1 em2 em3,
    EntityManager.destroy_entity e em = Val tt em1 ∧
    create_many (length (EntityManager.available_entities_ em)) em1
      = Val (EntityManager.available_entities_ em) em2 ∧
    EntityManager.create_entity em2 = Val e em3 ∧
    EntityManager.available_entities_ em3 = [] ∧
    signature_of em3 e = Bitset.empty.
Proof.
  intros He. apply N.ltb_lt in He.
  unfold EntityManager.destroy_entity. rewrite He.
  eexists.
  match goal with
  | |- ∃ em2 em3, Val tt ?em1 = _ ∧ _ =>
      destruct (create_many_prefix (EntityManager.available_entities_ em)
                  [e] em1 eq_refl) as (em2 & Hrun & Hq & Hs)
  end.
  exists em2. eexists. split; [reflexivity|]. split; [exact Hrun|].
  unfold EntityManager.create_entity. rewrite Hq.
  split; [reflexivity|]. split; [reflexivity|].
  unfold signature_of, slot. simpl. rewrite Hs. simpl.
  by rewrite lookup_insert_eq.
Qed.

Lemma destroyed_id_recycled_last_witness :
  2 < MAX_ENTITIES ∧
  ∃ em1 em2 em3,
    EntityManager.destroy_entity 2 EntityManager.new = Val tt em1 ∧
    create_many
      (length (EntityManager.available_entities_ EntityManager.new)) em1
      = Val (EntityManager.available_entities_ EntityManager.new) em2 ∧
    EntityManager.create_entity em2 = Val 2 em3.
Proof.
  assert (H : 2 < MAX_ENTITIES) by (vm_compute; reflexivity).
  split; [exact H|].
  destruct (destroyed_id_recycled_last 2 EntityManager.new H)
    as (em1 & em2 & em3 & H1 & H2 & H3 & _).
  exists em1, em2, em3. split; [exact H1|]. split; [exact H2 | exact H3].
Defined.

(** ** SystemManager: what a signature change does *)

(** X4: [entity_signature_changed(e, sig)] always returns.  It registers
    and unregisters no system, leaves every system's required signature as
    it was, puts [e] in exactly the systems whose required signature [sig]
    covers, and changes no other entity's membership. *)
Theorem entity_signature_changed_resyncs (e : Entity) (sig : Signature)
    (sm : SystemManager.t) :
  ∃ sm',
    SystemManager.entity_signature_changed e sig sm = Val tt sm' ∧
    (∀ name, is_Some (SystemManager.systems_ sm' !! name)
             ↔ is_Some (SystemManager.systems_ sm !! name)) ∧
    (∀ name, required sm' name = required sm name) ∧
    (∀ name system',
       SystemManager.systems_ sm' !! name = Some system' ->
       e ∈ System.entities_ system'
       ↔ Bitset.covers sig (required sm name) = true) ∧
    (∀ name system system' e',
       e' ≠ e ->
       SystemManager.systems_ sm !! name = Some system ->
       SystemManager.systems_ sm' !! name = Some system' ->
       e' ∈ System.entities_ system' ↔ e' ∈ System.entities_ system).
Proof.
  destruct (entity_signature_changed_spec e sig sm)
    as (sm' & Hrun & Hsys & Hreq & _).
  exists sm'. split; [done|]. split; [|split; [done|split]].
  - intros name. rewrite Hsys. apply fmap_is_Some.
  - intros name system'. rewrite Hsys.
    destruct (SystemManager.systems_ sm !! name) as [s|]; [|done].
    simpl. intros Heq. injection Heq as <-. unfold rematch.
    destruct (Bitset.covers sig _); simpl.
    + rewrite elem_of_union, elem_of_singleton. tauto.
    + rewrite elem_of_difference, elem_of_singleton. split; [tauto|done].
  - intros name system system' e' Hne Hs. rewrite Hsys, Hs. simpl.
    intros Heq. injection Heq as <-. unfold rematch.
    destruct (Bitset.covers sig _); simpl.
    + rewrite elem_of_union, elem_of_singleton. tauto.
    + rewrite elem_of_difference, elem_of_singleton. tauto.
Qed.

Lemma rematch_twice (e : Entity) (sig req : Signature) (s : System.t) :
  rematch e sig req (rematch e sig req s) = rematch e sig req s.
Proof.
  unfold rematch. destruct (Bitset.covers sig req); destruct s as [es];
    unfold System.insert, System.erase; simpl; f_equal;
    apply set_eq; intros x.
  - rewrite !elem_of_union. tauto.
  - rewrite !elem_of_difference. tauto.
Qed.

Lemma manager_eq (sm1 sm2 : SystemManager.t) :
  (∀ k, SystemManager.signatures_ sm1 !! k
        = SystemManager.signatures_ sm2 !! k) ->
  (∀ k, SystemManager.systems_ sm1 !! k = SystemManager.systems_ sm2 !! k) ->
  sm1 = sm2.
Proof.
  destruct sm1, sm2. simpl. intros H1 H2. f_equal; by apply map_eq.
Qed.

(** X5: telling the systems of the same signature a second time changes
    nothing: the manager is exactly as the first call left it. *)
Theorem entity_signature_changed_idempotent (e : Entity) (sig : Signature)
    (sm sm1 : SystemManager.t) :
  SystemManager.entity_signature_changed e sig sm = Val tt sm1 ->
  SystemManager.entity_signature_changed e sig sm1 = Val tt sm1.
Proof.
  intros H1.
  destruct (entity_signature_changed_spec e sig sm)
    as (sm1' & Hrun1 & Hsys1 & Hreq1 & Hsig1).
  rewrite H1 in Hrun1. injection Hrun1 as <-.
  destruct (entity_signature_changed_spec e sig sm1)
    as (sm2 & Hrun2 & Hsys2 & Hreq2 & Hsig2).
  rewrite Hrun2. f_equal. apply manager_eq; intros k.
  - rewrite Hsig2, Hsys1, Hsig1.
    destruct (SystemManager.signatures_ sm !! k); [done|].
    by destruct (SystemManager.systems_ sm !! k).
  - rewrite Hsys2, Hreq1, Hsys1.
    destruct (SystemManager.systems_ sm !! k); [|done].
    simpl. by rewrite rematch_twice.
Qed.

Lemma entity_signature_changed_idempotent_witness :
  ∃ sm1,
    SystemManager.entity_signature_changed 3 7 physics_manager = Val tt sm1 ∧
    SystemManager.entity_signature_changed 3 7 sm1 = Val tt sm1.
Proof.
  eexists.
  match goal with |- ?A ∧ _ => assert (H : A) by reflexivity end.
  split; [exact H|].
  exact (entity_signature_changed_idempotent 3 7 physics_manager _ H).
Defined.

(** X6: once an entity's signature change has been announced while a
    registered system had no signature, the empty signature is stored for
    that system, and any later [set_signature] for it is ignored: the
    system keeps matching every entity. *)
Theorem late_set_signature_ignored (type_name : TypeName)
    (system : System.t) (e : Entity) (sig late : Signature)
    (sm : SystemManager.t) :
  SystemManager.systems_ sm !! type_name = Some system ->
  SystemManager.signatures_ sm !! type_name = None ->
  ∃ sm1,
    SystemManager.entity_signature_changed e sig sm = Val tt sm1 ∧
    SystemManager.set_signature type_name late sm1 = Val tt sm1 ∧
    required sm1 type_name = Bitset.empty ∧
    ∀ e' sig', ∃ sm2 system2,
      SystemManager.entity_signature_changed e' sig' sm1 = Val tt sm2 ∧
      SystemManager.systems_ sm2 !! type_name = Some system2 ∧
      e' ∈ System.entities_ system2.
Proof.
  intros Hsys Hsig.
  destruct (entity_signature_changed_spec e sig sm)
    as (sm1 & Hrun & Hsys1 & Hreq1 & Hsig1).
  exists sm1. split; [done|].
  assert (Hstored : SystemManager.signatures_ sm1 !! type_name
                    = Some Bitset.empty)
    by (by rewrite Hsig1, Hsig, Hsys).
  assert (Hreq : required sm1 type_name = Bitset.empty)
    by (unfold required; by rewrite Hstored).
  split.
  { unfold SystemManager.set_signature.
    rewrite (emplace_present _ _ _ _ Hstored). by destruct sm1. }
  split; [done|]. intros e' sig'.
  destruct (entity_signature_changed_spec e' sig' sm1)
    as (sm2 & Hrun2 & Hsys2 & _).
  exists sm2, (rematch e' sig' Bitset.empty (rematch e sig Bitset.empty system)).
  split; [done|]. split.
  - rewrite Hsys2, Hsys1, Hsys, Hreq. simpl. do 3 f_equal.
    unfold required. by rewrite Hsig.
  - unfold rematch at 1. unfold Bitset.covers, Bitset.empty.
    rewrite N.land_0_r. simpl. rewrite elem_of_union, elem_of_singleton.
    by left.
Qed.

Lemma late_set_signature_ignored_witness :
  SystemManager.systems_ render_manager !! "Render" = Some System.new ∧
  SystemManager.signatures_ render_manager !! "Render" = None ∧
  ∃ sm1,
    SystemManager.entity_signature_changed 0 1 render_manager = Val tt sm1 ∧
    SystemManager.set_signature "Render" 12 sm1 = Val tt sm1.
Proof.
  assert (H1 : SystemManager.systems_ render_manager !! "Render"
               = Some System.new) by (vm_compute; reflexivity).
  assert (H2 : SystemManager.signatures_ render_manager !! "Render" = None)
    by (vm_compute; reflexivity).
  split; [exact H1|]. split; [exact H2|].
  destruct (late_set_signature_ignored "Render" System.new 0 1 12
              render_manager H1 H2) as (sm1 & Ha & Hb & _).
  exists sm1. split; [exact Ha | exact Hb].
Defined.

(** ** ComponentArray: the packed array at work *)

Section PackedArray.
Context {T : Type} `{!Component T}.
Implicit Types (a : ComponentArray.t T) (e : Entity) (v : T).

(** X7: inserting data for an entity that has none, into a dense array
    that is not full, returns; the array stays dense and grows by exactly
    one, the entity reads back the value inserted and every entity that
    had data reads what it read before.  Into an array holding
    MAX_ENTITIES entries the insert writes past the end. *)
Theorem insert_data_new_entity e v a :
  dense a ->
  ComponentArray.entity_to_index_map_ a !! e = None ->
  ComponentArray.size_ a < MAX_ENTITIES ->
  ∃ a',
    ComponentArray.insert_data e v a = Val tt a' ∧
    dense a' ∧
    ComponentArray.size_ a' = ComponentArray.size_ a + 1 ∧
    ComponentArray.get_data e a' = Val v a' ∧
    (∀ e' i',
       ComponentArray.entity_to_index_map_ a !! e' = Some i' ->
       ComponentArray.get_data e' a
         = Val (slot value_init (ComponentArray.component_array_ a) i') a ∧
       ComponentArray.get_data e' a'
         = Val (slot value_init (ComponentArray.component_array_ a) i') a') ∧
    ∀ full, MAX_ENTITIES <= ComponentArray.size_ full ->
      ComponentArray.insert_data e v full = Undefined OutOfBounds.
Proof.
  intros D He Hsz. destruct (insert_data_returns e v a Hsz) as [a' Hins].
  exists a'. split; [done|].
  pose proof (insert_data_dense e v a a' D He Hins) as D'.
  split; [done|]. split.
  { apply insert_data_inv in Hins as [_ ->]. simpl.
    pose proof MAX_ENTITIES_small as [_ H64]. apply incr_succ. lia. }
  split; [by eapply insert_then_get|]. split.
  - intros e' i' He'.
    pose proof (dense_index_lt a e' i' D He') as Hi'.
    pose proof (dense_size a D) as Hmax.
    split; [apply get_data_present; [done|lia]|].
    apply insert_data_inv in Hins as [_ ->].
    assert (Hne : e ≠ e') by congruence.
    erewrite get_data_present.
    + simpl. unfold slot. rewrite lookup_insert_ne; [done|lia].
    + simpl. by rewrite lookup_insert_ne.
    + lia.
  - intros full Hfull. unfold ComponentArray.insert_data.
    apply N.ltb_ge in Hfull. by rewrite Hfull.
Qed.

Lemma insert_remove_round_trip e v a :
  dense a ->
  ComponentArray.entity_to_index_map_ a !! e = None ->
  ComponentArray.size_ a < MAX_ENTITIES ->
  ∃ a1 a2,
    ComponentArray.insert_data e v a = Val tt a1 ∧
    ComponentArray.remove_data e a1 = Val tt a2 ∧
    ComponentArray.entity_to_index_map_ a2
      = ComponentArray.entity_to_index_map_ a ∧
    ComponentArray.index_to_entity_map_ a2
      = ComponentArray.index_to_entity_map_ a ∧
    ComponentArray.size_ a2 = ComponentArray.size_ a ∧
    ComponentArray.component_array_ a2
      = <[ComponentArray.size_ a := v]> (ComponentArray.component_array_ a) ∧
    dense a2.
Proof.
  intros D He Hsz. destruct (insert_data_returns e v a Hsz) as [a1 Hins].
  pose proof (insert_data_dense e v a a1 D He Hins) as D1.
  pose proof MAX_ENTITIES_small as [_ H64].
  apply insert_data_inv in Hins as Hinv. destruct Hinv as [_ Ha1].
  assert (He1 : ComponentArray.entity_to_index_map_ a1 !! e
                = Some (ComponentArray.size_ a))
    by (rewrite Ha1; simpl; apply lookup_insert_eq).
  destruct (remove_data_dense e _ a1 D1 He1) as (last & eL & Hlast & HeL & Hrm).
  assert (last = ComponentArray.size_ a) as ->.
  { rewrite Ha1 in Hlast. simpl in Hlast. rewrite incr_succ in Hlast; lia. }
  assert (eL = e) as ->.
  { rewrite Ha1 in HeL. simpl in HeL. rewrite lookup_insert_eq in HeL.
    congruence. }
  assert (Hfree : ComponentArray.index_to_entity_map_ a
                    !! ComponentArray.size_ a = None).
  { destruct (ComponentArray.index_to_entity_map_ a
                !! ComponentArray.size_ a) as [x|] eqn:E; [|done].
    apply (dense_entity a D) in E as [_ ?]. lia. }
  exists a1, (swapped_out e (ComponentArray.size_ a) (ComponentArray.size_ a)
                e a1).
  split; [done|]. split; [done|].
  assert (Hmaps :
    ComponentArray.entity_to_index_map_
      (swapped_out e (ComponentArray.size_ a) (ComponentArray.size_ a) e a1)
      = ComponentArray.entity_to_index_map_ a ∧
    ComponentArray.index_to_entity_map_
      (swapped_out e (ComponentArray.size_ a) (ComponentArray.size_ a) e a1)
      = ComponentArray.index_to_entity_map_ a).
  { rewrite Ha1. simpl.
    rewrite !insert_insert_eq, !delete_insert_eq, !delete_id by done. done. }
  destruct Hmaps as [Hm1 Hm2].
  split; [done|]. split; [done|]. split; [done|]. split.
  { rewrite Ha1. simpl. unfold slot. rewrite lookup_insert_eq. simpl.
    by rewrite insert_insert_eq. }
  split.
  - simpl. apply (dense_size a D).
  - rewrite Hm1, Hm2. apply (dense_index a D).
  - rewrite Hm1, Hm2. simpl. apply (dense_entity a D).
  - rewrite Hm2. simpl. apply (dense_packed a D).
Qed.

(** X8: on a dense array, inserting data for an entity that has none and
    removing it again restores both index maps and the size; the packed
    slots below the size hold what they held, the value inserted stays
    behind in the first free slot. *)
Theorem insert_then_remove_restores e v a :
  dense a ->
  ComponentArray.entity_to_index_map_ a !! e = None ->
  ComponentArray.size_ a < MAX_ENTITIES ->
  ∃ a1 a2,
    ComponentArray.insert_data e v a = Val tt a1 ∧
    ComponentArray.remove_data e a1 = Val tt a2 ∧
    ComponentArray.entity_to_index_map_ a2
      = ComponentArray.entity_to_index_map_ a ∧
    ComponentArray.index_to_entity_map_ a2
      = ComponentArray.index_to_entity_map_ a ∧
    ComponentArray.size_ a2 = ComponentArray.size_ a ∧
    ComponentArray.component_array_ a2
      = <[ComponentArray.size_ a := v]> (ComponentArray.component_array_ a) ∧
    dense a2.
Proof. apply insert_remove_round_trip. Qed.

(** X9: [get_data] reads without changing anything when the entity has an
    entry.  For an entity without one, in a dense array, it reports
    nothing and returns whatever packed slot 0 holds, and it enters the
    entity at index 0, after which the array is no longer dense; if the
    array was empty, telling it that this entity is destroyed then reads
    the array out of bounds. *)
Theorem get_data_absent_corrupts e a :
  dense a ->
  (∀ i, ComponentArray.entity_to_index_map_ a !! e = Some i ->
        ComponentArray.get_data e a
        = Val (slot value_init (ComponentArray.component_array_ a) i) a) ∧
  (ComponentArray.entity_to_index_map_ a !! e = None ->
   ∃ a',
     ComponentArray.get_data e a
       = Val (slot value_init (ComponentArray.component_array_ a) 0) a' ∧
     ¬ reports_error (ComponentArray.get_data e a) ∧
     ComponentArray.entity_to_index_map_ a' !! e = Some 0 ∧
     ¬ dense a' ∧
     (ComponentArray.size_ a = 0 ->
      ComponentArray.entity_destroyed e a' = Undefined OutOfBounds)).
Proof.
  intros D. split.
  - intros i He. apply get_data_present; [done|].
    pose proof (dense_index_lt a e i D He). pose proof (dense_size a D). lia.
  - intros He. eexists.
    assert (Hget : ComponentArray.get_data e a
              = Val (slot value_init (ComponentArray.component_array_ a) 0)
                  {| ComponentArray.component_array_ :=
                       ComponentArray.component_array_ a;
                     ComponentArray.entity_to_index_map_ :=
                       <[e := 0]> (ComponentArray.entity_to_index_map_ a);
                     ComponentArray.index_to_entity_map_ :=
                       ComponentArray.index_to_entity_map_ a;
                     ComponentArray.size_ := ComponentArray.size_ a |}).
    { unfold ComponentArray.get_data, subscript. by rewrite He. }
    split; [exact Hget|]. split.
    { rewrite Hget. intros (x & s & H). discriminate. }
    simpl. split; [apply lookup_insert_eq|]. split.
    + intros D'. pose proof (dense_index _ D' e 0) as H. simpl in H.
      specialize (H (lookup_insert_eq _ _ _)).
      apply (dense_entity a D) in H as [H _]. congruence.
    + intros Hsz. unfold ComponentArray.entity_destroyed. simpl.
      rewrite lookup_insert_eq. unfold ComponentArray.remove_data. simpl.
      unfold subscript. rewrite lookup_insert_eq, Hsz. reflexivity.
Qed.

(** X10: [remove_data] for an entity without an entry, in a dense array.
    On an empty array it reads the array out of bounds.  Otherwise it
    returns and drops the last packed slot all the same: slot 0 is
    overwritten with the last slot's value, so the entity that owned slot
    0 and the entity that owned the last slot both read the last slot's
    old value, and the array is no longer dense. *)
Theorem remove_data_absent_clobbers e a :
  dense a ->
  ComponentArray.entity_to_index_map_ a !! e = None ->
  (ComponentArray.size_ a = 0 ->
   ComponentArray.remove_data e a = Undefined OutOfBounds) ∧
  ∀ last e0 eL,
    ComponentArray.size_ a = last + 1 ->
    ComponentArray.index_to_entity_map_ a !! 0 = Some e0 ->
    ComponentArray.index_to_entity_map_ a !! last = Some eL ->
    ∃ a',
      ComponentArray.remove_data e a = Val tt a' ∧
      ComponentArray.size_ a' = last ∧
      ComponentArray.get_data e0 a'
        = Val (slot value_init (ComponentArray.component_array_ a) last) a' ∧
      ComponentArray.get_data eL a'
        = Val (slot value_init (ComponentArray.component_array_ a) last) a' ∧
      ¬ dense a'.
Proof.
  intros D He. split.
  { intros Hsz. unfold ComponentArray.remove_data, subscript.
    rewrite He, Hsz. reflexivity. }
  intros last e0 eL Hsz He0 HeL.
  pose proof (dense_size a D) as Hmax.
  pose proof MAX_ENTITIES_small as [_ H64].
  pose proof (dense_entity a D 0 e0 He0) as [He0i _].
  pose proof (dense_entity a D last eL HeL) as [HeLi _].
  assert (Hne0 : e0 ≠ e) by congruence.
  assert (HneL : eL ≠ e) by congruence.
  assert (Hdecr : decr 64 (ComponentArray.size_ a) = last)
    by (rewrite decr_pred; lia).
  assert (Hrm : ComponentArray.remove_data e a = Val tt
    {| ComponentArray.component_array_ :=
         <[0 := slot value_init (ComponentArray.component_array_ a) last]>
           (ComponentArray.component_array_ a);
       ComponentArray.entity_to_index_map_ :=
         delete e (<[eL := 0]>
                     (<[e := 0]> (ComponentArray.entity_to_index_map_ a)));
       ComponentArray.index_to_entity_map_ :=
         delete last (<[0 := eL]> (ComponentArray.index_to_entity_map_ a));
       ComponentArray.size_ := last |}).
  { unfold ComponentArray.remove_data. unfold subscript at 1. rewrite He.
    rewrite Hdecr. rewrite (subscript_present _ _ _ _ HeL).
    assert (H1 : (0 <? MAX_ENTITIES) = true) by done.
    assert (H2 : (last <? MAX_ENTITIES) = true) by (apply N.ltb_lt; lia).
    by rewrite H1, H2. }
  eexists. split; [exact Hrm|]. split; [done|].
  assert (Hslot0 : ∀ x, x ≠ e ->
    (x = e0 ∨ x = eL) ->
    ComponentArray.entity_to_index_map_
      {| ComponentArray.component_array_ :=
           <[0 := slot value_init (ComponentArray.component_array_ a) last]>
             (ComponentArray.component_array_ a);
         ComponentArray.entity_to_index_map_ :=
           delete e (<[eL := 0]>
                       (<[e := 0]> (ComponentArray.entity_to_index_map_ a)));
         ComponentArray.index_to_entity_map_ :=
           delete last (<[0 := eL]> (ComponentArray.index_to_entity_map_ a));
         ComponentArray.size_ := last |} !! x = Some 0).
  { intros x Hx Hcase. simpl. rewrite lookup_delete_ne by done.
    rewrite lookup_insert. case_decide; [done|].
    rewrite lookup_insert_ne by done. destruct Hcase as [->| ->]; done. }
  split; [|split].
  - erewrite get_data_present; [|by apply Hslot0; [|left]|done].
    simpl. unfold slot at 1. by rewrite lookup_insert_eq.
  - erewrite get_data_present; [|by apply Hslot0; [|right]|done].
    simpl. unfold slot at 1. by rewrite lookup_insert_eq.
  - intros D'. pose proof (dense_index _ D' e0 0 (Hslot0 e0 Hne0 (or_introl eq_refl)))
      as H.
    simpl in H. rewrite lookup_delete in H. case_decide as Hl; [done|].
    rewrite lookup_insert_eq in H. injection H as ->.
    assert (last = 0) by congruence. done.
Qed.

(** X11: in a dense array [size_] is the number of entities that have an
    entry, and also the number of packed slots in use. *)
Theorem dense_size_counts a :
  dense a ->
  size (ComponentArray.entity_to_index_map_ a)
    = N.to_nat (ComponentArray.size_ a) ∧
  size (ComponentArray.index_to_entity_map_ a)
    = N.to_nat (ComponentArray.size_ a).
Proof.
  intros D.
  assert (Hi2e : size (ComponentArray.index_to_entity_map_ a)
                 = N.to_nat (ComponentArray.size_ a)).
  { rewrite <- (size_dom (D := gset N)).
    assert (Hdom : dom (ComponentArray.index_to_entity_map_ a)
              = list_to_set (C := gset N)
                  (N.of_nat <$> seq 0 (N.to_nat (ComponentArray.size_ a)))).
    { apply set_eq. intros i.
      rewrite elem_of_dom, elem_of_list_to_set, list_elem_of_fmap. split.
      - intros [x Hx]. apply (dense_entity a D) in Hx as [_ Hlt].
        exists (N.to_nat i). rewrite N2Nat.id. split; [done|].
        apply elem_of_seq. lia.
      - intros (n & -> & Hn). apply elem_of_seq in Hn.
        apply (dense_packed a D). lia. }
    rewrite Hdom, size_list_to_set, length_fmap, length_seq; [done|].
    apply NoDup_fmap_2; [intros ??; apply Nat2N.inj | apply NoDup_seq]. }
  split; [|done]. rewrite <- Hi2e, <- !length_map_to_list.
  rewrite <- (length_fmap (λ p : Entity * N, (p.2, p.1))).
  apply Permutation_length, NoDup_Permutation.
  - apply NoDup_fmap_2; [|apply NoDup_map_to_list].
    intros [x1 y1] [x2 y2]. simpl. congruence.
  - apply NoDup_map_to_list.
  - intros [i e]. rewrite list_elem_of_fmap, elem_of_map_to_list. split.
    + intros ([e' i'] & Heq & Hin). simpl in Heq. injection Heq as -> ->.
      apply elem_of_map_to_list in Hin. by apply (dense_index a D).
    + intros Hie. exists (e, i). split; [done|].
      apply elem_of_map_to_list. by apply (dense_entity a D).
Qed.
End PackedArray.

Lemma three_array_reached :
  three_setup ComponentArray.new = Val tt three_array ∧
  dense three_array ∧
  ComponentArray.entity_to_index_map_ three_array !! 5 = None ∧
  ComponentArray.size_ three_array < MAX_ENTITIES.
Proof.
  split; [vm_compute; reflexivity|].
  split; [apply dense_check_sound; vm_compute; reflexivity|].
  split; vm_compute; reflexivity.
Qed.

Lemma insert_data_new_entity_witness :
  dense three_array ∧
  ComponentArray.entity_to_index_map_ three_array !! 5 = None ∧
  ComponentArray.size_ three_array < MAX_ENTITIES ∧
  ∃ a', ComponentArray.insert_data 5 40 three_array = Val tt a' ∧ dense a'.
Proof.
  assert (H1 : dense three_array)
    by (apply dense_check_sound; vm_compute; reflexivity).
  assert (H2 : ComponentArray.entity_to_index_map_ three_array !! 5 = None)
    by (vm_compute; reflexivity).
  assert (H3 : ComponentArray.size_ three_array < MAX_ENTITIES)
    by (vm_compute; reflexivity).
  split; [exact H1|]. split; [exact H2|]. split; [exact H3|].
  destruct (insert_data_new_entity 5 40 three_array H1 H2 H3)
    as (a' & Ha & Hb & _).
  exists a'. split; [exact Ha | exact Hb].
Defined.

Lemma insert_then_remove_restores_witness :
  dense three_array ∧
  ComponentArray.entity_to_index_map_ three_array !! 5 = None ∧
  ComponentArray.size_ three_array < MAX_ENTITIES ∧
  ∃ a1 a2,
    ComponentArray.insert_data 5 40 three_array = Val tt a1 ∧
    ComponentArray.remove_data 5 a1 = Val tt a2 ∧
    ComponentArray.entity_to_index_map_ a2
      = ComponentArray.entity_to_index_map_ three_array.
Proof.
  assert (H1 : dense three_array)
    by (apply dense_check_sound; vm_compute; reflexivity).
  assert (H2 : ComponentArray.entity_to_index_map_ three_array !! 5 = None)
    by (vm_compute; reflexivity).
  assert (H3 : ComponentArray.size_ three_array < MAX_ENTITIES)
    by (vm_compute; reflexivity).
  split; [exact H1|]. split; [exact H2|]. split; [exact H3|].
  destruct (insert_then_remove_restores 5 40 three_array H1 H2 H3)
    as (a1 & a2 & Ha & Hb & Hc & _).
  exists a1, a2. split; [exact Ha|]. split; [exact Hb | exact Hc].
Defined.

Lemma get_data_absent_corrupts_witness :
  dense three_array ∧
  ComponentArray.entity_to_index_map_ three_array !! 5 = None ∧
  ∃ a', ComponentArray.get_data 5 three_array = Val 10 a' ∧ ¬ dense a'.
Proof.
  assert (H1 : dense three_array)
    by (apply dense_check_sound; vm_compute; reflexivity).
  assert (H2 : ComponentArray.entity_to_index_map_ three_array !! 5 = None)
    by (vm_compute; reflexivity).
  split; [exact H1|]. split; [exact H2|].
  destruct (proj2 (get_data_absent_corrupts 5 three_array H1) H2)
    as (a' & Ha & _ & _ & Hb & _).
  exists a'. split; [exact Ha | exact Hb].
Defined.

Lemma remove_data_absent_clobbers_witness :
  dense three_array ∧
  ComponentArray.entity_to_index_map_ three_array !! 5 = None ∧
  ∃ a',
    ComponentArray.remove_data 5 three_array = Val tt a' ∧
    ComponentArray.get_data 7 a' = Val 30 a' ∧
    ComponentArray.get_data 9 a' = Val 30 a'.
Proof.
  assert (H1 : dense three_array)
    by (apply dense_check_sound; vm_compute; reflexivity).
  assert (H2 : ComponentArray.entity_to_index_map_ three_array !! 5 = None)
    by (vm_compute; reflexivity).
  split; [exact H1|]. split; [exact H2|].
  assert (H3 : ComponentArray.size_ three_array = 2 + 1)
    by (vm_compute; reflexivity).
  assert (H4 : ComponentArray.index_to_entity_map_ three_array !! 0 = Some 7)
    by (vm_compute; reflexivity).
  assert (H5 : ComponentArray.index_to_entity_map_ three_array !! 2 = Some 9)
    by (vm_compute; reflexivity).
  destruct (proj2 (remove_data_absent_clobbers 5 three_array H1 H2)
              2 7 9 H3 H4 H5) as (a' & Ha & _ & Hb & Hc & _).
  exists a'. split; [exact Ha|]. split; [exact Hb | exact Hc].
Defined.

Lemma dense_size_counts_witness :
  dense three_array ∧
  size (ComponentArray.entity_to_index_map_ three_array) = 3%nat.
Proof.
  assert (H1 : dense three_array)
    by (apply dense_check_sound; vm_compute; reflexivity).
  split; [exact H1|].
  exact (proj1 (dense_size_counts three_array H1)).
Defined.

(** ** ComponentManager: component type ids *)

Section TypeIds.
Context {T : Type} `{!Component T}.
Implicit Types (cm : ComponentManager.t T) (name : TypeName).

Lemma incr_mod (w n k : N) : incr w ((n + k) mod 2 ^ w) = (n + (k + 1)) mod 2 ^ w.
Proof.
  unfold incr. rewrite N.Div0.add_mod_idemp_l. f_equal. lia.
Qed.

Lemma iter_shift (f : N -> N) (i : nat) (x : N) :
  N.iter (N.of_nat i) f (f x) = N.iter (N.of_nat (S i)) f x.
Proof. by rewrite Nat2N.inj_succ, N.iter_succ_r. Qed.

Lemma register_all_spec (names : list TypeName) : ∀ cm,
  ∃ cm',
    register_all names cm = Val tt cm' ∧
    ComponentManager.next_component_type cm'
      = N.iter (N.of_nat (length names)) (incr 8)
          (ComponentManager.next_component_type cm) ∧
    (∀ name,
       ComponentManager.component_types_ cm' !! name =
       match ComponentManager.component_types_ cm !! name with
       | Some ty => Some ty
       | None =>
           (λ i, N.iter (N.of_nat i) (incr 8)
                   (ComponentManager.next_component_type cm))
             <$> first_index name names
       end) ∧
    (∀ name,
       ComponentManager.component_arrays_ cm' !! name =
       match ComponentManager.component_arrays_ cm !! name with
       | Some a => Some a
       | None => if first_index name names is Some _
                 then Some ComponentArray.new else None
       end).
Proof.
  induction names as [|x names IH]; intros cm.
  - exists cm. split; [done|]. split; [done|].
    split; intros name; simpl; by destruct (_ !! name).
  - cbn [register_all first_index length]. unfold bind.
    unfold ComponentManager.register_component at 1.
    match goal with
    | |- context [register_all names ?cm1] =>
        destruct (IH cm1) as (cm' & Hrun & Hnext & Htypes & Harrs)
    end.
    exists cm'. split; [done|].
    cbn [ComponentManager.component_types_
         ComponentManager.component_arrays_
         ComponentManager.next_component_type] in Hnext, Htypes, Harrs.
    split; [|split].
    + rewrite Hnext. by rewrite iter_shift.
    + intros name. rewrite Htypes. unfold emplace.
      destruct (ComponentManager.component_types_ cm !! x) as [tx|] eqn:Ex.
      * destruct (ComponentManager.component_types_ cm !! name) eqn:En;
          [done|].
        case_decide as Hxn; [congruence|].
        destruct (first_index name names) as [i|]; [|done].
        change (Some (N.iter (N.of_nat i) (incr 8)
                        (incr 8 (ComponentManager.next_component_type cm)))
                = Some (N.iter (N.of_nat (S i)) (incr 8)
                          (ComponentManager.next_component_type cm))).
        by rewrite iter_shift.
      * rewrite lookup_insert. case_decide as Hxn.
        { subst x. by rewrite Ex. }
        destruct (ComponentManager.component_types_ cm !! name); [done|].
        destruct (first_index name names) as [i|]; [|done].
        change (Some (N.iter (N.of_nat i) (incr 8)
                        (incr 8 (ComponentManager.next_component_type cm)))
                = Some (N.iter (N.of_nat (S i)) (incr 8)
                          (ComponentManager.next_component_type cm))).
        by rewrite iter_shift.
    + intros name. rewrite Harrs. unfold emplace.
      destruct (ComponentManager.component_arrays_ cm !! x) as [ax|] eqn:Ex.
      * destruct (ComponentManager.component_arrays_ cm !! name) eqn:En;
          [done|].
        case_decide as Hxn; [congruence|].
        by destruct (first_index name names).
      * rewrite lookup_insert. case_decide as Hxn.
        { subst x. by rewrite Ex. }
        destruct (ComponentManager.component_arrays_ cm !! name); [done|].
        by destruct (first_index name names).
Qed.

Lemma iter_incr (w : N) (i : nat) :
  N.iter (N.of_nat i) (incr w) 0 = N.of_nat i mod 2 ^ w.
Proof.
  induction i as [|i IH].
  - simpl. by rewrite N.Div0.mod_0_l.
  - rewrite Nat2N.inj_succ, N.iter_succ, IH.
    rewrite <- (N.add_0_l (N.of_nat i)) at 1. rewrite incr_mod.
    f_equal. lia.
Qed.

(** X12: on a fresh manager, after [register_component] has been called
    for each name of a list in turn, a name's component type is the
    position of its first registration in the list, modulo 256, and its
    array is the empty one made then; a name that is not in the list has
    no type and no array.  A repeated registration changes neither the
    type nor the array of the name but uses up the next type id. *)
Theorem register_all_ids (names : list TypeName) :
  ∃ cm : ComponentManager.t T,
    register_all names ComponentManager.new = Val tt cm ∧
    ComponentManager.next_component_type cm
      = N.of_nat (length names) mod 2 ^ 8 ∧
    ∀ name,
      ComponentManager.component_types_ cm !! name
        = (λ i, N.of_nat i mod 2 ^ 8) <$> first_index name names ∧
      ComponentManager.component_arrays_ cm !! name
        = (λ _, ComponentArray.new) <$> first_index name names.
Proof.
  destruct (register_all_spec names ComponentManager.new)
    as (cm & Hrun & Hnext & Htypes & Harrs).
  exists cm. split; [done|]. simpl in *. split.
  - rewrite Hnext. apply iter_incr.
  - intros name. rewrite Htypes, Harrs, !lookup_empty. split.
    + destruct (first_index name names); simpl; [|done].
      by rewrite iter_incr.
    + by destruct (first_index name names).
Qed.

(** X13: [get_component_type] for a name that has no type yet returns 0,
    the type of the first component ever registered, and enters the name
    with that type: registering the name afterwards gives it an array but
    leaves its type at 0. *)
Theorem get_component_type_unregistered name cm :
  ComponentManager.component_types_ cm !! name = None ->
  ∃ cm1,
    ComponentManager.get_component_type name cm = Val 0 cm1 ∧
    ComponentManager.component_types_ cm1 !! name = Some 0 ∧
    ComponentManager.component_arrays_ cm1
      = ComponentManager.component_arrays_ cm ∧
    ∃ cm2,
      ComponentManager.register_component name cm1 = Val tt cm2 ∧
      is_Some (ComponentManager.component_arrays_ cm2 !! name) ∧
      ComponentManager.get_component_type name cm2 = Val 0 cm2.
Proof.
  intros Hty.
  assert (H1 : ComponentManager.get_component_type name cm
               = Val 0 (types_entered name cm)).
  { unfold ComponentManager.get_component_type, types_entered, subscript.
    by rewrite Hty. }
  exists (types_entered name cm). split; [exact H1|].
  assert (H2 : ComponentManager.component_types_ (types_entered name cm)
               !! name = Some 0).
  { rewrite types_entered_lookup. unfold type_of. by rewrite Hty. }
  split; [exact H2|]. split; [done|].
  unfold ComponentManager.register_component. eexists.
  split; [reflexivity|]. split.
  - cbn [ComponentManager.component_arrays_]. unfold emplace.
    destruct (ComponentManager.component_arrays_ (types_entered name cm)
                !! name) eqn:E; [by rewrite E|].
    by rewrite lookup_insert_eq.
  - apply get_component_type_entered.
    cbn [ComponentManager.component_types_].
    by rewrite (emplace_present _ _ _ _ H2).
Qed.
End TypeIds.

Lemma get_component_type_unregistered_witness :
  ComponentManager.component_types_
    (Coordinator.component_manager_ gravity_world) !! "Pixel" = None ∧
  ∃ cm1,
    ComponentManager.get_component_type "Pixel"
      (Coordinator.component_manager_ gravity_world) = Val 0 cm1 ∧
    ComponentManager.component_types_ cm1 !! "Pixel" = Some 0.
Proof.
  assert (H : ComponentManager.component_types_
                (Coordinator.component_manager_ gravity_world) !! "Pixel"
              = None) by (vm_compute; reflexivity).
  split; [exact H|].
  destruct (get_component_type_unregistered "Pixel" _ H)
    as (cm1 & Ha & Hb & _).
  exists cm1. split; [exact Ha | exact Hb].
Defined.

(** ** Coordinator: how add_component can end *)

Section AddOutcomes.
Context {T : Type} `{!Component T}.
Implicit Types (a : ComponentArray.t T) (cm : ComponentManager.t T)
  (c : Coordinator.t T) (e : Entity) (v : T) (name : TypeName).

Lemma add_component_stored name e v c a a' :
  ComponentManager.component_arrays_ (Coordinator.component_manager_ c)
    !! name = Some a ->
  ComponentArray.insert_data e v a = Val tt a' ->
  Coordinator.add_component name e v c
  = resign name e true
      {| Coordinator.component_manager_ :=
           ComponentManager.set_arrays
             (<[name := a']>
                (ComponentManager.component_arrays_
                   (Coordinator.component_manager_ c)))
             (Coordinator.component_manager_ c);
         Coordinator.entity_manager_ := Coordinator.entity_manager_ c;
         Coordinator.system_manager_ := Coordinator.system_manager_ c |}.
Proof.
  intros Ha Hins. rewrite add_component_unfold. unfold bind.
  unfold Coordinator.component_manager at 1. unfold zoom.
  unfold ComponentManager.add_component.
  by rewrite (get_component_array_run name _ _ a _ _ Ha Hins).
Qed.

(** X14: the ways [add_component<T>(e, v)] ends.  For a type that was
    never registered it calls through an empty pointer.  When T's array
    is full or [e] is past the range it indexes an array out of bounds.
    When T's type id does not fit the signature, [bitset::set] throws
    after the component has been stored: [get_component<T>(e)] then
    returns [v], while the entity's signature and every system's set are
    as before the call.  In every other case it returns. *)
Theorem add_component_outcomes name e v c :
  (ComponentManager.component_arrays_ (Coordinator.component_manager_ c)
     !! name = None ->
   Coordinator.add_component name e v c = Undefined NullPointer) ∧
  ∀ a,
    ComponentManager.component_arrays_ (Coordinator.component_manager_ c)
      !! name = Some a ->
    (MAX_ENTITIES <= ComponentArray.size_ a ∨ MAX_ENTITIES <= e ->
     Coordinator.add_component name e v c = Undefined OutOfBounds) ∧
    (ComponentArray.size_ a < MAX_ENTITIES -> e < MAX_ENTITIES ->
     MAX_COMPONENTS <= type_of (Coordinator.component_manager_ c) name ->
     ∃ c',
       Coordinator.add_component name e v c = Throw OutOfRange c' ∧
       Coordinator.get_component name e c' = Val v c' ∧
       Coordinator.entity_manager_ c' = Coordinator.entity_manager_ c ∧
       Coordinator.system_manager_ c' = Coordinator.system_manager_ c) ∧
    (ComponentArray.size_ a < MAX_ENTITIES -> e < MAX_ENTITIES ->
     type_of (Coordinator.component_manager_ c) name < MAX_COMPONENTS ->
     ∃ c', Coordinator.add_component name e v c = Val tt c').
Proof.
  split.
  { intros Hnone. rewrite add_component_unfold. unfold bind.
    unfold Coordinator.component_manager at 1. unfold zoom.
    unfold ComponentManager.add_component,
      ComponentManager.get_component_array.
    by rewrite Hnone. }
  intros a Ha. split; [|split].
  - intros Hcase.
    destruct (N.ltb_spec (ComponentArray.size_ a) MAX_ENTITIES) as [Hsz|Hsz].
    + destruct Hcase as [?|He]; [lia|].
      destruct (insert_data_returns e v a Hsz) as [a' Hins].
      rewrite (add_component_stored name e v c a a' Ha Hins), resign_eq.
      apply N.ltb_ge in He. by rewrite He.
    + rewrite add_component_unfold. unfold bind.
      unfold Coordinator.component_manager at 1. unfold zoom.
      unfold ComponentManager.add_component,
        ComponentManager.get_component_array, ComponentManager.on_array, zoom.
      rewrite Ha. unfold ComponentArray.insert_data.
      apply N.ltb_ge in Hsz. by rewrite Hsz.
  - intros Hsz He Hty.
    destruct (insert_data_returns e v a Hsz) as [a' Hins].
    rewrite (add_component_stored name e v c a a' Ha Hins), resign_eq.
    cbn [Coordinator.component_manager_ Coordinator.entity_manager_
         Coordinator.system_manager_].
    change (type_of (ComponentManager.set_arrays _ ?cm) name)
      with (type_of cm name).
    apply N.ltb_lt in He. apply N.ltb_ge in Hty. rewrite He, Hty.
    eexists. split; [reflexivity|]. split; [|done].
    pose proof (insert_then_get e v a a' Hins) as Hget.
    apply insert_data_inv in Hins as [_ Ha'].
    assert (He' : ComponentArray.entity_to_index_map_ a' !! e
                  = Some (ComponentArray.size_ a))
      by (rewrite Ha'; simpl; apply lookup_insert_eq).
    erewrite get_component_present; [| |exact He'|exact Hsz].
    + f_equal. rewrite Ha'. simpl. unfold slot.
      by rewrite lookup_insert_eq.
    + simpl. apply lookup_insert_eq.
  - intros Hsz He Hty. by apply (add_component_returns name e v c a).
Qed.
End AddOutcomes.

Lemma crowded_world_reached :
  crowded_setup Coordinator.init = Val 0 crowded_world ∧
  type_of (Coordinator.component_manager_ crowded_world) "Pixel" = 32.
Proof. split; vm_compute; reflexivity. Qed.

Lemma add_component_outcomes_witness :
  ∃ a c',
    ComponentManager.component_arrays_
      (Coordinator.component_manager_ crowded_world) !! "Pixel" = Some a ∧
    ComponentArray.size_ a < MAX_ENTITIES ∧
    0 < MAX_ENTITIES ∧
    MAX_COMPONENTS
      <= type_of (Coordinator.component_manager_ crowded_world) "Pixel" ∧
    Coordinator.add_component "Pixel" 0 9 crowded_world
      = Throw OutOfRange c' ∧
    Coordinator.get_component "Pixel" 0 c' = Val 9 c'.
Proof.
  assert (H1 : ComponentManager.component_arrays_
                 (Coordinator.component_manager_ crowded_world) !! "Pixel"
               = Some ComponentArray.new) by (vm_compute; reflexivity).
  assert (H2 : ComponentArray.size_ (ComponentArray.new (T := N))
               < MAX_ENTITIES) by (vm_compute; reflexivity).
  assert (H3 : 0 < MAX_ENTITIES) by (vm_compute; reflexivity).
  assert (H4 : MAX_COMPONENTS
               <= type_of (Coordinator.component_manager_ crowded_world)
                    "Pixel") by (vm_compute; discriminate).
  destruct (proj1 (proj2 (proj2 (add_component_outcomes "Pixel" 0 9
                                   crowded_world) _ H1)) H2 H3 H4)
    as (c' & Ha & Hb & _).
  exists ComponentArray.new, c'.
  repeat (split; [assumption|]). exact Hb.
Defined.

(** ** Coordinator: a mutation and the systems *)

Section Mutation.
Context {T : Type} `{!Component T}.
Implicit Types (a : ComponentArray.t T) (cm : ComponentManager.t T)
  (c : Coordinator.t T) (e : Entity) (v : T) (name : TypeName).

(** What a returning array method followed by the signature update has
    done, for a method that throws nothing. *)
Lemma resigned_val name e (val : bool) (m : M (ComponentArray.t T) unit)
    c c' :
  (Coordinator.component_manager
     (ComponentManager.get_component_array name m) ;;
   resign name e val) c = Val tt c' ->
  ∃ a a',
    ComponentManager.component_arrays_ (Coordinator.component_manager_ c)
      !! name = Some a ∧
    m a = Val tt a' ∧
    e < MAX_ENTITIES ∧
    type_of (Coordinator.component_manager_ c) name < MAX_COMPONENTS ∧
    c' = {| Coordinator.component_manager_ :=
              types_entered name
                (ComponentManager.set_arrays
                   (<[name := a']>
                      (ComponentManager.component_arrays_
                         (Coordinator.component_manager_ c)))
                   (Coordinator.component_manager_ c));
            Coordinator.entity_manager_ :=
              signature_stored e
                (with_bit (signature_of (Coordinator.entity_manager_ c) e)
                   (type_of (Coordinator.component_manager_ c) name) val)
                (Coordinator.entity_manager_ c);
            Coordinator.system_manager_ :=
              systems_told e
                (with_bit (signature_of (Coordinator.entity_manager_ c) e)
                   (type_of (Coordinator.component_manager_ c) name) val)
                (Coordinator.system_manager_ c) |}.
Proof.
  unfold bind.
  destruct (Coordinator.component_manager _ c) as [[] c1| |] eqn:E; [|done..].
  apply component_manager_val in E as (cm' & Hm & ->).
  apply get_component_array_val in Hm as (a & a' & Ha & Hrun & ->).
  rewrite resign_eq. simpl.
  destruct (e <? MAX_ENTITIES) eqn:He; [|done].
  change (type_of (ComponentManager.set_arrays _ ?cm) name)
    with (type_of cm name).
  destruct (_ <? MAX_COMPONENTS) eqn:Hty; [|done].
  intros [= <-]. exists a, a'.
  apply N.ltb_lt in He, Hty. done.
Qed.

(** The entity concerned is matched afresh, nothing else moves. *)
Lemma resigned_resyncs name e (val : bool)
    (m : M (ComponentArray.t T) unit) c c' :
  (Coordinator.component_manager
     (ComponentManager.get_component_array name m) ;;
   resign name e val) c = Val tt c' ->
  signature_of (Coordinator.entity_manager_ c') e
    = with_bit (signature_of (Coordinator.entity_manager_ c) e)
        (type_of (Coordinator.component_manager_ c) name) val ∧
  Bitset.test (signature_of (Coordinator.entity_manager_ c') e)
    (type_of (Coordinator.component_manager_ c) name) = val ∧
  (∀ ty, ty ≠ type_of (Coordinator.component_manager_ c) name ->
     Bitset.test (signature_of (Coordinator.entity_manager_ c') e) ty
     = Bitset.test (signature_of (Coordinator.entity_manager_ c) e) ty) ∧
  (∀ e', e' ≠ e ->
     signature_of (Coordinator.entity_manager_ c') e'
     = signature_of (Coordinator.entity_manager_ c) e') ∧
  EntityManager.available_entities_ (Coordinator.entity_manager_ c')
    = EntityManager.available_entities_ (Coordinator.entity_manager_ c) ∧
  (∀ system_name system',
     SystemManager.systems_ (Coordinator.system_manager_ c') !! system_name
       = Some system' ->
     e ∈ System.entities_ system'
     ↔ Bitset.covers (signature_of (Coordinator.entity_manager_ c') e)
         (required (Coordinator.system_manager_ c') system_name) = true) ∧
  (∀ system_name system system' e',
     e' ≠ e ->
     SystemManager.systems_ (Coordinator.system_manager_ c) !! system_name
       = Some system ->
     SystemManager.systems_ (Coordinator.system_manager_ c') !! system_name
       = Some system' ->
     e' ∈ System.entities_ system' ↔ e' ∈ System.entities_ system) ∧
  (∀ name', name' ≠ name ->
     ComponentManager.component_arrays_ (Coordinator.component_manager_ c')
       !! name'
     = ComponentManager.component_arrays_ (Coordinator.component_manager_ c)
         !! name').
Proof.
  intros H. apply resigned_val in H as (a & a' & Ha & Hm & He & Hty & ->).
  cbn [Coordinator.component_manager_ Coordinator.entity_manager_
       Coordinator.system_manager_].
  set (ty := type_of (Coordinator.component_manager_ c) name).
  set (sig := with_bit (signature_of (Coordinator.entity_manager_ c) e) ty
                val).
  assert (Hsig : signature_of
            (signature_stored e sig (Coordinator.entity_manager_ c)) e = sig).
  { unfold signature_of, signature_stored, slot. simpl.
    by rewrite lookup_insert_eq. }
  destruct (entity_signature_changed_spec e sig
              (Coordinator.system_manager_ c))
    as (sm' & Hrun & Hsys & Hreq & _).
  unfold SystemManager.entity_signature_changed in Hrun.
  injection Hrun as Hrun.
  fold (systems_told e sig (Coordinator.system_manager_ c)) in Hrun.
  rewrite <- Hrun in Hsys, Hreq.
  split; [exact Hsig|]. rewrite Hsig.
  split; [apply with_bit_test|].
  split; [intros ty' Hne; by apply with_bit_test_other|].
  split.
  { intros e' Hne. unfold signature_of, signature_stored, slot. simpl.
    by rewrite lookup_insert_ne. }
  split; [done|]. split; [|split].
  - intros sname system'. rewrite Hsys, Hreq.
    destruct (SystemManager.systems_ _ !! sname) as [s|]; [|done].
    simpl. intros Heq. injection Heq as <-. unfold rematch.
    destruct (Bitset.covers sig _); simpl.
    + rewrite elem_of_union, elem_of_singleton. tauto.
    + rewrite elem_of_difference, elem_of_singleton. split; [tauto|done].
  - intros sname system system' e' Hne Hs. rewrite Hsys, Hs. simpl.
    intros Heq. injection Heq as <-. unfold rematch.
    destruct (Bitset.covers sig _); simpl.
    + rewrite elem_of_union, elem_of_singleton. tauto.
    + rewrite elem_of_difference, elem_of_singleton. tauto.
  - intros name' Hne. simpl. by rewrite lookup_insert_ne.
Qed.

(** X15: when [add_component<T>(e, v)] returns, bit T of [e]'s signature
    is set and its other bits are as before, no other entity's signature
    and no other type's array has changed, the free pool is as before,
    [e] is in exactly the systems whose signature its new signature
    covers, and every other entity is in the systems it was in. *)
Theorem add_component_resyncs name e v c c' :
  Coordinator.add_component name e v c = Val tt c' ->
  Bitset.test (signature_of (Coordinator.entity_manager_ c') e)
    (type_of (Coordinator.component_manager_ c) name) = true ∧
  (∀ ty, ty ≠ type_of (Coordinator.component_manager_ c) name ->
     Bitset.test (signature_of (Coordinator.entity_manager_ c') e) ty
     = Bitset.test (signature_of (Coordinator.entity_manager_ c) e) ty) ∧
  (∀ e', e' ≠ e ->
     signature_of (Coordinator.entity_manager_ c') e'
     = signature_of (Coordinator.entity_manager_ c) e') ∧
  EntityManager.available_entities_ (Coordinator.entity_manager_ c')
    = EntityManager.available_entities_ (Coordinator.entity_manager_ c) ∧
  (∀ system_name system',
     SystemManager.systems_ (Coordinator.system_manager_ c') !! system_name
       = Some system' ->
     e ∈ System.entities_ system'
     ↔ Bitset.covers (signature_of (Coordinator.entity_manager_ c') e)
         (required (Coordinator.system_manager_ c') system_name) = true) ∧
  (∀ system_name system system' e',
     e' ≠ e ->
     SystemManager.systems_ (Coordinator.system_manager_ c) !! system_name
       = Some system ->
     SystemManager.systems_ (Coordinator.system_manager_ c') !! system_name
       = Some system' ->
     e' ∈ System.entities_ system' ↔ e' ∈ System.entities_ system) ∧
  (∀ name', name' ≠ name ->
     ComponentManager.component_arrays_ (Coordinator.component_manager_ c')
       !! name'
     = ComponentManager.component_arrays_ (Coordinator.component_manager_ c)
         !! name').
Proof.
  rewrite add_component_unfold. intros H.
  by apply resigned_resyncs in H as (_ & ? & ? & ? & ? & ? & ? & ?).
Qed.

End Mutation.

Lemma add_component_resyncs_witness :
  ∃ c',
    Coordinator.add_component "Gravity" 0 42 gravity_world = Val tt c' ∧
    Bitset.test (signature_of (Coordinator.entity_manager_ c') 0)
      (type_of (Coordinator.component_manager_ gravity_world) "Gravity")
    = true.
Proof.
  eexists.
  match goal with |- ?A ∧ _ =>
    assert (H : A) by (vm_compute; reflexivity)
  end.
  split; [exact H|].
  exact (proj1 (add_component_resyncs "Gravity" 0 42 gravity_world _ H)).
Defined.

(** ** Coordinator: destroy and the other entities *)

Section DestroyFrame.
Context {T : Type} `{!Component T}.
Implicit Types (a : ComponentArray.t T) (cm : ComponentManager.t T)
  (c : Coordinator.t T) (e : Entity) (name : TypeName).

Lemma array_entity_destroyed_others e e' i' a :
  dense a ->
  e' ≠ e ->
  ComponentArray.entity_to_index_map_ a !! e' = Some i' ->
  ∃ a' j,
    ComponentArray.entity_destroyed e a = Val tt a' ∧
    dense a' ∧
    ComponentArray.entity_to_index_map_ a' !! e' = Some j ∧
    slot value_init (ComponentArray.component_array_ a') j
    = slot value_init (ComponentArray.component_array_ a) i'.
Proof.
  intros D Hne He'. unfold ComponentArray.entity_destroyed.
  destruct (ComponentArray.entity_to_index_map_ a !! e) as [i|] eqn:He.
  - destruct (remove_data_dense e i a D He)
      as (last & eL & Hsz & HeL & Hrm).
    destruct (swapped_out_others e i last eL a e' i' D He HeL Hne He')
      as (j & Hj & Hslot).
    exists (swapped_out e i last eL a), j. split; [done|].
    split; [by apply swapped_out_dense|done].
  - by exists a, i'.
Qed.

(** The coordinator a returning [destroy_entity] leaves, part by part. *)
Lemma destroy_entity_run e c :
  e < MAX_ENTITIES ->
  all_dense (Coordinator.component_manager_ c) ->
  ∃ cm' sm',
    ComponentManager.entity_destroyed e (Coordinator.component_manager_ c)
      = Val tt cm' ∧
    SystemManager.entity_destroyed e (Coordinator.system_manager_ c)
      = Val tt sm' ∧
    Coordinator.destroy_entity e c
    = Val tt
        {| Coordinator.component_manager_ := cm';
           Coordinator.entity_manager_ :=
             {| EntityManager.available_entities_ :=
                  EntityManager.available_entities_
                    (Coordinator.entity_manager_ c) ++ [e];
                EntityManager.signatures_ :=
                  <[e := Bitset.empty]>
                    (EntityManager.signatures_
                       (Coordinator.entity_manager_ c));
                EntityManager.living_entity_count_ :=
                  decr 32 (EntityManager.living_entity_count_
                             (Coordinator.entity_manager_ c)) |};
           Coordinator.system_manager_ := sm' |}.
Proof.
  intros Hlt AD. destruct c as [cm em sm]. simpl in *.
  destruct (manager_entity_destroyed_dense e cm AD) as (cm' & Hcm & _).
  destruct (system_entity_destroyed_spec e sm) as (sm' & Hsm & _).
  exists cm', sm'. split; [done|]. split; [done|].
  unfold Coordinator.destroy_entity, bind, Coordinator.entity_manager,
    Coordinator.component_manager, Coordinator.system_manager, zoom,
    EntityManager.destroy_entity.
  simpl. apply N.ltb_lt in Hlt. rewrite Hlt. simpl.
  rewrite Hcm. simpl. unfold SystemManager.entity_destroyed in Hsm.
  injection Hsm as Hsm. by rewrite Hsm.
Qed.

(** X18: [destroy_entity(e)], for an id in range and dense arrays, leaves
    every other entity alone: its signature is unchanged, it is in the
    systems it was in, and every component it holds reads as before. *)
Theorem destroy_entity_spares_others e c :
  e < MAX_ENTITIES ->
  all_dense (Coordinator.component_manager_ c) ->
  ∃ c',
    Coordinator.destroy_entity e c = Val tt c' ∧
    ∀ e', e' ≠ e ->
      signature_of (Coordinator.entity_manager_ c') e'
        = signature_of (Coordinator.entity_manager_ c) e' ∧
      (∀ system_name system,
         SystemManager.systems_ (Coordinator.system_manager_ c)
           !! system_name = Some system ->
         ∃ system',
           SystemManager.systems_ (Coordinator.system_manager_ c')
             !! system_name = Some system' ∧
           (e' ∈ System.entities_ system' ↔ e' ∈ System.entities_ system)) ∧
      ∀ name a i',
        ComponentManager.component_arrays_ (Coordinator.component_manager_ c)
          !! name = Some a ->
        ComponentArray.entity_to_index_map_ a !! e' = Some i' ->
        Coordinator.get_component name e' c'
        = Val (slot value_init (ComponentArray.component_array_ a) i') c'.
Proof.
  intros Hlt AD.
  destruct (destroy_entity_run e c Hlt AD) as (cm' & sm' & Hcm & Hsm & Hrun).
  eexists. split; [exact Hrun|]. intros e' Hne.
  destruct (manager_entity_destroyed_dense e _ AD)
    as (cm'' & Hcm' & _ & Harr & AD').
  rewrite Hcm in Hcm'. injection Hcm' as <-.
  destruct (system_entity_destroyed_spec e (Coordinator.system_manager_ c))
    as (sm'' & Hsm' & _ & Hsys).
  rewrite Hsm in Hsm'. injection Hsm' as <-.
  split; [|split].
  - unfold signature_of, slot. simpl. by rewrite lookup_insert_ne.
  - intros sname system Hs. exists (System.erase e system).
    simpl. rewrite Hsys, Hs. split; [done|]. simpl.
    rewrite elem_of_difference, elem_of_singleton. tauto.
  - intros name a i' Ha He'.
    destruct (array_entity_destroyed_others e e' i' a (AD name a Ha) Hne He')
      as (a' & j & Hdes & D' & Hj & Hslot).
    rewrite <- Hslot. apply get_component_present with (i := j).
    + simpl. rewrite Harr, Ha. simpl. unfold purged. by rewrite Hdes.
    + exact Hj.
    + pose proof (dense_index_lt a' e' j D' Hj).
      pose proof (dense_size a' D'). lia.
Qed.

(** X19: a second [destroy_entity(e)] right after the first, for an id in
    range and dense arrays, touches neither the component manager nor the
    system manager: all it does is reset the signature again, push the id
    onto the free queue once more and decrement the living count. *)
Theorem destroy_entity_again_only_pool e c :
  e < MAX_ENTITIES ->
  all_dense (Coordinator.component_manager_ c) ->
  ∃ c1 c2,
    Coordinator.destroy_entity e c = Val tt c1 ∧
    Coordinator.destroy_entity e c1 = Val tt c2 ∧
    Coordinator.component_manager_ c2 = Coordinator.component_manager_ c1 ∧
    Coordinator.system_manager_ c2 = Coordinator.system_manager_ c1 ∧
    EntityManager.signatures_ (Coordinator.entity_manager_ c2)
      = EntityManager.signatures_ (Coordinator.entity_manager_ c1) ∧
    EntityManager.available_entities_ (Coordinator.entity_manager_ c2)
      = EntityManager.available_entities_ (Coordinator.entity_manager_ c1)
        ++ [e] ∧
    EntityManager.living_entity_count_ (Coordinator.entity_manager_ c2)
      = decr 32
          (EntityManager.living_entity_count_ (Coordinator.entity_manager_ c1)).
Proof.
  intros Hlt AD.
  destruct (destroy_entity_run e c Hlt AD) as (cm1 & sm1 & Hcm & Hsm & Hrun).
  destruct (manager_entity_destroyed_dense e _ AD)
    as (cm1' & Hcm' & _ & Harr & AD1).
  rewrite Hcm in Hcm'. injection Hcm' as <-.
  destruct (system_entity_destroyed_spec e (Coordinator.system_manager_ c))
    as (sm1' & Hsm' & _ & Hsys).
  rewrite Hsm in Hsm'. injection Hsm' as <-.
  match type of Hrun with
  | _ = Val tt ?c1 =>
      exists c1;
      destruct (destroy_entity_run e c1 Hlt AD1)
        as (cm2 & sm2 & Hcm2 & Hsm2 & Hrun2)
  end.
  eexists. split; [exact Hrun|]. split; [exact Hrun2|].
  cbn [Coordinator.component_manager_ Coordinator.entity_manager_
       Coordinator.system_manager_] in *.
  assert (Hgone : ∀ k a', ComponentManager.component_arrays_ cm1 !! k
                          = Some a' ->
                  purged e a' = Some a').
  { intros k a'. rewrite Harr.
    destruct (ComponentManager.component_arrays_
                (Coordinator.component_manager_ c) !! k) as [a|] eqn:Ha;
      [|done].
    simpl. destruct (array_entity_destroyed_dense e a (AD k a Ha))
      as (a'' & Hdes & Hnone & _).
    unfold purged at 1. rewrite Hdes. simpl. intros [= <-].
    unfold purged. by rewrite (array_entity_destroyed_absent e a'' Hnone). }
  split; [|split].
  - unfold ComponentManager.entity_destroyed in Hcm2.
    pose proof (tell_fold e (ComponentManager.component_arrays_ cm1) cm1)
      as Hfold.
    rewrite Hcm2 in Hfold. destruct Hfold as (Ht & Hn & Ha).
    destruct cm2 as [t2 a2 n2], cm1 as [t1 a1 n1]. simpl in *.
    f_equal; [done| |done]. apply map_eq. intros k. rewrite Ha.
    destruct (a1 !! k) as [x|] eqn:Ex; [|done]. by apply (Hgone k).
  - destruct (system_entity_destroyed_spec e sm1) as (sm2' & Hsm2' & Hsig2 & Hsys2).
    rewrite Hsm2 in Hsm2'. injection Hsm2' as <-.
    apply manager_eq; intros k; [by rewrite Hsig2|].
    rewrite Hsys2, Hsys.
    destruct (SystemManager.systems_ (Coordinator.system_manager_ c) !! k)
      as [[es]|]; [|done].
    simpl. unfold System.erase. simpl. do 2 f_equal.
    apply set_eq. intros y. rewrite !elem_of_difference. tauto.
  - simpl. split; [by rewrite insert_insert_eq|]. done.
Qed.
End DestroyFrame.

Lemma destroy_entity_spares_others_witness :
  0 < MAX_ENTITIES ∧
  all_dense (Coordinator.component_manager_ two_system_world) ∧
  ∃ c', Coordinator.destroy_entity 0 two_system_world = Val tt c'.
Proof.
  assert (H1 : 0 < MAX_ENTITIES) by (vm_compute; reflexivity).
  assert (H2 : all_dense (Coordinator.component_manager_ two_system_world))
    by (apply all_dense_check_sound; vm_compute; reflexivity).
  split; [exact H1|]. split; [exact H2|].
  destruct (destroy_entity_spares_others 0 two_system_world H1 H2)
    as (c' & Hrun & _).
  exists c'. exact Hrun.
Defined.

Lemma destroy_entity_again_only_pool_witness :
  0 < MAX_ENTITIES ∧
  all_dense (Coordinator.component_manager_ two_system_world) ∧
  ∃ c1 c2,
    Coordinator.destroy_entity 0 two_system_world = Val tt c1 ∧
    Coordinator.destroy_entity 0 c1 = Val tt c2 ∧
    Coordinator.component_manager_ c2 = Coordinator.component_manager_ c1.
Proof.
  assert (H1 : 0 < MAX_ENTITIES) by (vm_compute; reflexivity).
  assert (H2 : all_dense (Coordinator.component_manager_ two_system_world))
    by (apply all_dense_check_sound; vm_compute; reflexivity).
  split; [exact H1|]. split; [exact H2|].
  destruct (destroy_entity_again_only_pool 0 two_system_world H1 H2)
    as (c1 & c2 & Ha & Hb & Hc & _).
  exists c1, c2. split; [exact Ha|]. split; [exact Hb | exact Hc].
Defined.

(** ** Signatures and storage over sequences of calls *)

Section Tagged.
Context {T : Type} `{!Component T}.
Implicit Types (a : ComponentArray.t T) (cm : ComponentManager.t T)
  (c : Coordinator.t T) (e : Entity) (v : T) (name : TypeName).

Lemma holds_true name e c :
  holds name e c = true ->
  ∃ a i,
    ComponentManager.component_arrays_ (Coordinator.component_manager_ c)
      !! name = Some a ∧
    ComponentArray.entity_to_index_map_ a !! e = Some i.
Proof.
  unfold holds. destruct (_ !! name) as [a|]; [|done].
  intros [i Hi]%bool_decide_eq_true. by exists a, i.
Qed.

Lemma holds_false name e c a :
  ComponentManager.component_arrays_ (Coordinator.component_manager_ c)
    !! name = Some a ->
  holds name e c = false ->
  ComponentArray.entity_to_index_map_ a !! e = None.
Proof.
  unfold holds. intros ->. intros H%bool_decide_eq_false.
  destruct (_ !! e) eqn:E; [|done]. destruct H. by eexists.
Qed.

Lemma types_entered_present name cm ty :
  ComponentManager.component_types_ cm !! name = Some ty ->
  types_entered name cm = cm.
Proof.
  intros Hty. unfold types_entered.
  rewrite (subscript_present _ _ _ _ Hty). by destruct cm.
Qed.

Lemma tagged_type_of c name a :
  tagged c ->
  ComponentManager.component_arrays_ (Coordinator.component_manager_ c)
    !! name = Some a ->
  ComponentManager.component_types_ (Coordinator.component_manager_ c)
    !! name = Some (type_of (Coordinator.component_manager_ c) name) ∧
  type_of (Coordinator.component_manager_ c) name < MAX_COMPONENTS.
Proof.
  intros J Ha. destruct (tagged_typed c J name) as (ty & Hty & Hlt);
    [by eexists|].
  unfold type_of. by rewrite Hty.
Qed.

Lemma test_empty (ty : N) : Bitset.test Bitset.empty ty = false.
Proof. apply N.bits_0. Qed.

Lemma tagged_init : tagged (Coordinator.init (T := T)).
Proof.
  split.
  - apply all_dense_init.
  - intros name. simpl. rewrite lookup_empty. by intros [? ?].
  - intros name ty. simpl. by rewrite lookup_empty.
  - intros n1 n2 ty. simpl. by rewrite lookup_empty.
  - intros name a e. simpl. by rewrite lookup_empty.
  - intros e ty. unfold signature_of, slot. simpl. rewrite lookup_empty.
    done.
Qed.

(** Presence of the other entities across a swap-remove. *)
Lemma swapped_out_presence e i last eL a e' :
  dense a ->
  ComponentArray.entity_to_index_map_ a !! e = Some i ->
  ComponentArray.index_to_entity_map_ a !! last = Some eL ->
  e' ≠ e ->
  is_Some (ComponentArray.entity_to_index_map_ (swapped_out e i last eL a)
             !! e')
  ↔ is_Some (ComponentArray.entity_to_index_map_ a !! e').
Proof.
  intros D He HeL Hne. simpl. rewrite lookup_delete_ne by done.
  rewrite lookup_insert. case_decide as HL; [|done].
  subst e'. apply (dense_entity a D) in HeL as [HeL _].
  rewrite HeL. split; by eexists.
Qed.

Lemma purged_presence e a :
  dense a ->
  ∃ a',
    purged e a = Some a' ∧ dense a' ∧
    ComponentArray.entity_to_index_map_ a' !! e = None ∧
    ∀ e', e' ≠ e ->
      is_Some (ComponentArray.entity_to_index_map_ a' !! e')
      ↔ is_Some (ComponentArray.entity_to_index_map_ a !! e').
Proof.
  intros D. unfold purged, ComponentArray.entity_destroyed.
  destruct (ComponentArray.entity_to_index_map_ a !! e) as [i|] eqn:He.
  - destruct (remove_data_dense e i a D He) as (last & eL & Hsz & HeL & Hrm).
    rewrite Hrm. exists (swapped_out e i last eL a). split; [done|].
    split; [by apply swapped_out_dense|]. split; [apply swapped_out_gone|].
    intros e' Hne. by apply swapped_out_presence.
  - exists a. split; [done|]. split; [done|]. split; [done|]. done.
Qed.

(** What an array method followed by the signature update leaves, when
    control comes back. *)
Lemma mutated name e (val : bool) (m : M (ComponentArray.t T) unit) c c' :
  (∀ a x a', m a ≠ Throw x a') ->
  state_after
    ((Coordinator.component_manager
        (ComponentManager.get_component_array name m) ;;
      resign name e val) c) = Some c' ->
  ∃ a a',
    ComponentManager.component_arrays_ (Coordinator.component_manager_ c)
      !! name = Some a ∧
    m a = Val tt a' ∧
    (MAX_COMPONENTS <= type_of (Coordinator.component_manager_ c) name ∨
     c' = {| Coordinator.component_manager_ :=
               types_entered name
                 (ComponentManager.set_arrays
                    (<[name := a']>
                       (ComponentManager.component_arrays_
                          (Coordinator.component_manager_ c)))
                    (Coordinator.component_manager_ c));
             Coordinator.entity_manager_ :=
               signature_stored e
                 (with_bit (signature_of (Coordinator.entity_manager_ c) e)
                    (type_of (Coordinator.component_manager_ c) name) val)
                 (Coordinator.entity_manager_ c);
             Coordinator.system_manager_ :=
               systems_told e
                 (with_bit (signature_of (Coordinator.entity_manager_ c) e)
                    (type_of (Coordinator.component_manager_ c) name) val)
                 (Coordinator.system_manager_ c) |}).
Proof.
  intros Hnt. unfold bind.
  destruct (Coordinator.component_manager _ c) as [[] c1|x c1|] eqn:E;
    [| |done].
  - apply component_manager_val in E as (cm' & Hm & ->).
    apply get_component_array_val in Hm as (a & a' & Ha & Hrun & ->).
    rewrite resign_eq.
    cbn [Coordinator.component_manager_ Coordinator.entity_manager_
         Coordinator.system_manager_].
    change (type_of (ComponentManager.set_arrays _ ?cm) name)
      with (type_of cm name).
    destruct (e <? MAX_ENTITIES); [|done].
    destruct (_ <? MAX_COMPONENTS) eqn:Hty; simpl; intros [= <-];
      exists a, a'; split; [done| |done|]; split; [done| |done|].
    + by right.
    + left. by apply N.ltb_ge.
  - unfold Coordinator.component_manager, zoom in E.
    destruct (ComponentManager.get_component_array name m _)
      as [| y cm1 |] eqn:E2; [done| |done].
    by destruct (get_component_array_no_throw name m Hnt _ _ _ E2).
Qed.

(** One array and one signature updated together. *)
Lemma tagged_update c name a a' e (val : bool) sm' :
  tagged c ->
  ComponentManager.component_arrays_ (Coordinator.component_manager_ c)
    !! name = Some a ->
  dense a' ->
  (is_Some (ComponentArray.entity_to_index_map_ a' !! e) ↔ val = true) ->
  (∀ e', e' ≠ e ->
     is_Some (ComponentArray.entity_to_index_map_ a' !! e')
     ↔ is_Some (ComponentArray.entity_to_index_map_ a !! e')) ->
  tagged
    {| Coordinator.component_manager_ :=
         types_entered name
           (ComponentManager.set_arrays
              (<[name := a']>
                 (ComponentManager.component_arrays_
                    (Coordinator.component_manager_ c)))
              (Coordinator.component_manager_ c));
       Coordinator.entity_manager_ :=
         signature_stored e
           (with_bit (signature_of (Coordinator.entity_manager_ c) e)
              (type_of (Coordinator.component_manager_ c) name) val)
           (Coordinator.entity_manager_ c);
       Coordinator.system_manager_ := sm' |}.
Proof.
  intros J Ha D' He Hothers.
  destruct (tagged_type_of c name a J Ha) as [Hty Hlt].
  rewrite (types_entered_present name
             (ComponentManager.set_arrays
                (<[name := a']>
                   (ComponentManager.component_arrays_
                      (Coordinator.component_manager_ c)))
                (Coordinator.component_manager_ c)) _ Hty).
  set (ty := type_of (Coordinator.component_manager_ c) name) in *.
  assert (Hsig : ∀ e',
    signature_of
      (signature_stored e
         (with_bit (signature_of (Coordinator.entity_manager_ c) e) ty val)
         (Coordinator.entity_manager_ c)) e'
    = if decide (e' = e)
      then with_bit (signature_of (Coordinator.entity_manager_ c) e) ty val
      else signature_of (Coordinator.entity_manager_ c) e').
  { intros e'. unfold signature_of, signature_stored, slot. simpl.
    rewrite lookup_insert. by repeat case_decide; subst. }
  split; cbn [Coordinator.component_manager_ Coordinator.entity_manager_
              Coordinator.system_manager_].
  - intros n b. simpl. rewrite lookup_insert. case_decide.
    + by intros [= <-].
    + apply (tagged_dense c J).
  - intros n. simpl. rewrite lookup_insert. case_decide as Hn.
    + subst n. intros _. apply (tagged_typed c J). by eexists.
    + apply (tagged_typed c J).
  - intros n t Hn. simpl in *.
    destruct (tagged_below c J n t Hn) as [? ?]. split; [done|].
    rewrite lookup_insert. case_decide; [by eexists|done].
  - apply (tagged_distinct c J).
  - intros n b e'. simpl. rewrite lookup_insert. rewrite Hsig.
    change (type_of (ComponentManager.set_arrays _ ?cm) n)
      with (type_of cm n).
    case_decide as Hn.
    + subst n. intros [= <-]. fold ty. case_decide as Hee.
      * subst e'. rewrite with_bit_test, He. by destruct val.
      * rewrite (Hothers e' Hee). apply (tagged_bits c J name a e' Ha).
    + intros Hb. case_decide as Hee.
      * subst e'. rewrite with_bit_test_other; [by apply (tagged_bits c J)|].
        destruct (tagged_type_of c n b J Hb) as [Htn _]. intros Heq.
        apply Hn. fold ty in Hty. rewrite Heq in Htn.
        by apply (tagged_distinct c J name n ty).
      * by apply (tagged_bits c J).
  - intros e' t. rewrite Hsig. simpl. case_decide as Hee.
    + subst e'. destruct (decide (t = ty)) as [->|Hne].
      * intros _. by exists name.
      * rewrite with_bit_test_other by done. apply (tagged_owned c J).
    + apply (tagged_owned c J).
Qed.

(** Only the pool, or nothing at all, has changed. *)
Lemma tagged_same c c' :
  Coordinator.component_manager_ c' = Coordinator.component_manager_ c ->
  EntityManager.signatures_ (Coordinator.entity_manager_ c')
    = EntityManager.signatures_ (Coordinator.entity_manager_ c) ->
  tagged c -> tagged c'.
Proof.
  intros Hcm Hsig J.
  assert (Hs : ∀ e, signature_of (Coordinator.entity_manager_ c') e
                    = signature_of (Coordinator.entity_manager_ c) e)
    by (intros e; unfold signature_of; by rewrite Hsig).
  destruct J as [J1 J2 J3 J4 J5 J6].
  split; rewrite ?Hcm; try done.
  - intros name a e. rewrite Hs. apply J5.
  - intros e ty. rewrite Hs. apply J6.
Qed.

Lemma tagged_register name c c' :
  tagged c ->
  ComponentManager.next_component_type (Coordinator.component_manager_ c)
    < MAX_COMPONENTS ->
  Coordinator.register_component name c = Val tt c' ->
  tagged c'.
Proof.
  intros J Hnext.
  unfold Coordinator.register_component, Coordinator.component_manager, zoom,
    ComponentManager.register_component.
  intros [= <-]. destruct c as [cm em sm].
  destruct J as [J1 J2 J3 J4 J5 J6].
  cbn [Coordinator.component_manager_ Coordinator.entity_manager_
       Coordinator.system_manager_] in *.
  assert (Hincr : incr 8 (ComponentManager.next_component_type cm)
                  = ComponentManager.next_component_type cm + 1).
  { apply incr_succ. unfold MAX_COMPONENTS in Hnext.
    change (2 ^ 8) with 256. lia. }
  destruct (ComponentManager.component_arrays_ cm !! name) as [a|] eqn:Ha.
  - (* registered before: only the counter moves *)
    destruct (J2 name) as (ty & Hty & _); [by eexists|].
    rewrite (emplace_present _ _ _ _ Hty), (emplace_present _ _ _ _ Ha).
    split; cbn [Coordinator.component_manager_ Coordinator.entity_manager_
                ComponentManager.component_types_
                ComponentManager.component_arrays_
                ComponentManager.next_component_type]; try done.
    intros n t Hn. destruct (J3 n t Hn) as [? ?].
    split; [rewrite Hincr; lia|done].
  - (* a new type *)
    assert (Hnone : ComponentManager.component_types_ cm !! name = None).
    { destruct (ComponentManager.component_types_ cm !! name) as [t|] eqn:E;
        [|done].
      destruct (J3 name t E) as [_ [? ?]]. congruence. }
    unfold emplace. rewrite Hnone, Ha.
    split; cbn [Coordinator.component_manager_ Coordinator.entity_manager_
                ComponentManager.component_types_
                ComponentManager.component_arrays_
                ComponentManager.next_component_type].
    + intros n b. simpl. rewrite lookup_insert. case_decide.
      * intros [= <-]. apply dense_new.
      * apply J1.
    + intros n. rewrite !lookup_insert. case_decide.
      * intros _. by eexists.
      * apply J2.
    + intros n t. rewrite !lookup_insert, Hincr. case_decide.
      * intros [= <-]. split; [lia|by eexists].
      * intros Hn. destruct (J3 n t Hn) as [? ?]. split; [lia|done].
    + intros n1 n2 t. rewrite !lookup_insert.
      repeat case_decide; subst; try done.
      * intros [= <-] Hn2. destruct (J3 n2 _ Hn2) as [? _]. lia.
      * intros Hn1 [= <-]. destruct (J3 n1 _ Hn1) as [? _]. lia.
      * apply J4.
    + intros n b e. unfold type_of.
      cbn [ComponentManager.component_types_].
      rewrite !lookup_insert. case_decide as Hn.
      * subst n. intros [= <-]. simpl. rewrite lookup_empty. split.
        { by intros [? ?]. }
        intros Hbit. destruct (J6 e _ Hbit) as [n' Hn'].
        destruct (J3 n' _ Hn') as [? _]. lia.
      * apply J5.
    + intros e t Hbit. destruct (J6 e t Hbit) as [n' Hn'].
      exists n'. rewrite lookup_insert.
      case_decide; [congruence|done].
Qed.


Lemma manager_entity_destroyed_next e cm cm' :
  ComponentManager.entity_destroyed e cm = Val tt cm' ->
  ComponentManager.component_types_ cm'
    = ComponentManager.component_types_ cm ∧
  ComponentManager.next_component_type cm'
    = ComponentManager.next_component_type cm.
Proof.
  unfold ComponentManager.entity_destroyed. intros H.
  pose proof (tell_fold e (ComponentManager.component_arrays_ cm) cm) as F.
  rewrite H in F. by destruct F as (? & ? & _).
Qed.

Lemma tagged_destroy e c c' :
  tagged c ->
  state_after (Coordinator.destroy_entity e c) = Some c' ->
  tagged c'.
Proof.
  intros J Hafter.
  destruct (N.ltb_spec e MAX_ENTITIES) as [Hlt|Hge].
  2:{ exfalso. revert Hafter.
      unfold Coordinator.destroy_entity, bind, Coordinator.entity_manager,
        zoom, EntityManager.destroy_entity.
      apply N.ltb_ge in Hge. by rewrite Hge. }
  destruct (destroy_entity_run e c Hlt (tagged_dense c J))
    as (cm' & sm' & Hcm & _ & Hrun).
  rewrite Hrun in Hafter. injection Hafter as <-.
  destruct (manager_entity_destroyed_dense e _ (tagged_dense c J))
    as (cm'' & Hcm' & _ & Harr & AD').
  rewrite Hcm in Hcm'. injection Hcm' as <-.
  destruct (manager_entity_destroyed_next e _ _ Hcm) as [Htypes Hnext].
  destruct c as [cm em sm]. destruct J as [J1 J2 J3 J4 J5 J6].
  cbn [Coordinator.component_manager_ Coordinator.entity_manager_
       Coordinator.system_manager_] in *.
  assert (Hfrom : ∀ n a', ComponentManager.component_arrays_ cm' !! n
                          = Some a' ->
    ∃ a, ComponentManager.component_arrays_ cm !! n = Some a ∧
         ComponentArray.entity_to_index_map_ a' !! e = None ∧
         ∀ e', e' ≠ e ->
           is_Some (ComponentArray.entity_to_index_map_ a' !! e')
           ↔ is_Some (ComponentArray.entity_to_index_map_ a !! e')).
  { intros n a'. rewrite Harr.
    destruct (ComponentManager.component_arrays_ cm !! n) as [a|] eqn:Ha;
      [|done].
    simpl. destruct (purged_presence e a (J1 n a Ha))
      as (a'' & Hp & _ & Hgone & Hothers).
    rewrite Hp. intros [= <-]. by exists a. }
  assert (Hsig : ∀ e',
    signature_of
      {| EntityManager.available_entities_ :=
           EntityManager.available_entities_ em ++ [e];
         EntityManager.signatures_ :=
           <[e := Bitset.empty]> (EntityManager.signatures_ em);
         EntityManager.living_entity_count_ :=
           decr 32 (EntityManager.living_entity_count_ em) |} e'
    = if decide (e' = e) then Bitset.empty else signature_of em e').
  { intros e'. unfold signature_of, slot. simpl. rewrite lookup_insert.
    by repeat case_decide; subst. }
  split; cbn [Coordinator.component_manager_ Coordinator.entity_manager_
              Coordinator.system_manager_].
  - exact AD'.
  - intros n [a' Ha']. rewrite Htypes.
    destruct (Hfrom n a' Ha') as (a & Ha & _). apply J2. by eexists.
  - intros n t. rewrite Htypes, Hnext. intros Hn.
    destruct (J3 n t Hn) as [? [a Ha]]. split; [done|].
    rewrite Harr, Ha. simpl.
    destruct (purged_presence e a (J1 n a Ha)) as (a' & Hp & _).
    rewrite Hp. by eexists.
  - rewrite Htypes. apply J4.
  - intros n a' e' Ha'. rewrite Hsig.
    destruct (Hfrom n a' Ha') as (a & Ha & Hgone & Hothers).
    assert (Hty : type_of cm' n = type_of cm n)
      by (unfold type_of; by rewrite Htypes).
    rewrite Hty. case_decide as Hee.
    + subst e'. rewrite Hgone, test_empty. split; [by intros [? ?]|done].
    + rewrite (Hothers e' Hee). by apply J5.
  - intros e' t. rewrite Hsig, Htypes. case_decide.
    + by rewrite test_empty.
    + apply J6.
Qed.

Lemma perform_tagged (k : call T) c c' :
  tagged c ->
  well_used k c = true ->
  state_after (perform k c) = Some c' ->
  tagged c'.
Proof.
  intros J Hused.
  destruct k as [|e|name|name e v|name e|name e]; simpl in Hused;
    cbn [perform].
  - unfold bind, Coordinator.create_entity, Coordinator.entity_manager, zoom,
      EntityManager.create_entity.
    destruct (EntityManager.available_entities_ _); [done|].
    simpl. intros [= <-]. by apply (tagged_same c).
  - by apply tagged_destroy.
  - assert (Hval : ∃ c1, Coordinator.register_component name c = Val tt c1)
      by (by eexists).
    destruct Hval as [c1 Hc1]. rewrite Hc1. simpl. intros [= <-].
    apply (tagged_register name c); [done|by apply N.ltb_lt|done].
  - apply andb_true_iff in Hused as [Hreg Hnot].
    apply bool_decide_eq_true in Hreg as [a0 Ha0].
    apply negb_true_iff in Hnot.
    pose proof (holds_false name e c a0 Ha0 Hnot) as Habs.
    rewrite add_component_unfold. intros H.
    apply mutated in H as (a & a' & Ha & Hins & [Hbig| ->]).
    + destruct (tagged_type_of c name a J Ha) as [_ ?]. lia.
    + assert (a = a0) as -> by congruence.
      apply (tagged_update c name a0 a' e true); [done|done|..].
      * by apply (insert_data_dense e v a0 a' (tagged_dense c J name a0 Ha)).
      * apply insert_data_inv in Hins as [_ ->]. simpl.
        rewrite lookup_insert_eq. split; [done|by eexists].
      * intros e' Hne. apply insert_data_inv in Hins as [_ ->]. simpl.
        by rewrite lookup_insert_ne.
    + intros a x a'. apply insert_data_no_throw.
  - by rewrite remove_component_no_result.
  - apply holds_true in Hused as (a0 & i & Ha0 & Hi).
    pose proof (tagged_dense c J name a0 Ha0) as D.
    unfold bind.
    rewrite (get_component_present name e i c a0 Ha0 Hi).
    + simpl. by intros [= <-].
    + pose proof (dense_index_lt a0 e i D Hi). pose proof (dense_size a0 D).
      lia.
Qed.

Lemma observe_tagged (ks : list (call T)) : ∀ c0 c,
  tagged c0 ->
  well_used_all ks c0 = true ->
  observe ks c0 = Some c ->
  tagged c.
Proof.
  induction ks as [|k ks IH]; intros c0 c J Hused.
  - simpl. by intros [= <-].
  - simpl in *. apply andb_true_iff in Hused as [Hk Hrest].
    destruct (state_after (perform k c0)) as [c1|] eqn:Hafter; [|done].
    apply (IH c1); [|done]. by apply (perform_tagged k c0).
Qed.

(** X20: signatures follow storage.  From a fresh coordinator, along any
    sequence of calls in which a component type is registered only while
    the next type id fits the signature, a component is added only to a
    registered type and an entity that does not hold it, and removed or
    read only where the entity holds it: at every point control comes
    back, the arrays are dense, the registered types have distinct ids
    below MAX_COMPONENTS, and an entity has an entry in a type's array if
    and only if the type's bit is set in its signature. *)
Theorem signatures_track_storage (ks : list (call T)) c :
  well_used_all ks Coordinator.init = true ->
  observe ks Coordinator.init = Some c ->
  tagged c ∧
  ∀ name a e,
    ComponentManager.component_arrays_ (Coordinator.component_manager_ c)
      !! name = Some a ->
    is_Some (ComponentArray.entity_to_index_map_ a !! e)
    ↔ Bitset.test (signature_of (Coordinator.entity_manager_ c) e)
        (type_of (Coordinator.component_manager_ c) name) = true.
Proof.
  intros Hused Hobs.
  pose proof (observe_tagged ks _ c tagged_init Hused Hobs) as J.
  split; [done|]. apply (tagged_bits c J).
Qed.
End Tagged.

Lemma signatures_track_storage_witness :
  well_used_all
    [RegisterComponent "Gravity"; RegisterComponent "Pixel"; CreateEntity;
     CreateEntity; AddComponent "Gravity" 0 42; AddComponent "Pixel" 0 7;
     AddComponent "Pixel" 1 8; GetComponent "Pixel" 1;
     DestroyEntity 0; GetComponent "Pixel" 1] Coordinator.init = true ∧
  ∃ c,
    observe
      [RegisterComponent "Gravity"; RegisterComponent "Pixel"; CreateEntity;
       CreateEntity; AddComponent "Gravity" 0 42; AddComponent "Pixel" 0 7;
       AddComponent "Pixel" 1 8; GetComponent "Pixel" 1;
       DestroyEntity 0; GetComponent "Pixel" 1] Coordinator.init
      = Some c ∧
    tagged c.
Proof.
  match goal with |- ?A ∧ _ =>
    assert (H1 : A) by (vm_compute; reflexivity)
  end.
  split; [exact H1|]. eexists.
  match goal with |- ?A ∧ _ =>
    assert (H2 : A) by (vm_compute; reflexivity)
  end.
  split; [exact H2|].
  exact (proj1 (signatures_track_storage _ _ H1 H2)).
Defined.

(** ** main: setup and population *)

Section Population.
Context {T : Type} `{!Component T}.

Lemma filled_new : filled [] (ComponentArray.new (T := T)).
Proof.
  split.
  - done.
  - intros i v Hi. by rewrite lookup_nil in Hi.
  - intros e _. apply lookup_empty.
Qed.

Lemma filled_insert (l : list T) a v :
  filled l a ->
  (length l < N.to_nat MAX_ENTITIES)%nat ->
  ∃ a', ComponentArray.insert_data (N.of_nat (length l)) v a = Val tt a' ∧
        filled (l ++ [v]) a'.
Proof.
  intros [Hsize Hentry Hrest] Hlen.
  assert (Hlt : ComponentArray.size_ a < MAX_ENTITIES) by (rewrite Hsize; lia).
  destruct (insert_data_returns (N.of_nat (length l)) v a Hlt) as [a' Ha'].
  exists a'. split; [done|].
  destruct (insert_data_inv _ _ _ _ Ha') as [_ ->].
  pose proof MAX_ENTITIES_small as [_ Hsmall].
  split; cbn [ComponentArray.size_ ComponentArray.entity_to_index_map_
              ComponentArray.component_array_].
  - rewrite incr_succ by lia. rewrite Hsize, length_app. simpl. lia.
  - intros i w Hi. rewrite Hsize.
    destruct (decide (i = length l)) as [->|Hne].
    + rewrite !lookup_insert_eq.
      rewrite lookup_app_r, Nat.sub_diag in Hi by lia.
      simpl in Hi. by injection Hi as ->.
    + assert (Hil : (i < length l)%nat).
      { apply lookup_lt_Some in Hi. rewrite length_app in Hi. simpl in Hi.
        lia. }
      rewrite lookup_app_l in Hi by done.
      rewrite !lookup_insert_ne by lia. by apply Hentry.
  - intros e He. rewrite length_app in He. simpl in He.
    rewrite lookup_insert_ne by lia. apply Hrest. lia.
Qed.

Lemma filled_get name e (l : list T) v c a :
  ComponentManager.component_arrays_ (Coordinator.component_manager_ c)
    !! name = Some a ->
  filled l a ->
  (length l <= N.to_nat MAX_ENTITIES)%nat ->
  l !! e = Some v ->
  Coordinator.get_component name (N.of_nat e) c = Val v c.
Proof.
  intros Ha [_ Hentry _] Hlen Hl.
  destruct (Hentry e v Hl) as [Hi Hv].
  apply lookup_lt_Some in Hl.
  rewrite (get_component_present name (N.of_nat e) (N.of_nat e) c a)
    by (done || lia).
  unfold slot. by rewrite Hv.
Qed.

Lemma systems_told_frame e esig sm name :
  required (systems_told e esig sm) name = required sm name ∧
  (is_Some (SystemManager.systems_ sm !! name) ->
   is_Some (SystemManager.systems_ (systems_told e esig sm) !! name)).
Proof.
  destruct (notify_fold e esig sm (SystemManager.systems_ sm)) as [Hs Hg].
  cbn zeta in Hs, Hg. fold (systems_told e esig sm) in Hs, Hg. split.
  - unfold required. rewrite Hg.
    destruct (SystemManager.signatures_ sm !! name); [done|].
    by destruct (SystemManager.systems_ sm !! name).
  - intros [s Hsome]. rewrite Hs, Hsome. by eexists.
Qed.
End Population.
Section PopulationSteps.
Context {T : Type} `{!Component T}.

Lemma kinds_cases (P : TypeName -> ComponentType -> Prop) :
  P "Gravity" 0 -> P "RigidBody" 1 -> P "Transform" 2 -> P "Pixel" 3 ->
  ∀ name ty, (name, ty) ∈ kinds -> P name ty.
Proof.
  intros H0 H1 H2 H3 name ty Hin. unfold kinds in Hin.
  repeat (apply elem_of_cons in Hin as [[= -> ->]|Hin]; [done|]).
  by apply elem_of_nil in Hin.
Qed.

Lemma layout_ext (cols cols' : TypeName -> list T) sigs sigs' q c :
  layout cols sigs q c ->
  (∀ name ty, (name, ty) ∈ kinds -> cols name = cols' name) ->
  (∀ e, sigs e = sigs' e) ->
  layout cols' sigs' q c.
Proof.
  intros [L1 L2 L3 L4 L5 L6] Hcols Hsigs. split; try done.
  - intros name ty Hin. rewrite <- (Hcols name ty Hin). by apply L5.
  - intros e. rewrite <- Hsigs. apply L6.
Qed.

Lemma create_step (cols : TypeName -> list T) sigs e q c :
  layout cols sigs (e :: q) c ->
  ∃ c', Coordinator.create_entity c = Val e c' ∧ layout cols sigs q c'.
Proof.
  intros L. pose proof L as [L1 L2 L3 L4 L5 L6].
  assert (Hrun : ∃ c', Coordinator.create_entity c = Val e c' ∧
            Coordinator.component_manager_ c'
              = Coordinator.component_manager_ c ∧
            Coordinator.system_manager_ c' = Coordinator.system_manager_ c ∧
            EntityManager.signatures_ (Coordinator.entity_manager_ c')
              = EntityManager.signatures_ (Coordinator.entity_manager_ c) ∧
            EntityManager.available_entities_ (Coordinator.entity_manager_ c')
              = q).
  { unfold Coordinator.create_entity, Coordinator.entity_manager, zoom,
      EntityManager.create_entity. rewrite L4. by eexists. }
  destruct Hrun as (c' & Hrun & Hcm & Hsm & Hsig & Hq).
  exists c'. split; [done|]. split.
  - apply (perform_in_sync CreateEntity c c'); [|done].
    cbn [perform]. unfold bind. by rewrite Hrun.
  - by rewrite Hsm.
  - by rewrite Hsm.
  - done.
  - by rewrite Hcm.
  - intros x. unfold signature_of. rewrite Hsig. apply L6.
Qed.

Lemma add_step name ty e v (cols : TypeName -> list T) sigs q c :
  (name, ty) ∈ kinds ->
  layout cols sigs q c ->
  e = N.of_nat (length (cols name)) ->
  (length (cols name) < N.to_nat MAX_ENTITIES)%nat ->
  ∃ c', Coordinator.add_component name e v c = Val tt c' ∧
        layout (grown cols name v) (marked sigs e ty) q c'.
Proof.
  intros Hin L -> Hlen. pose proof L as [L1 L2 L3 L4 L5 L6].
  destruct (L5 name ty Hin) as (Hty & a & Ha & Hfilled).
  destruct (filled_insert _ a v Hfilled Hlen) as (a' & Hins & Hfilled').
  assert (Htype : type_of (Coordinator.component_manager_ c) name = ty).
  { unfold type_of. by rewrite Hty. }
  assert (Hsmall : ty < MAX_COMPONENTS).
  { revert Hin. clear. revert name ty. by apply kinds_cases. }
  destruct (add_component_returns name (N.of_nat (length (cols name))) v c a)
    as [c' Hc']; [done| |lia|by rewrite Htype|].
  { rewrite (filled_size _ _ Hfilled). lia. }
  exists c'. split; [done|].
  destruct (add_component_val _ _ _ _ _ Hc')
    as (a0 & a0' & Ha0 & Hins0 & _ & _ & Heq).
  rewrite Ha in Ha0. injection Ha0 as <-.
  rewrite Hins in Hins0. injection Hins0 as <-.
  rewrite Htype, L6 in Heq.
  rewrite types_entered_present with (ty := ty) in Heq by done.
  split.
  - apply (perform_in_sync
             (AddComponent name (N.of_nat (length (cols name))) v) c c');
      [|done].
    cbn [perform]. by rewrite Hc'.
  - rewrite Heq. cbn [Coordinator.system_manager_].
    destruct (systems_told_frame (N.of_nat (length (cols name)))
                (with_bit (sigs (N.of_nat (length (cols name)))) ty true)
                (Coordinator.system_manager_ c) "PhysicsSystem") as [-> Hk].
    destruct L2. auto.
  - rewrite Heq. cbn [Coordinator.system_manager_].
    destruct (systems_told_frame (N.of_nat (length (cols name)))
                (with_bit (sigs (N.of_nat (length (cols name)))) ty true)
                (Coordinator.system_manager_ c) "RenderSystem") as [-> Hk].
    destruct L3. auto.
  - by rewrite Heq.
  - intros name' ty' Hin'. rewrite Heq.
    cbn [Coordinator.component_manager_ ComponentManager.set_arrays
         ComponentManager.component_types_
         ComponentManager.component_arrays_].
    destruct (L5 name' ty' Hin') as (Hty' & b & Hb & Hfb).
    split; [done|]. unfold grown.
    destruct (decide (name' = name)) as [->|Hne].
    + exists a'. by rewrite lookup_insert_eq.
    + exists b. by rewrite lookup_insert_ne.
  - intros x. rewrite Heq. cbn [Coordinator.entity_manager_].
    unfold marked, signature_of, signature_stored, slot.
    cbn [EntityManager.signatures_].
    destruct (decide (x = N.of_nat (length (cols name)))) as [->|Hne].
    + by rewrite lookup_insert_eq.
    + rewrite lookup_insert_ne by done. apply L6.
Qed.
End PopulationSteps.
Section PopulationLoop.
Context {T : Type} `{!Component T}.

Lemma pool_drop (k : nat) :
  (k < N.to_nat MAX_ENTITIES)%nat ->
  drop k (EntityManager.available_entities_ EntityManager.new)
  = N.of_nat k
    :: drop (S k) (EntityManager.available_entities_ EntityManager.new).
Proof.
  intros Hk. apply drop_S. rewrite new_pool_seq, list_lookup_fmap.
  by rewrite lookup_seq_lt.
Qed.

Lemma spawn_step (ds : list (components T)) d c :
  populated ds c ->
  (length ds < N.to_nat MAX_ENTITIES)%nat ->
  ∃ c', spawn d c = Val (N.of_nat (length ds)) c' ∧ populated (ds ++ [d]) c'.
Proof.
  unfold populated. intros L Hlen. rewrite pool_drop in L by done.
  destruct (create_step _ _ _ _ _ L) as (c1 & H1 & L1).
  destruct (add_step "Gravity" 0 (N.of_nat (length ds)) (gravity d)
              _ _ _ _ ltac:(unfold kinds; repeat constructor) L1)
    as (c2 & H2 & L2); [by rewrite length_fmap..|].
  destruct (add_step "RigidBody" 1 (N.of_nat (length ds)) (rigid_body d)
              _ _ _ _ ltac:(unfold kinds; repeat constructor) L2)
    as (c3 & H3 & L3);
    [unfold grown; rewrite decide_False by done; by rewrite length_fmap..|].
  destruct (add_step "Transform" 2 (N.of_nat (length ds)) (transform d)
              _ _ _ _ ltac:(unfold kinds; repeat constructor) L3)
    as (c4 & H4 & L4);
    [unfold grown; rewrite !decide_False by done; by rewrite length_fmap..|].
  destruct (add_step "Pixel" 3 (N.of_nat (length ds)) (pixel d)
              _ _ _ _ ltac:(unfold kinds; repeat constructor) L4)
    as (c5 & H5 & L5);
    [unfold grown; rewrite !decide_False by done; by rewrite length_fmap..|].
  exists c5. split.
  - unfold spawn, bind. rewrite H1, H2, H3, H4, H5. done.
  - rewrite length_app. simpl. rewrite Nat.add_1_r.
    eapply layout_ext; [exact L5| |].
    + apply kinds_cases; unfold grown, drawn; rewrite fmap_app;
        repeat (rewrite decide_False by done);
        rewrite ?decide_True by done; done.
    + intros e. unfold marked.
      destruct (decide (e = N.of_nat (length ds))) as [->|Hne].
      * rewrite !decide_True by done. rewrite N.ltb_irrefl.
        destruct (N.ltb_spec (N.of_nat (length ds)) (N.of_nat (S (length ds))));
          [done|lia].
      * destruct (N.ltb_spec e (N.of_nat (length ds)));
          destruct (N.ltb_spec e (N.of_nat (S (length ds)))); done || lia.
Qed.

Lemma main_setup_populated :
  ∃ c, main_setup Coordinator.init = Val tt c ∧ populated (T := T) [] c.
Proof.
  exists (final main_setup Coordinator.init). split.
  { vm_compute. reflexivity. }
  split.
  - apply set_up_in_sync. unfold set_up.
    refine (bool_decide_unpack _ _). vm_compute. exact I.
  - split; [by vm_compute|]. vm_compute. by eexists.
  - split; [by vm_compute|]. vm_compute. by eexists.
  - by vm_compute.
  - apply kinds_cases; (split; [by vm_compute|]);
      exists ComponentArray.new; (split; [by vm_compute|]);
      apply filled_new.
  - intros e. replace (e <? N.of_nat (length [])) with false
      by (by destruct e).
    unfold signature_of, slot.
    replace (EntityManager.signatures_
               (Coordinator.entity_manager_
                  (final main_setup (Coordinator.init (T := T)))))
      with (∅ : gmap N Signature) by (by vm_compute).
    by rewrite lookup_empty.
Qed.

Lemma populate_populated (ds done : list (components T)) c :
  populated done c ->
  (length done + length ds <= N.to_nat MAX_ENTITIES)%nat ->
  ∃ c', populate ds c = Val (N.of_nat <$> seq (length done) (length ds)) c' ∧
        populated (done ++ ds) c'.
Proof.
  revert done c. induction ds as [|d ds IH]; intros done c L Hlen.
  - exists c. split; [done|]. by rewrite app_nil_r.
  - simpl in Hlen.
    destruct (spawn_step done d c L) as (c1 & H1 & L1); [lia|].
    destruct (IH (done ++ [d]) c1 L1) as (c2 & H2 & L2).
    { rewrite length_app. simpl. lia. }
    exists c2. split.
    + cbn [populate]. unfold bind. rewrite H1, H2.
      rewrite length_app. simpl. by rewrite Nat.add_1_r.
    + by rewrite <- app_assoc in L2.
Qed.
End PopulationLoop.
Section Main.
Context {T : Type} `{!Component T}.

Lemma populated_members (ds : list (components T)) c name req system :
  populated ds c ->
  required (Coordinator.system_manager_ c) name = req ->
  Bitset.covers 15 req = true ->
  Bitset.covers 0 req = false ->
  SystemManager.systems_ (Coordinator.system_manager_ c) !! name
    = Some system ->
  ∀ e, e ∈ System.entities_ system ↔ e < N.of_nat (length ds).
Proof.
  intros L Hreq Hfull Hnone Hsys e.
  destruct (layout_sync _ _ _ _ L) as [_ Hsync].
  rewrite (Hsync name system Hsys e), (layout_sigs _ _ _ _ L), Hreq.
  destruct (N.ltb_spec e (N.of_nat (length ds))) as [Hlt|Hge].
  - by rewrite Hfull.
  - rewrite Hnone. split; [done|lia].
Qed.

(** X21: [main] up to the end of its loop, whatever components are drawn.
    The setup followed by the loop run for [n <= MAX_ENTITIES] entities
    comes back without an error and stores the ids 0, ..., n - 1 in order.
    Afterwards PhysicsSystem and RenderSystem each hold exactly these ids,
    and entity [i] reads back the Gravity, RigidBody, Transform and Pixel
    drawn in iteration [i].  After all MAX_ENTITIES iterations, as in
    [main], the queue of free ids is empty: one more [create_entity] is
    undefined. *)
Theorem main_populates (ds : list (components T)) :
  (length ds <= N.to_nat MAX_ENTITIES)%nat ->
  ∃ c physics render,
    (main_setup ;; populate ds) Coordinator.init
      = Val (N.of_nat <$> seq 0 (length ds)) c ∧
    SystemManager.systems_ (Coordinator.system_manager_ c)
      !! "PhysicsSystem" = Some physics ∧
    SystemManager.systems_ (Coordinator.system_manager_ c)
      !! "RenderSystem" = Some render ∧
    (∀ e, e ∈ System.entities_ physics ↔ e < N.of_nat (length ds)) ∧
    (∀ e, e ∈ System.entities_ render ↔ e < N.of_nat (length ds)) ∧
    (∀ i d,
       ds !! i = Some d ->
       Coordinator.get_component "Gravity" (N.of_nat i) c
         = Val (gravity d) c ∧
       Coordinator.get_component "RigidBody" (N.of_nat i) c
         = Val (rigid_body d) c ∧
       Coordinator.get_component "Transform" (N.of_nat i) c
         = Val (transform d) c ∧
       Coordinator.get_component "Pixel" (N.of_nat i) c
         = Val (pixel d) c) ∧
    (length ds = N.to_nat MAX_ENTITIES ->
     Coordinator.create_entity c = Undefined EmptyQueue).
Proof.
  intros Hlen.
  destruct main_setup_populated as (c0 & H0 & L0).
  destruct (populate_populated ds [] c0 L0) as (c & Hrun & L); [simpl; lia|].
  simpl in Hrun, L.
  destruct (layout_physics _ _ _ _ L) as [Hp [physics Hphysics]].
  destruct (layout_render _ _ _ _ L) as [Hr [render Hrender]].
  exists c, physics, render. split; [|split; [done|split; [done|]]].
  { unfold bind. by rewrite H0. }
  split; [by apply (populated_members ds c "PhysicsSystem" 7)|].
  split; [by apply (populated_members ds c "RenderSystem" 12)|].
  split.
  - assert (Hget : ∀ name ty i d,
              (name, ty) ∈ kinds -> ds !! i = Some d ->
              Coordinator.get_component name (N.of_nat i) c
              = Val (drawn name d) c).
    { intros name ty i d Hin Hd.
      destruct (layout_kinds _ _ _ _ L name ty Hin) as (_ & a & Ha & Hfilled).
      apply (filled_get name i (drawn name <$> ds) _ c a Ha Hfilled).
      - by rewrite length_fmap.
      - by rewrite list_lookup_fmap, Hd. }
    intros i d Hd.
    split; [apply (Hget "Gravity" 0 i d); [unfold kinds; repeat constructor|done]|].
    split; [apply (Hget "RigidBody" 1 i d); [unfold kinds; repeat constructor|done]|].
    split; [apply (Hget "Transform" 2 i d); [unfold kinds; repeat constructor|done]|].
    apply (Hget "Pixel" 3 i d); [unfold kinds; repeat constructor|done].
  - intros Hall.
    unfold Coordinator.create_entity, Coordinator.entity_manager, zoom,
      EntityManager.create_entity.
    rewrite (layout_pool _ _ _ _ L), drop_ge; [done|].
    rewrite new_pool_seq, length_fmap, length_seq. lia.
Qed.
End Main.

Lemma main_populates_witness :
  ∃ c physics render,
    (main_setup ;;
     populate [mk_components 9 0 20 255; mk_components 5 0 31 128])
      Coordinator.init
      = Val [0; 1] c ∧
    SystemManager.systems_ (Coordinator.system_manager_ c)
      !! "PhysicsSystem" = Some physics ∧
    SystemManager.systems_ (Coordinator.system_manager_ c)
      !! "RenderSystem" = Some render ∧
    (∀ e, e ∈ System.entities_ physics ↔ e < 2) ∧
    (∀ e, e ∈ System.entities_ render ↔ e < 2).
Proof.
  destruct (main_populates
              [mk_components 9 0 20 255; mk_components 5 0 31 128])
    as (c & physics & render & Hrun & Hp & Hr & Hpe & Hre & _).
  - vm_compute. lia.
  - exists c, physics, render. auto.
Defined.
